(** * storage-scraper: the scrape-and-extract pipeline

    A shallow embedding of [storage_scraper/models.py],
    [storage_scraper/ollama_client.py] and [storage_scraper/scraper.py],
    then of [storage_scraper/config.py], [storage_scraper/exporter.py] and
    the commands of [storage_scraper/cli.py], followed by the properties of
    the pipeline, of the files it reads and writes and of the commands.

    Conventions.
    - A Python [str] is a list of Unicode code points ([list N]); [py "..."]
      turns an ASCII literal into one.
    - A [dict] obtained from [json.loads] is a [gmap] from keys to values.
    - Calls that reach the outside world (the Playwright page, the HTTP
      session) take their outcome from an environment record and are logged
      in a trace; a computation either returns a value or raises.
    - Logging through [loguru] has no effect on results and is left out.
    - Files live on a [Disk] that is passed along; pydantic's validation
      of a configuration and pandas' CSV writer are parameters. *)

From Stdlib Require Import ZArith NArith Ascii String DecimalString DecimalPos.
From stdpp Require Import base option list gmap.

Set Warnings "-register-all,-abstract-large-number".

(** ** Python strings *)

Abbreviation pystr := (list N).

Definition py (s : String.string) : pystr :=
  Ascii.N_of_ascii <$> String.list_ascii_of_string s.
Arguments py s%_string : simpl never.

(** Writes a literal that holds double quotes with single quotes instead:
    every apostrophe (39) of the argument becomes a quotation mark (34). *)
Definition pyq (s : String.string) : pystr :=
  (fun c => if (c =? 39)%N then 34%N else c) <$> py s.
Arguments pyq s%_string : simpl never.

(** [str.isspace] on one code point (Unicode White_Space plus the
    information separators 0x1c-0x1f, as CPython has it). *)
Definition isspace (c : N) : bool :=
  ((9 <=? c) && (c <=? 13) || (28 <=? c) && (c <=? 32) || (c =? 133)
   || (c =? 160) || (c =? 5760) || (8192 <=? c) && (c <=? 8202)
   || (c =? 8232) || (c =? 8233) || (c =? 8239) || (c =? 8287)
   || (c =? 12288))%N.

Fixpoint lstrip (s : pystr) : pystr :=
  match s with
  | [] => []
  | c :: r => if isspace c then lstrip r else s
  end.

Definition rstrip (s : pystr) : pystr := reverse (lstrip (reverse s)).

(** [s.strip()] *)
Definition strip (s : pystr) : pystr := rstrip (lstrip s).

(** [s.rstrip('/')] *)
Fixpoint lstrip_char (ch : N) (s : pystr) : pystr :=
  match s with
  | [] => []
  | c :: r => if (c =? ch)%N then lstrip_char ch r else s
  end.

Definition rstrip_char (ch : N) (s : pystr) : pystr :=
  reverse (lstrip_char ch (reverse s)).

(** [str(n)] for an [int] *)
Definition py_str_int (z : Z) : pystr :=
  py (DecimalString.NilZero.string_of_int (Z.to_int z)).

(** Line boundaries of [str.splitlines]. *)
Definition is_linebreak (c : N) : bool :=
  ((10 <=? c) && (c <=? 13) || (28 <=? c) && (c <=? 30) || (c =? 133)
   || (c =? 8232) || (c =? 8233))%N.

(** [s.splitlines()]: [cur] is the current line, reversed. A carriage
    return followed by a line feed is one boundary; no empty last line. *)
Fixpoint splitlines_from (cur s : pystr) : list pystr :=
  match s with
  | [] => match cur with [] => [] | _ => [reverse cur] end
  | c :: r =>
      if is_linebreak c then
        reverse cur ::
          match r with
          | c' :: r' =>
              if ((c =? 13) && (c' =? 10))%N then splitlines_from [] r'
              else splitlines_from [] r
          | [] => splitlines_from [] r
          end
      else splitlines_from (c :: cur) r
  end.

Definition splitlines (s : pystr) : list pystr := splitlines_from [] s.

(** [s.split("  ")]: cut at every occurrence of two spaces, left to right. *)
Fixpoint split_two_spaces_from (cur s : pystr) : list pystr :=
  match s with
  | [] => [reverse cur]
  | c :: r =>
      match r with
      | c' :: r' =>
          if ((c =? 32) && (c' =? 32))%N
          then reverse cur :: split_two_spaces_from [] r'
          else split_two_spaces_from (c :: cur) r
      | [] => split_two_spaces_from (c :: cur) r
      end
  end.

Definition split_two_spaces (s : pystr) : list pystr :=
  split_two_spaces_from [] s.

(** [sep.join(parts)] *)
Fixpoint join (sep : pystr) (parts : list pystr) : pystr :=
  match parts with
  | [] => []
  | [p] => p
  | p :: ps => p ++ sep ++ join sep ps
  end.

(** Truthiness of a [str]. *)
Definition nonempty (s : pystr) : bool :=
  match s with [] => false | _ => true end.

(** ** Values produced by [json.loads] *)

Inductive json : Type :=
| JNull
| JBool (b : bool)
| JInt (z : Z)
| JFloat (lit : pystr)
| JStr (s : pystr)
| JArr (items : list json)
| JObj (members : gmap (list N) json).

(** ** [json.loads]

    The decoder follows CPython's scanner: whitespace is space, tab, line
    feed and carriage return; strings are strict (no raw control
    character); [NaN], [Infinity] and [-Infinity] are accepted; a repeated
    key keeps its last value. A float keeps the text of its literal. Every
    decoding error is [None]. Nesting is assumed to stay below the
    interpreter's recursion limit and integers to have any number of
    digits. *)

Definition is_json_ws (c : N) : bool :=
  ((c =? 32) || (c =? 9) || (c =? 10) || (c =? 13))%N.

Fixpoint skip_ws (s : pystr) : pystr :=
  match s with
  | [] => []
  | c :: r => if is_json_ws c then skip_ws r else s
  end.

Definition is_digit (c : N) : bool := ((48 <=? c) && (c <=? 57))%N.

Definition hex_val (c : N) : option N :=
  if is_digit c then Some (c - 48)%N
  else if ((97 <=? c) && (c <=? 102))%N then Some (c - 87)%N
  else if ((65 <=? c) && (c <=? 70))%N then Some (c - 55)%N
  else None.

Definition decode_hex4 (s : pystr) : option (N * pystr) :=
  match s with
  | a :: b :: c :: d :: r =>
      ha ← hex_val a; hb ← hex_val b; hc ← hex_val c; hd ← hex_val d;
      Some ((((ha * 16 + hb) * 16 + hc) * 16 + hd)%N, r)
  | _ => None
  end.

Definition simple_escape (c : N) : option N :=
  if (c =? 34)%N then Some 34%N
  else if (c =? 92)%N then Some 92%N
  else if (c =? 47)%N then Some 47%N
  else if (c =? 98)%N then Some 8%N
  else if (c =? 102)%N then Some 12%N
  else if (c =? 110)%N then Some 10%N
  else if (c =? 114)%N then Some 13%N
  else if (c =? 116)%N then Some 9%N
  else None.

Definition is_high_surrogate (c : N) : bool := ((55296 <=? c) && (c <=? 56319))%N.
Definition is_low_surrogate (c : N) : bool := ((56320 <=? c) && (c <=? 57343))%N.

(** Scans a string body up to its closing quote; [acc] is reversed. *)
Fixpoint scanstring (fuel : nat) (acc s : pystr) : option (pystr * pystr) :=
  match fuel with
  | O => None
  | S fuel' =>
      match s with
      | [] => None
      | c :: r =>
          if (c =? 34)%N then Some (reverse acc, r)
          else if (c =? 92)%N then
            match r with
            | [] => None
            | e :: r1 =>
                if (e =? 117)%N then
                  '(u, r2) ← decode_hex4 r1;
                  match r2 with
                  | 92%N :: 117%N :: r3 =>
                      if is_high_surrogate u then
                        '(u2, r4) ← decode_hex4 r3;
                        if is_low_surrogate u2
                        then scanstring fuel'
                               ((65536 + (u - 55296) * 1024 + (u2 - 56320))%N :: acc) r4
                        else scanstring fuel' (u :: acc) r2
                      else scanstring fuel' (u :: acc) r2
                  | _ => scanstring fuel' (u :: acc) r2
                  end
                else
                  ch ← simple_escape e; scanstring fuel' (ch :: acc) r1
            end
          else if (c <=? 31)%N then None
          else scanstring fuel' (c :: acc) r
      end
  end.

Fixpoint strip_prefix (p s : pystr) : option pystr :=
  match p, s with
  | [], _ => Some s
  | a :: p', b :: s' => if (a =? b)%N then strip_prefix p' s' else None
  | _ :: _, [] => None
  end.

Fixpoint take_digits (s : pystr) : pystr * pystr :=
  match s with
  | c :: r =>
      if is_digit c then let '(ds, r') := take_digits r in (c :: ds, r')
      else ([], s)
  | [] => ([], [])
  end.

Definition digits_value (ds : pystr) : Z :=
  foldl (fun acc d => (acc * 10 + (Z.of_N d - 48))%Z) 0%Z ds.

(** A number: an optional minus sign, then 0 or a digit string without a
    leading zero, then an optional fraction (a dot and digits), then an
    optional exponent (e or E, an optional sign, digits). *)
Definition match_number (s : pystr) : option (json * pystr) :=
  let '(sign, s1) :=
    match s with
    | c :: r => if (c =? 45)%N then ([c], r) else ([], s)
    | [] => ([], s)
    end in
  '(int_part, r1) ←
    match s1 with
    | c :: r =>
        if ((49 <=? c) && (c <=? 57))%N
        then let '(ds, r') := take_digits r in Some (c :: ds, r')
        else if (c =? 48)%N then Some ([c], r)
        else None
    | [] => None
    end;
  let '(frac, r2) :=
    match r1 with
    | dot :: d :: r =>
        if ((dot =? 46)%N && is_digit d)
        then let '(ds, r') := take_digits r in (dot :: d :: ds, r')
        else ([], r1)
    | _ => ([], r1)
    end in
  let '(expo, r3) :=
    match r2 with
    | e :: r =>
        if ((e =? 101) || (e =? 69))%N then
          let '(sg, r') :=
            match r with
            | c :: t => if ((c =? 43) || (c =? 45))%N then ([c], t) else ([], r)
            | [] => ([], r)
            end in
          let '(ds, r'') := take_digits r' in
          match ds with
          | [] => ([], r2)
          | _ => (e :: sg ++ ds, r'')
          end
        else ([], r2)
    | [] => ([], r2)
    end in
  match frac, expo with
  | [], [] =>
      let v := digits_value int_part in
      Some (JInt (match sign with [] => v | _ => (- v)%Z end), r3)
  | _, _ => Some (JFloat (sign ++ int_part ++ frac ++ expo), r3)
  end.

(** One value ([scan_once]), the rest of an array after its first
    whitespace ([parse_items]) and the rest of an object ([parse_members]). *)
Fixpoint scan_once (fuel : nat) (s : pystr) : option (json * pystr) :=
  match fuel with
  | O => None
  | S fuel' =>
      match s with
      | [] => None
      | c :: r =>
          if (c =? 34)%N then
            '(str, r') ← scanstring (S (length r)) [] r; Some (JStr str, r')
          else if (c =? 123)%N then
            match skip_ws r with
            | c' :: r' =>
                if (c' =? 125)%N then Some (JObj ∅, r')
                else parse_members fuel' ∅ (c' :: r')
            | [] => None
            end
          else if (c =? 91)%N then
            match skip_ws r with
            | c' :: r' =>
                if (c' =? 93)%N then Some (JArr [], r')
                else parse_items fuel' [] (c' :: r')
            | [] => None
            end
          else
            match strip_prefix (py "null") s with
            | Some r' => Some (JNull, r')
            | None =>
            match strip_prefix (py "true") s with
            | Some r' => Some (JBool true, r')
            | None =>
            match strip_prefix (py "false") s with
            | Some r' => Some (JBool false, r')
            | None =>
            match strip_prefix (py "NaN") s with
            | Some r' => Some (JFloat (py "NaN"), r')
            | None =>
            match strip_prefix (py "Infinity") s with
            | Some r' => Some (JFloat (py "Infinity"), r')
            | None =>
            match strip_prefix (py "-Infinity") s with
            | Some r' => Some (JFloat (py "-Infinity"), r')
            | None => match_number s
            end end end end end end
      end
  end
with parse_items (fuel : nat) (acc : list json) (s : pystr)
  : option (json * pystr) :=
  match fuel with
  | O => None
  | S fuel' =>
      '(v, r) ← scan_once fuel' s;
      match skip_ws r with
      | c :: r' =>
          if (c =? 93)%N then Some (JArr (reverse (v :: acc)), r')
          else if (c =? 44)%N then parse_items fuel' (v :: acc) (skip_ws r')
          else None
      | [] => None
      end
  end
with parse_members (fuel : nat) (acc : gmap (list N) json) (s : pystr)
  : option (json * pystr) :=
  match fuel with
  | O => None
  | S fuel' =>
      match s with
      | q :: r =>
          if (q =? 34)%N then
            '(k, r1) ← scanstring (S (length r)) [] r;
            match skip_ws r1 with
            | colon :: r2 =>
                if (colon =? 58)%N then
                  '(v, r3) ← scan_once fuel' (skip_ws r2);
                  match skip_ws r3 with
                  | c :: r4 =>
                      if (c =? 125)%N then Some (JObj (<[k := v]> acc), r4)
                      else if (c =? 44)%N
                      then parse_members fuel' (<[k := v]> acc) (skip_ws r4)
                      else None
                  | [] => None
                  end
                else None
            | [] => None
            end
          else None
      | [] => None
      end
  end.

Definition json_loads (s : pystr) : option json :=
  match s with
  | 65279%N :: _ => None
  | _ =>
      '(v, r) ← scan_once (2 * length s + 2) (skip_ws s);
      match skip_ws r with
      | [] => Some v
      | _ => None
      end
  end.

(** ** The search [re.search(r'\[.*\]', response, re.DOTALL)]

    With [re.DOTALL] the dot matches every code point, and the star is
    greedy: the match starts at the first opening bracket that has a
    closing bracket after it and runs to the last closing bracket of the
    text. [json_match.group()] is the matched text. *)

(** The longest prefix of [s] that ends with a closing bracket. *)
Fixpoint upto_last_close (s : pystr) : option pystr :=
  match s with
  | [] => None
  | c :: r =>
      match upto_last_close r with
      | Some m => Some (c :: m)
      | None => if (c =? 93)%N then Some [c] else None
      end
  end.

Fixpoint re_search_brackets (s : pystr) : option pystr :=
  match s with
  | [] => None
  | c :: r =>
      if (c =? 91)%N then
        match upto_last_close r with
        | Some m => Some (c :: m)
        | None => re_search_brackets r
        end
      else re_search_brackets r
  end.

(** ** Exceptions: the class name and the text [str(e)] gives. *)

Record exn : Type := Exn { exn_class : string; exn_msg : pystr }.

(** ** models.py

    Both models have a field [url]; the one of [StorageUnit] is
    [unit_url] here. The optional fields default to [None] and [units] to
    the empty list; the constructors accept every string the code passes
    to them. *)

Record StorageUnit : Type := mkStorageUnit {
  unit_url : pystr;
  size : pystr;
  price : pystr;
  raw_size : option pystr;
  raw_price : option pystr;
}.

Record ScrapingResult : Type := mkScrapingResult {
  url : pystr;
  success : bool;
  units : list StorageUnit;
  error : option pystr;
}.

(** ** config.py: the fields of [Config] and their defaults *)

Record Config : Type := mkConfig {
  ollama_model : pystr;
  ollama_base_url : pystr;
  max_retries : Z;
  timeout_seconds : Z;
  user_agent : pystr;
}.

Definition default_config : Config :=
  {| ollama_model := py "gemma3n:e4b";
     ollama_base_url := py "http://localhost:11434";
     max_retries := 3;
     timeout_seconds := 3600;
     user_agent :=
       py "Mozilla/5.0 (Windows NT 10.0; Win64; x64) AppleWebKit/537.36" |}.

(** ** The environment of one per-URL pipeline

    What the Playwright page and the HTTP session answer. [None] in a
    result of type [option exn] means the call returned normally. *)

Record PageEnv : Type := mkPageEnv {
  new_page_result : option exn;
  set_headers_result : option exn;
  (** [page.goto]: raises, returns [None], or returns a response whose
      [status] is the number. *)
  goto_result : exn + option Z;
  wait_result : option exn;
  content_result : exn + pystr;
  close_result : option exn;
}.

(** [await response.json()] raises or gives the decoded body. *)
Inductive HttpBody : Type :=
| BodyRaises (e : exn)
| BodyJson (data : json).

(** [session.post(...)] raises (time-out, connection failure) or gives a
    response with a status and a body. *)
Inductive PostResult : Type :=
| PostRaises (e : exn)
| PostResponse (status : Z) (body : HttpBody).

Record OllamaEnv : Type := mkOllamaEnv {
  session_result : option exn;
  post_result : PostResult;
}.

Record PipelineEnv : Type := mkPipelineEnv {
  page_env : PageEnv;
  ollama_env : OllamaEnv;
}.

(** ** Calls, traces and the monad of a pipeline *)

Inductive event : Type :=
| NewPage                                  (* a page was opened *)
| SetExtraHttpHeaders (ua : pystr)
| Goto (target : pystr) (timeout_ms : Z)
| WaitForTimeout (ms : Z)
| Content
| ClosePage                                (* [page.close()] was called *)
| SessionOpen
| Post (endpoint prompt : pystr) (timeout_s : Z).

Definition M (A : Type) : Type := list event → (exn + A) * list event.

Definition ret {A} (a : A) : M A := fun tr => (inr a, tr).

Definition raise {A} (e : exn) : M A := fun tr => (inl e, tr).

Definition bind {A B} (m : M A) (k : A → M B) : M B :=
  fun tr =>
    match m tr with
    | (inr a, tr') => k a tr'
    | (inl e, tr') => (inl e, tr')
    end.

(** [try: body except Exception as e: handler(e)] *)
Definition try_except {A} (body : M A) (handler : exn → M A) : M A :=
  fun tr =>
    match body tr with
    | (inr a, tr') => (inr a, tr')
    | (inl e, tr') => handler e tr'
    end.

(** A call that is logged when issued and then returns or raises. *)
Definition call {A} (ev : event) (result : exn + A) : M A :=
  fun tr => (result, tr ++ [ev]).

(** A call that is logged only when it returns normally. *)
Definition call_logged_on_return {A} (ev : event) (result : exn + A) : M A :=
  fun tr =>
    match result with
    | inr a => (inr a, tr ++ [ev])
    | inl e => (inl e, tr)
    end.

Definition returns_or_raises (r : option exn) : exn + () :=
  match r with
  | None => inr ()
  | Some e => inl e
  end.

Definition run {A} (m : M A) : (exn + A) * list event := m [].

Notation "'do' x <- m ; k" := (bind m (fun x => k))
  (at level 10, x name, m at level 100, k at level 200).

(** What a call of a coroutine comes to, seen from its caller. *)
Inductive outcome (A : Type) : Type :=
| Returns (a : A)
| Raises (e : exn)
| Hangs.
Arguments Returns {A} a.
Arguments Raises {A} e.
Arguments Hangs {A}.

(** Interpreter-side instances used by the closed examples at the end. *)
Definition repr_placeholder : json → pystr := fun _ => py "?".

Definition bs4_text_identity : pystr → exn + pystr := fun html => inr html.

Definition bs4_text_failing : pystr → exn + pystr :=
  fun _ => inl (Exn "ParserRejectedMarkup" (py "rejected")).

Section Pipeline.

(** [str(v)] for a float, a list or a dict is the interpreter's [repr];
    it is a parameter of the development. *)
Variable py_repr : json → pystr.

(** Lines 74-81 of [ollama_client.py]: parsing the page with
    BeautifulSoup, removing [script], [style], [meta] and [link] elements
    and reading [soup.get_text()]. The library is a parameter; it returns
    the text or raises. *)
Variable bs4_get_text : pystr → exn + pystr.

(** ** ollama_client.py *)

Record OllamaClient : Type := mkOllamaClient {
  oc_config : Config;
  base_url : pystr;
}.

(** [OllamaClient.__init__] *)
Definition OllamaClient_init (config : Config) : OllamaClient :=
  {| oc_config := config;
     base_url := rstrip_char 47 (ollama_base_url config) |}.

(** [str(v)] *)
Definition py_str (v : json) : pystr :=
  match v with
  | JStr s => s
  | JNull => py "None"
  | JBool true => py "True"
  | JBool false => py "False"
  | JInt z => py_str_int z
  | _ => py_repr v
  end.

Definition py_type_name (v : json) : pystr :=
  match v with
  | JNull => py "NoneType"
  | JBool _ => py "bool"
  | JInt _ => py "int"
  | JFloat _ => py "float"
  | JStr _ => py "str"
  | JArr _ => py "list"
  | JObj _ => py "dict"
  end.

Definition attribute_error (v : json) (attr : pystr) : exn :=
  Exn "AttributeError"
    ([39%N] ++ py_type_name v ++ py "' object has no attribute '" ++ attr ++ [39%N]).

(** The whitespace clean-up of [_clean_html_for_llm], lines 84-86. *)
Definition normalize_whitespace (text : pystr) : pystr :=
  let lines := strip <$> splitlines text in
  let chunks := lines ≫= (fun line => strip <$> split_two_spaces line) in
  join (py " ") (filter (fun chunk => nonempty chunk = true) chunks).

Definition _clean_html_for_llm (html_content : pystr) (max_chars : nat) : pystr :=
  match bs4_get_text html_content with
  | inr text =>
      let text := normalize_whitespace text in
      if (max_chars <? length text)%nat
      then take max_chars text ++ py "..."
      else text
  | inl _ => take max_chars html_content
  end.

Definition default_max_chars : nat := 8000.

(** The fixed part of the prompt, up to [HTML Content from ]. *)
Definition prompt_head : pystr :=
  join [10%N]
    [ [];
      py "You are an expert at extracting self-storage unit information from web pages.";
      [];
      py "Your task: Extract storage unit sizes and prices from the HTML below.";
      [];
      py "Look for:";
      pyq "- Unit sizes (examples: '5x5', '10x20', " ++ [34%N]
        ++ py "5' x 5'" ++ [34%N] ++ pyq ", '50 sq ft', '25 square feet')";
      pyq "- Prices (examples: '$100', '$99/month', '" ++ [8364%N]
        ++ pyq "75', '" ++ [163%N] ++ pyq "50 per month')";
      [];
      py "Return ONLY a JSON array in this exact format:";
      py "[";
      pyq "  {'size': '5x5', 'price': '$100/month'},";
      pyq "  {'size': '10x10', 'price': '$150/month'}";
      py "]";
      [];
      py "Rules:";
      py "- Return ONLY valid JSON, no other text";
      pyq "- Normalize sizes to simple format (e.g., '5x5' not " ++ [34%N]
        ++ py "5' x 5'" ++ [34%N] ++ py ")";
      pyq "- Include pricing period if mentioned (e.g., '/month', '/week')";
      py "- If no data found, return empty array: []";
      py "- Skip duplicate entries";
      [];
      py "HTML Content from " ].

Definition _create_extraction_prompt (html_content url : pystr) : pystr :=
  let cleaned_html := _clean_html_for_llm html_content default_max_chars in
  prompt_head ++ url ++ py ":" ++ [10%N] ++ cleaned_html ++ [10%N].

(** The body of the loop of [_parse_ollama_response], lines 150-160. *)
Definition append_unit (url : pystr) (units : list StorageUnit) (item : json)
  : list StorageUnit :=
  match item with
  | JObj d =>
      match d !! py "size", d !! py "price" with
      | Some sz, Some pr =>
          units ++
            [ {| unit_url := url;
                 size := strip (py_str sz);
                 price := strip (py_str pr);
                 raw_size := Some (py_str (default sz (d !! py "raw_size")));
                 raw_price := Some (py_str (default pr (d !! py "raw_price"))) |} ]
      | _, _ => units
      end
  | _ => units
  end.

Definition collect_units (url : pystr) (data : list json) : list StorageUnit :=
  foldl (append_unit url) [] data.

(** The text handed to [json.loads], lines 136-140. *)
Definition json_payload (response : pystr) : pystr :=
  match re_search_brackets response with
  | Some json_match => json_match
  | None => strip response
  end.

Definition _parse_ollama_response (response url : pystr) : list StorageUnit :=
  match json_loads (json_payload response) with
  | Some (JArr data) => collect_units url data
  | Some _ => []
  | None => []
  end.

(** [except aiohttp.ClientTimeout:] names a class that is not an
    exception class, so matching any raised exception against it raises
    this [TypeError], which leaves [_call_ollama]. *)
Definition catching_non_exception : exn :=
  Exn "TypeError"
    (py "catching classes that do not inherit from BaseException is not allowed").

Definition post_outcome (r : PostResult) : exn + (Z * HttpBody) :=
  match r with
  | PostRaises e => inl e
  | PostResponse status body => inr (status, body)
  end.

Definition _call_ollama (self : OllamaClient) (env : OllamaEnv) (prompt : pystr)
  : M (option pystr) :=
  let endpoint := base_url self ++ py "/api/generate" in
  try_except
    (do response <- call (Post endpoint prompt (timeout_seconds (oc_config self)))
                      (post_outcome (post_result env));
     if (response.1 =? 200)%Z then
       match response.2 with
       | BodyRaises e => raise e
       | BodyJson (JObj data) =>
           match default (JStr []) (data !! py "response") with
           | JStr text => ret (Some (strip text))
           | v => raise (attribute_error v (py "strip"))
           end
       | BodyJson v => raise (attribute_error v (py "get"))
       end
     else ret None)
    (fun _ => raise catching_non_exception).

Definition extract_storage_data (self : OllamaClient) (env : OllamaEnv)
    (html_content url : pystr) : M (list StorageUnit) :=
  let prompt := _create_extraction_prompt html_content url in
  try_except
    (do _ <- call SessionOpen (returns_or_raises (session_result env));
     do response <- _call_ollama self env prompt;
     match response with
     | Some text =>
         if nonempty text then ret (_parse_ollama_response text url) else ret []
     | None => ret []
     end)
    (fun _ => ret []).

(** ** scraper.py *)

Inductive Browser : Type := Chromium.

Record StorageScraper : Type := mkStorageScraper {
  config : Config;
  ollama_client : OllamaClient;
  browser : option Browser;
}.

(** [StorageScraper.__init__] and [__aenter__] *)
Definition StorageScraper_init (cfg : Config) : StorageScraper :=
  {| config := cfg; ollama_client := OllamaClient_init cfg; browser := None |}.

Definition aenter (self : StorageScraper) : StorageScraper :=
  {| config := config self;
     ollama_client := ollama_client self;
     browser := Some Chromium |}.

Definition failed (u msg : pystr) : ScrapingResult :=
  {| url := u; success := false; units := []; error := Some msg |}.

Definition succeeded (u : pystr) (us : list StorageUnit) : ScrapingResult :=
  {| url := u; success := true; units := us; error := None |}.

(** [not response or response.status >= 400] *)
Definition load_failed (response : option Z) : bool :=
  match response with
  | None => true
  | Some status => (400 <=? status)%Z
  end.

Definition _scrape_url (self : StorageScraper) (env : PipelineEnv) (u : pystr)
  : M ScrapingResult :=
  let page := page_env env in
  try_except
    (do _ <- match browser self with
             | Some _ =>
                 call_logged_on_return NewPage
                   (returns_or_raises (new_page_result page))
             | None =>
                 raise (attribute_error JNull (py "new_page"))
             end;
     do _ <- call (SetExtraHttpHeaders (user_agent (config self)))
               (returns_or_raises (set_headers_result page));
     do response <- call (Goto u (timeout_seconds (config self) * 1000))
                      (goto_result page);
     if load_failed response then
       let error_msg :=
         py "Failed to load page: HTTP " ++
         match response with
         | Some status => py_str_int status
         | None => py "No response"
         end in
       do _ <- call ClosePage (returns_or_raises (close_result page));
       ret (failed u error_msg)
     else
       do _ <- call (WaitForTimeout 2000) (returns_or_raises (wait_result page));
       do html_content <- call Content (content_result page);
       do _ <- call ClosePage (returns_or_raises (close_result page));
       do found <- extract_storage_data (ollama_client self) (ollama_env env)
                     html_content u;
       match found with
       | _ :: _ => ret (succeeded u found)
       | [] => ret (succeeded u [])
       end)
    (fun e => ret (failed u (py "Scraping error: " ++ exn_msg e))).

(** [async with semaphore: return await self._scrape_url(url)]; the permit
    bounds how many pipelines run at once and does not touch the result. *)
Definition _scrape_single_url (self : StorageScraper) (env : PipelineEnv)
    (u : pystr) : M ScrapingResult :=
  _scrape_url self env u.

(** [asyncio.gather] over the tasks, with [return_exceptions=True]: every task that
    completes stores its result in the slot of its own position;
    [completion] lists the positions in the order the tasks complete. The
    call returns the slots once all are filled, and never if one stays
    empty. *)
Definition complete {A} (tasks : list A) (slots : list (option A)) (i : nat)
  : list (option A) :=
  match tasks !! i with
  | Some r => <[i := Some r]> slots
  | None => slots
  end.

Definition gather {A} (tasks : list A) (completion : list nat) : option (list A) :=
  mapM id (foldl (complete tasks) (replicate (length tasks) None) completion).

(** The loop over [enumerate(results)], lines 48-57. [urls[i]] raises
    [IndexError] out of range. *)
Definition finalize_step (urls : list pystr)
    (acc : exn + list ScrapingResult) (entry : nat * (exn + ScrapingResult))
  : exn + list ScrapingResult :=
  match acc with
  | inl e => inl e
  | inr final_results =>
      match entry.2 with
      | inl raised =>
          match urls !! entry.1 with
          | Some u => inr (final_results ++ [failed u (exn_msg raised)])
          | None => inl (Exn "IndexError" (py "list index out of range"))
          end
      | inr result => inr (final_results ++ [result])
      end
  end.

Definition finalize (urls : list pystr) (results : list (exn + ScrapingResult))
  : exn + list ScrapingResult :=
  foldl (finalize_step urls) (inr []) (zip (seq 0 (length results)) results).

Definition not_initialized : exn :=
  Exn "RuntimeError"
    (py "Scraper not properly initialized. Use async with statement.").

(** [envs i] is the environment met by the pipeline of the URL at
    position [i]. *)
Definition scrape_urls (self : StorageScraper) (envs : nat → PipelineEnv)
    (completion : list nat) (urls : list pystr)
  : outcome (list ScrapingResult) :=
  match browser self with
  | None => Raises not_initialized
  | Some _ =>
      let tasks :=
        imap (fun i u => (run (_scrape_single_url self (envs i) u)).1) urls in
      match gather tasks completion with
      | None => Hangs
      | Some results =>
          match finalize urls results with
          | inr final_results => Returns final_results
          | inl e => Raises e
          end
      end
  end.

(** ** Spec-side readings used to state the properties *)

(** The acceptance rule of the extraction as the specification words it:
    an element gives a unit exactly when it is an object holding both a
    [size] and a [price] key. *)
Definition unit_of_item (url : pystr) (item : json) : option StorageUnit :=
  match item with
  | JObj d =>
      sz ← d !! py "size";
      pr ← d !! py "price";
      Some {| unit_url := url;
              size := strip (py_str sz);
              price := strip (py_str pr);
              raw_size := Some (py_str (default sz (d !! py "raw_size")));
              raw_price := Some (py_str (default pr (d !! py "raw_price"))) |}
  | _ => None
  end.

(** The page was fetched: every browser call of the pipeline returned
    normally, the response has a status below 400 and the captured
    content is [html]. *)
Definition fetch_succeeds (page : PageEnv) (html : pystr) : Prop :=
  new_page_result page = None ∧ set_headers_result page = None ∧
  (∃ status, goto_result page = inr (Some status) ∧ (status < 400)%Z) ∧
  wait_result page = None ∧ content_result page = inr html ∧
  close_result page = None.

(** The ways the generation call fails: the request raises (a time-out or
    a transport failure), the status is not 200, or the text of the
    answer does not decode to a JSON list. *)
Inductive extraction_fails (env : OllamaEnv) : Prop :=
| request_raises e :
    post_result env = PostRaises e → extraction_fails env
| status_not_200 status body :
    post_result env = PostResponse status body → status ≠ 200%Z →
    extraction_fails env
| answer_not_a_list status body text :
    post_result env = PostResponse status (BodyJson (JObj body)) →
    body !! py "response" = Some (JStr text) →
    (∀ data, json_loads (json_payload (strip text)) ≠ Some (JArr data)) →
    extraction_fails env.


(** The record invariant of [ScrapingResult]. *)
Definition result_invariant (r : ScrapingResult) : Prop :=
  (success r = false ↔ error r ≠ None) ∧
  (∀ msg, error r = Some msg → msg ≠ []) ∧
  (success r = false → units r = []).

(** ** Sample scrapers and environments *)

Definition sample_scraper : StorageScraper :=
  aenter (StorageScraper_init default_config).

(** A page that loads with the given status and content. *)
Definition page_loads (status : Z) (html : pystr) : PageEnv :=
  {| new_page_result := None; set_headers_result := None;
     goto_result := inr (Some status); wait_result := None;
     content_result := inr html; close_result := None |}.

(** A page whose navigation runs into the time-out. *)
Definition page_times_out : PageEnv :=
  {| new_page_result := None; set_headers_result := None;
     goto_result := inl (Exn "TimeoutError" (py "Timeout 3600000ms exceeded."));
     wait_result := None; content_result := inr []; close_result := None |}.

(** An endpoint that answers 200 with [text] as the model's response. *)
Definition endpoint_answers (text : pystr) : OllamaEnv :=
  {| session_result := None;
     post_result :=
       PostResponse 200 (BodyJson (JObj {[ py "response" := JStr text ]})) |}.

(** An endpoint whose request times out. *)
Definition endpoint_times_out : OllamaEnv :=
  {| session_result := None;
     post_result := PostRaises (Exn "TimeoutError" []) |}.

(** The page loads for the first URL and answers 404 for the others. *)
Definition sample_envs (i : nat) : PipelineEnv :=
  {| page_env := page_loads (match i with O => 200 | _ => 404 end)
                   (py "<html><body>5x5 $50/month</body></html>");
     ollama_env :=
       endpoint_answers (pyq "[{'size':'5x5','price':'$50/month'}]") |}.

(** ** A further reading and a further sample for the pipeline *)




(** ** cli.py: reading the URLs *)

Definition click_exception (message : pystr) : exn :=
  Exn "ClickException" message.

(** Iterating over a file opened in text mode: a carriage return, alone
    or before a line feed, reads as a line feed, and every line keeps the
    line feed that ends it. [cur] is the current line, reversed. *)
Fixpoint file_lines_from (cur s : pystr) : list pystr :=
  match s with
  | [] => match cur with [] => [] | _ => [reverse cur] end
  | c :: r =>
      if (c =? 10)%N then reverse (10%N :: cur) :: file_lines_from [] r
      else if (c =? 13)%N then
        reverse (10%N :: cur) ::
          match r with
          | c' :: r' =>
              if (c' =? 10)%N then file_lines_from [] r'
              else file_lines_from [] r
          | [] => file_lines_from [] r
          end
      else file_lines_from (c :: cur) r
  end.

Definition file_lines (content : pystr) : list pystr :=
  file_lines_from [] content.

(** [read_urls_from_file]. [open_file] gives what opening and reading
    the file at a path comes to: its text, or the exception raised. The
    [ClickException] of line 41 is raised inside the [try] and so meets
    the handlers below it. *)
Definition read_urls_from_file (open_file : pystr → exn + pystr)
    (file_path : pystr) : exn + list pystr :=
  let attempt : exn + list pystr :=
    match open_file file_path with
    | inl e => inl e
    | inr content =>
        let urls :=
          strip <$> filter (λ line, nonempty (strip line) = true)
                      (file_lines content) in
        match urls with
        | [] => inl (click_exception (py "No URLs found in " ++ file_path))
        | _ :: _ => inr urls
        end
    end in
  match attempt with
  | inr urls => inr urls
  | inl e =>
      if String.eqb (exn_class e) "FileNotFoundError"
      then inl (click_exception (py "File not found: " ++ file_path))
      else inl (click_exception
                  (py "Error reading file " ++ file_path ++ py ": " ++ exn_msg e))
  end.

(** The options of the [scrape] command. An option that was not given is
    [None]; [--urls] may be given several times. *)
Record ScrapeOptions : Type := mkScrapeOptions {
  opt_url : option pystr;
  opt_urls : list pystr;
  opt_url_file : option pystr;
  opt_output : pystr;
  opt_export_format : pystr;
}.

(** Lines 103-117 of [scrape]: the URLs of the three sources, in that
    order. *)
Definition collect_urls (open_file : pystr → exn + pystr)
    (opts : ScrapeOptions) : exn + list pystr :=
  let all_urls := [] in
  let all_urls :=
    match opt_url opts with
    | Some u => if nonempty u then all_urls ++ [u] else all_urls
    | None => all_urls
    end in
  let all_urls := all_urls ++ opt_urls opts in
  let from_file :=
    match opt_url_file opts with
    | Some path =>
        if nonempty path then read_urls_from_file open_file path else inr []
    | None => inr []
    end in
  match from_file with
  | inl e => inl e
  | inr file_urls =>
      let all_urls := all_urls ++ file_urls in
      match all_urls with
      | [] => inl (click_exception
                     (py "No URLs provided. Use --url, --urls, or --file"))
      | _ :: _ => inr all_urls
      end
  end.

(** Lines 119-125 of [scrape]: the loop that drops repeated URLs, with
    the set [seen] and the list [unique_urls]. *)
Definition dedup_step (state : gset (list N) * list pystr) (u : pystr)
  : gset (list N) * list pystr :=
  if decide (u ∈ state.1) then state
  else ({[ u ]} ∪ state.1, state.2 ++ [u]).

Definition unique_urls (all_urls : list pystr) : list pystr :=
  (foldl dedup_step (∅, []) all_urls).2.

(** The URLs of a list that are not in [seen] and not repeated, in the
    order of their first occurrence; used to reason about the loop. *)
Fixpoint first_occurrences (seen : gset (list N)) (l : list pystr) : list pystr :=
  match l with
  | [] => []
  | u :: r =>
      if decide (u ∈ seen) then first_occurrences seen r
      else u :: first_occurrences ({[ u ]} ∪ seen) r
  end.

(** A sample file system: [urls.txt] lists two URLs among blank lines,
    [blank.txt] holds white space only, [locked.txt] cannot be read and
    nothing else exists. *)
Definition sample_files (path : pystr) : exn + pystr :=
  if decide (path = py "urls.txt") then
    inr (py "  https://a.example/units " ++ [13%N; 10%N; 10%N]
           ++ py "https://b.example/units" ++ [10%N; 9%N; 10%N])
  else if decide (path = py "blank.txt") then inr ([10%N] ++ py "   " ++ [13%N])
  else if decide (path = py "locked.txt")
  then inl (Exn "PermissionError" (py "[Errno 13] Permission denied: 'locked.txt'"))
  else inl (Exn "FileNotFoundError"
              (py "[Errno 2] No such file or directory: " ++ [39%N] ++ path ++ [39%N])).

(** A text in which no space is followed by a space. *)
Fixpoint no_double_space (s : pystr) : Prop :=
  match s with
  | a :: r =>
      match r with
      | b :: _ => ¬ (a = 32%N ∧ b = 32%N) ∧ no_double_space r
      | [] => True
      end
  | [] => True
  end.

(** A text that holds none of the line boundaries of [str.splitlines]. *)
Definition no_linebreak (s : pystr) : Prop :=
  Forall (λ c, is_linebreak c = false) s.

(** A compact text: no two spaces in a row, no line boundary, no white
    space at either end. *)
Definition compact (s : pystr) : Prop :=
  no_double_space s ∧ no_linebreak s ∧ strip s = s.

(** Queries on the events of a trace. *)
Definition is_goto (ev : event) : bool :=
  match ev with Goto _ _ => true | _ => false end.

Definition is_post (ev : event) : bool :=
  match ev with Post _ _ _ => true | _ => false end.

Definition count_events (which : event → bool) (tr : list event) : nat :=
  length (filter (λ ev, which ev = true) tr).

(** ** [json.dump] with [indent=2]

    The data handed to [json.dump] by this program: [None], booleans,
    integers, strings, lists and dictionaries with string keys (a
    dictionary is the list of its items, in insertion order). *)

Inductive pyval : Type :=
| PNone
| PBool (b : bool)
| PInt (z : Z)
| PStr (s : pystr)
| PList (items : list pyval)
| PDict (items : list (pystr * pyval)).

Definition hex_digit (d : N) : N :=
  if (d <? 10)%N then (48 + d)%N else (87 + d)%N.

(** [format(n, '04x')] for [n] below 65536. *)
Definition hex4 (n : N) : pystr :=
  [ hex_digit (n / 4096 mod 16); hex_digit (n / 256 mod 16);
    hex_digit (n / 16 mod 16); hex_digit (n mod 16) ]%N.

(** The replacement of one code point in a string literal. The quotation
    mark, the backslash and the control characters are always escaped;
    with [ensure_ascii] so is every code point outside [ ' ' .. '~' ],
    beyond the basic plane as a pair of surrogates. *)
Definition escape_char (ensure_ascii : bool) (c : N) : pystr :=
  if (c =? 34)%N then [92; 34]%N
  else if (c =? 92)%N then [92; 92]%N
  else if (c =? 10)%N then [92; 110]%N
  else if (c =? 13)%N then [92; 114]%N
  else if (c =? 9)%N then [92; 116]%N
  else if (c =? 8)%N then [92; 98]%N
  else if (c =? 12)%N then [92; 102]%N
  else if (c <? 32)%N then [92; 117]%N ++ hex4 c
  else if ensure_ascii && (126 <? c)%N then
    if (c <? 65536)%N then [92; 117]%N ++ hex4 c
    else
      let n := (c - 65536)%N in
      [92; 117]%N ++ hex4 (N.lor 55296 (N.land (N.shiftr n 10) 1023))
        ++ [92; 117]%N ++ hex4 (N.lor 56320 (N.land n 1023))
  else [c].

Definition encode_basestring (ensure_ascii : bool) (s : pystr) : pystr :=
  [34%N] ++ (s ≫= escape_char ensure_ascii) ++ [34%N].

(** A line feed and the indentation of a nesting level. *)
Definition newline_indent (level : nat) : pystr :=
  10%N :: replicate (2 * level) 32%N.

(** [json.dumps(v, indent=2, ensure_ascii=...)], at a nesting level. *)
Fixpoint json_dumps (ensure_ascii : bool) (level : nat) (v : pyval) : pystr :=
  match v with
  | PNone => py "null"
  | PBool true => py "true"
  | PBool false => py "false"
  | PInt z => py_str_int z
  | PStr s => encode_basestring ensure_ascii s
  | PList [] => py "[]"
  | PList items =>
      [91%N] ++ newline_indent (S level)
        ++ join (44%N :: newline_indent (S level))
             (json_dumps ensure_ascii (S level) <$> items)
        ++ newline_indent level ++ [93%N]
  | PDict [] => py "{}"
  | PDict members =>
      [123%N] ++ newline_indent (S level)
        ++ join (44%N :: newline_indent (S level))
             ((λ member : pystr * pyval,
                 encode_basestring ensure_ascii member.1 ++ py ": "
                   ++ json_dumps ensure_ascii (S level) member.2) <$> members)
        ++ newline_indent level ++ [125%N]
  end.

(** The value [json.loads] gives back for dumped data: in a dictionary a
    later item of the same key replaces an earlier one. *)
Fixpoint to_json (v : pyval) : json :=
  match v with
  | PNone => JNull
  | PBool b => JBool b
  | PInt z => JInt z
  | PStr s => JStr s
  | PList items => JArr (to_json <$> items)
  | PDict members =>
      JObj (foldl (λ acc (member : pystr * pyval),
                     <[member.1 := to_json member.2]> acc) ∅ members)
  end.

(** A code point that is no surrogate and lies inside the Unicode
    range: a string of such code points is a text that UTF-8 can hold. *)
Definition is_scalar (c : N) : Prop :=
  (c < 55296 ∨ 57343 < c ∧ c < 1114112)%N.

(** The number of nodes of a value, counting every item once more. *)
Fixpoint pyval_size (v : pyval) : nat :=
  match v with
  | PList items => S (sum_list ((λ x, S (pyval_size x)) <$> items))
  | PDict members =>
      S (sum_list ((λ member : pystr * pyval, S (pyval_size member.2)) <$> members))
  | _ => 1
  end.

(** The strings of a value, keys included, hold scalar code points only;
    asked of the data dumped with [ensure_ascii]. *)
Fixpoint scalar_strings (v : pyval) : Prop :=
  match v with
  | PStr s => Forall is_scalar s
  | PList items => foldr (λ x rest, scalar_strings x ∧ rest) True items
  | PDict members =>
      foldr (λ (member : pystr * pyval) rest,
               Forall is_scalar member.1 ∧ scalar_strings member.2 ∧ rest)
        True members
  | _ => True
  end.

(** What may follow a dumped value: nothing, a comma or a line feed. *)
Definition value_end (rest : pystr) : Prop :=
  ∀ c, head rest = Some c → c = 44%N ∨ c = 10%N.

(** How a dumped value begins: with a character that is no white space,
    closes no array or object and is no byte order mark. *)
Definition value_start (s : pystr) : Prop :=
  ∃ c r, s = c :: r ∧ is_json_ws c = false ∧
         c ≠ 93%N ∧ c ≠ 125%N ∧ c ≠ 65279%N.

(** The text of one item of a dictionary. *)
Definition member_text (ensure_ascii : bool) (inner : nat)
    (member : pystr * pyval) : pystr :=
  encode_basestring ensure_ascii member.1 ++ py ": "
    ++ json_dumps ensure_ascii inner member.2.

(** The scanner reads a dumped value back, whatever follows it. *)
Definition dumps_scanned (ensure_ascii : bool) (v : pyval) : Prop :=
  ∀ level rest f,
    pyval_size v ≤ f → value_end rest →
    (ensure_ascii = true → scalar_strings v) →
    scan_once f (json_dumps ensure_ascii level v ++ rest) = Some (to_json v, rest).

(** ** Text files

    [files] gives the text of every file that exists, with the line
    feeds the program wrote (they reach the file as they are, as on a
    POSIX system). [read_error] gives the exception that opening an
    existing file for reading, or decoding what it holds, raises.
    [write_failure] gives, for a path and a text, the exception that
    opening the file for writing or writing the text raises, along with
    the text the file is left with ([None] when it was not touched). *)

Record Disk : Type := mkDisk {
  files : gmap (list N) pystr;
  read_error : pystr → option exn;
  write_failure : pystr → pystr → option (exn * option pystr);
}.

Definition set_file (disk : Disk) (path text : pystr) : Disk :=
  {| files := <[path := text]> (files disk);
     read_error := read_error disk;
     write_failure := write_failure disk |}.

(** [os.path.exists] *)
Definition path_exists (disk : Disk) (path : pystr) : bool :=
  match files disk !! path with
  | Some _ => true
  | None => false
  end.

Definition file_not_found (path : pystr) : exn :=
  Exn "FileNotFoundError"
    (py "[Errno 2] No such file or directory: " ++ py_repr (JStr path)).

(** [open(path, 'r')] and what iterating over the file then sees, before
    its division into lines. *)
Definition open_for_reading (disk : Disk) (path : pystr) : exn + pystr :=
  match files disk !! path with
  | None => inl (file_not_found path)
  | Some text =>
      match read_error disk path with
      | Some e => inl e
      | None => inr text
      end
  end.

(** [f.read()] in text mode: a carriage return, alone or before a line
    feed, reads as a line feed. *)
Fixpoint universal_newlines (s : pystr) : pystr :=
  match s with
  | [] => []
  | c :: r =>
      if (c =? 13)%N then
        10%N ::
          match r with
          | c' :: r' =>
              if (c' =? 10)%N then universal_newlines r'
              else universal_newlines r
          | [] => universal_newlines r
          end
      else c :: universal_newlines r
  end.

Definition read_text (disk : Disk) (path : pystr) : exn + pystr :=
  match open_for_reading disk path with
  | inl e => inl e
  | inr text => inr (universal_newlines text)
  end.

(** [with open(path, 'w', ...) as f:] followed by the writing of [text]:
    the exception raised, if any, and the disk afterwards. *)
Definition write_text (disk : Disk) (path text : pystr) : option exn * Disk :=
  match write_failure disk path text with
  | None => (None, set_file disk path text)
  | Some (e, None) => (Some e, disk)
  | Some (e, Some partial) => (Some e, set_file disk path partial)
  end.

(** ** config.py: [ConfigManager]

    [Config_validate] is the validation pydantic runs when [Config] is
    called with the items of a dictionary as keyword arguments, and
    [home_config_path] the path
    [os.path.join(Path.home(), ".storage_scraper_config.json")]. The
    field [config] of a manager is [manager_config] here. *)

Variable Config_validate : gmap (list N) json → exn + Config.
Variable home_config_path : pystr.

Record ConfigManager : Type := mkConfigManager {
  config_path : pystr;
  manager_config : Config;
}.

(** [config.model_dump()]: the fields in the order of their declaration. *)
Definition model_dump (c : Config) : list (pystr * pyval) :=
  [ (py "ollama_model", PStr (ollama_model c));
    (py "ollama_base_url", PStr (ollama_base_url c));
    (py "max_retries", PInt (max_retries c));
    (py "timeout_seconds", PInt (timeout_seconds c));
    (py "user_agent", PStr (user_agent c)) ].

(** [Config] called with the items of [data] as keyword arguments: only
    a mapping can be unpacked. *)
Definition Config_from (data : json) : exn + Config :=
  match data with
  | JObj members => Config_validate members
  | _ =>
      inl (Exn "TypeError"
             (py "storage_scraper.config.Config() argument after ** must be a mapping, not "
                ++ py_type_name data))
  end.

(** [_save_config]: an exception is logged and goes no further. *)
Definition _save_config (path : pystr) (c : Config) (disk : Disk) : Disk :=
  (write_text disk path (json_dumps true 0 (PDict (model_dump c)))).2.

(** The [try] block of [_load_config]: [None] when it raises. *)
Definition load_attempt (path : pystr) (disk : Disk) : option Config :=
  match read_text disk path with
  | inl _ => None
  | inr text =>
      match json_loads text with
      | None => None
      | Some data =>
          match Config_from data with
          | inl _ => None
          | inr c => Some c
          end
      end
  end.

Definition _load_config (path : pystr) (disk : Disk) : Config * Disk :=
  let loaded :=
    if path_exists disk path then load_attempt path disk else None in
  match loaded with
  | Some c => (c, disk)
  | None =>
      let c := default_config in
      (c, _save_config path c disk)
  end.

(** [ConfigManager.__init__] *)
Definition ConfigManager_init (given_path : option pystr) (disk : Disk)
  : ConfigManager * Disk :=
  let path :=
    match given_path with
    | None => home_config_path
    | Some p => p
    end in
  let '(c, disk') := _load_config path disk in
  ({| config_path := path; manager_config := c |}, disk').

Definition get_config (self : ConfigManager) : Config := manager_config self.

(** [data[k] = v] on a dictionary: a key that is present keeps its
    place, a new one comes last. *)
Fixpoint dict_set (data : list (pystr * pyval)) (k : pystr) (v : pyval)
  : list (pystr * pyval) :=
  match data with
  | [] => [(k, v)]
  | (k', v') :: rest =>
      if decide (k' = k) then (k', v) :: rest
      else (k', v') :: dict_set rest k v
  end.

(** [data.update(kwargs)] *)
Definition dict_update (data kwargs : list (pystr * pyval))
  : list (pystr * pyval) :=
  foldl (λ d (item : pystr * pyval), dict_set d item.1 item.2) data kwargs.

(** [update_config]: an exception of the validation leaves the manager
    and the file as they were. *)
Definition update_config (self : ConfigManager) (kwargs : list (pystr * pyval))
    (disk : Disk) : (exn + ConfigManager) * Disk :=
  let data := dict_update (model_dump (manager_config self)) kwargs in
  match Config_from (to_json (PDict data)) with
  | inl e => (inl e, disk)
  | inr c =>
      (inr {| config_path := config_path self; manager_config := c |},
       _save_config (config_path self) c disk)
  end.

(** ** cli.py: the [config] command

    An option that was not given is [None]; the result holds the lines
    the command prints. *)

Record ConfigOptions : Type := mkConfigOptions {
  opt_model : option pystr;
  opt_base_url : option pystr;
  opt_timeout : option Z;
  opt_show : bool;
}.

Definition config_updates (opts : ConfigOptions) : list (pystr * pyval) :=
  let updates := [] in
  let updates :=
    match opt_model opts with
    | Some model =>
        if nonempty model
        then dict_set updates (py "ollama_model") (PStr model) else updates
    | None => updates
    end in
  let updates :=
    match opt_base_url opts with
    | Some base_url =>
        if nonempty base_url
        then dict_set updates (py "ollama_base_url") (PStr base_url) else updates
    | None => updates
    end in
  match opt_timeout opts with
  | Some timeout =>
      if (timeout =? 0)%Z then updates
      else dict_set updates (py "timeout_seconds") (PInt timeout)
  | None => updates
  end.

Definition config_command (opts : ConfigOptions) (disk : Disk)
  : (exn + list pystr) * Disk :=
  let '(config_manager, disk) := ConfigManager_init None disk in
  if opt_show opts then
    let current_config := get_config config_manager in
    (inr [ py "Current configuration:";
           py "  Ollama model: " ++ ollama_model current_config;
           py "  Ollama base URL: " ++ ollama_base_url current_config;
           py "  Timeout: " ++ py_str_int (timeout_seconds current_config) ++ py "s";
           py "  Max retries: " ++ py_str_int (max_retries current_config) ],
     disk)
  else
    match config_updates opts with
    | (_ :: _) as updates =>
        match update_config config_manager updates disk with
        | (inl e, disk) => (inl e, disk)
        | (inr _, disk) => (inr [py "Configuration updated successfully!"], disk)
        end
    | [] =>
        (inr [py "No configuration changes specified. Use --show to view current config."],
         disk)
    end.

(** ** exporter.py *)

(** [DataFrame(data).to_csv(output_path, index=False, encoding='utf-8')]
    of pandas, for the rows [data]. *)
Variable pandas_to_csv : list pyval → pystr → Disk → option exn * Disk.

Definition optional_str (o : option pystr) : pyval :=
  match o with
  | Some s => PStr s
  | None => PNone
  end.

(** The dictionary both exports build for a unit. *)
Definition unit_dict (unit : StorageUnit) : pyval :=
  PDict [ (py "url", PStr (unit_url unit));
          (py "size", PStr (size unit));
          (py "price", PStr (price unit));
          (py "raw_size", optional_str (raw_size unit));
          (py "raw_price", optional_str (raw_price unit)) ].

Definition result_dict (result : ScrapingResult) : pyval :=
  PDict [ (py "url", PStr (url result));
          (py "success", PBool (success result));
          (py "error", optional_str (error result));
          (py "units", PList (unit_dict <$> units result)) ].

Definition json_data (results : list ScrapingResult) : pyval :=
  PList (result_dict <$> results).

(** The loop of lines 39-42. *)
Definition all_units (results : list ScrapingResult) : list StorageUnit :=
  foldl (λ acc result, if success result then acc ++ units result else acc)
    [] results.

(** The row [csv.writer] writes for the header. *)
Definition csv_header : pystr :=
  py "url,size,price,raw_size,raw_price" ++ [13%N; 10%N].

(** Both exports give the exception they raise, if any: the [except]
    blocks log it and raise it again. *)
Definition export_to_csv (results : list ScrapingResult) (output_path : pystr)
    (disk : Disk) : option exn * Disk :=
  match all_units results with
  | [] => write_text disk output_path csv_header
  | (_ :: _) as found => pandas_to_csv (unit_dict <$> found) output_path disk
  end.

Definition export_to_json (results : list ScrapingResult) (output_path : pystr)
    (disk : Disk) : option exn * Disk :=
  write_text disk output_path (json_dumps false 0 (json_data results)).

(** ** cli.py: [run_scraper] and the [scrape] command *)

(** [s.lower()] as far as a comparison with [csv] or [json] goes: no
    code point outside ASCII has one of their letters in its lower case,
    so only the ASCII capitals matter. *)
Definition lower_ascii (s : pystr) : pystr :=
  (λ c, if ((65 <=? c) && (c <=? 90))%N then (c + 32)%N else c) <$> s.

(** What a run meets: the exception that starting Playwright or launching
    the browser raises, the one that closing them raises, the
    environments of the pipelines and the order in which they complete. *)
Record RunEnv : Type := mkRunEnv {
  launch_error : option exn;
  stop_error : option exn;
  pipelines : nat → PipelineEnv;
  completion : list nat;
}.

(** The numbers of the summary [run_scraper] logs. *)
Record Summary : Type := mkSummary {
  urls_processed : nat;
  successful : nat;
  failed_urls : Z;
  total_units : nat;
}.

Definition summary (urls : list pystr) (results : list ScrapingResult)
  : Summary :=
  let successful := length (filter (λ r, success r = true) results) in
  {| urls_processed := length urls;
     successful := successful;
     failed_urls := Z.of_nat (length urls) - Z.of_nat successful;
     total_units :=
       sum_list ((λ r, length (units r)) <$> filter (λ r, success r = true) results) |}.

(** Lines 66-71. *)
Definition export (results : list ScrapingResult)
    (output_file export_format : pystr) (disk : Disk) : option exn * Disk :=
  if decide (lower_ascii export_format = py "csv")
  then export_to_csv results output_file disk
  else if decide (lower_ascii export_format = py "json")
  then export_to_json results output_file disk
  else (Some (click_exception
                (py "Unsupported export format: " ++ export_format)), disk).

(** [run_scraper]. An exception of [scrape_urls] passes through
    [__aexit__], which may raise one of its own. *)
Definition run_scraper (env : RunEnv) (urls : list pystr)
    (output_file export_format : pystr) (disk : Disk)
  : outcome Summary * Disk :=
  let '(config_manager, disk) := ConfigManager_init None disk in
  let cfg := get_config config_manager in
  match launch_error env with
  | Some e => (Raises e, disk)
  | None =>
      let scraper := aenter (StorageScraper_init cfg) in
      match scrape_urls scraper (pipelines env) (completion env) urls with
      | Hangs => (Hangs, disk)
      | Raises e =>
          match stop_error env with
          | Some e' => (Raises e', disk)
          | None => (Raises e, disk)
          end
      | Returns results =>
          match stop_error env with
          | Some e' => (Raises e', disk)
          | None =>
              match export results output_file export_format disk with
              | (Some e, disk) => (Raises e, disk)
              | (None, disk) => (Returns (summary urls results), disk)
              end
          end
      end
  end.

(** How a command ends: it returns, leaves through [sys.exit], is
    stopped by an exception that click reports, or never ends. *)
Inductive Ending : Type :=
| Done
| SysExit (code : Z)
| Stopped (e : exn)
| NeverEnds.

(** The [scrape] command. Before its body runs, click checks the value
    of [--format] against [click.Choice] of [csv] and [json], letter case
    included, and leaves with status 2 when it is neither. *)
Definition scrape (env : RunEnv) (opts : ScrapeOptions) (disk : Disk)
  : Ending * Disk :=
  if decide (opt_export_format opts ∈ [py "csv"; py "json"]) then
    match collect_urls (open_for_reading disk) opts with
    | inl e => (Stopped e, disk)
    | inr all_urls =>
        match run_scraper env (unique_urls all_urls) (opt_output opts)
                (opt_export_format opts) disk with
        | (Returns _, disk) => (Done, disk)
        | (Raises _, disk) => (SysExit 1, disk)
        | (Hangs, disk) => (NeverEnds, disk)
        end
    end
  else (SysExit 2, disk).

(** ** Readings used to state the properties of files and commands *)

(** Pydantic gives back a configuration from its own dump. *)
Definition accepts_own_dump : Prop :=
  ∀ c, Config_from (to_json (PDict (model_dump c))) = inr c.

(** The strings of a configuration hold scalar code points only. *)
Definition scalar_config (c : Config) : Prop :=
  Forall is_scalar (ollama_model c) ∧ Forall is_scalar (ollama_base_url c) ∧
  Forall is_scalar (user_agent c).

(** The configuration the options of the [config] command ask for. *)
Definition apply_options (opts : ConfigOptions) (c : Config) : Config :=
  {| ollama_model :=
       match opt_model opts with
       | Some model => if nonempty model then model else ollama_model c
       | None => ollama_model c
       end;
     ollama_base_url :=
       match opt_base_url opts with
       | Some base_url =>
           if nonempty base_url then base_url else ollama_base_url c
       | None => ollama_base_url c
       end;
     max_retries := max_retries c;
     timeout_seconds :=
       match opt_timeout opts with
       | Some timeout => if (timeout =? 0)%Z then timeout_seconds c else timeout
       | None => timeout_seconds c
       end;
     user_agent := user_agent c |}.

(** A validation that takes the five fields when they have the types of
    the model, a missing one from the defaults, and refuses the rest. *)
Definition strict_validate (members : gmap (list N) json) : exn + Config :=
  let str_field (name : pystr) (default : pystr) : option pystr :=
    match members !! name with
    | None => Some default
    | Some (JStr s) => Some s
    | Some _ => None
    end in
  let int_field (name : pystr) (default : Z) : option Z :=
    match members !! name with
    | None => Some default
    | Some (JInt z) => Some z
    | Some _ => None
    end in
  match str_field (py "ollama_model") (ollama_model default_config),
        str_field (py "ollama_base_url") (ollama_base_url default_config),
        int_field (py "max_retries") (max_retries default_config),
        int_field (py "timeout_seconds") (timeout_seconds default_config),
        str_field (py "user_agent") (user_agent default_config) with
  | Some m, Some b, Some r, Some t, Some u =>
      inr {| ollama_model := m; ollama_base_url := b; max_retries := r;
             timeout_seconds := t; user_agent := u |}
  | _, _, _, _, _ => inl (Exn "ValidationError" (py "validation error for Config"))
  end.

(** A disk without files on which every read and write succeeds. *)
Definition empty_disk : Disk :=
  {| files := ∅; read_error := λ _, None; write_failure := λ _ _, None |}.

(** ** Samples for the closed examples of files and commands *)

Definition sample_results : list ScrapingResult :=
  [ succeeded (py "https://a.example/units")
      [ {| unit_url := py "https://a.example/units";
           size := py "5x5"; price := py "$50/month";
           raw_size := Some (py "5x5"); raw_price := None |} ];
    failed (py "https://b.example/units") (py "Failed to load page: HTTP 404") ].

Definition sample_config : Config :=
  {| ollama_model := py "llama3";
     ollama_base_url := ollama_base_url default_config;
     max_retries := max_retries default_config;
     timeout_seconds := 60;
     user_agent := user_agent default_config |}.

Definition sample_home : pystr := py "/home/user/.storage_scraper_config.json".

(** A disk whose configuration file holds a JSON list. *)
Definition disk_with_list : Disk := set_file empty_disk sample_home (py "[1, 2]").

(** [--model llama3 --base-url '' --timeout 0] *)
Definition sample_config_options : ConfigOptions :=
  {| opt_model := Some (py "llama3"); opt_base_url := Some [];
     opt_timeout := Some 0%Z; opt_show := false |}.

(** Stands for pandas in the closed examples: the rows as one JSON text. *)
Definition rows_as_text (rows : list pyval) (path : pystr) (disk : Disk)
  : option exn * Disk :=
  write_text disk path (json_dumps false 0 (PList rows)).

Definition sample_run : RunEnv :=
  {| launch_error := None; stop_error := None;
     pipelines := sample_envs; completion := [1; 0] |}.


(** * Properties *)

(** ** Strings *)

Lemma lstrip_nil (s : pystr) :
  lstrip s = [] ↔ Forall (λ c, isspace c = true) s.
Proof.
  induction s as [|c s IH]; simpl.
  - split; [constructor | reflexivity].
  - destruct (isspace c) eqn:Hc.
    + rewrite IH. split; [by constructor | by inversion 1].
    + split; [discriminate | inversion 1; congruence].
Qed.

Lemma lstrip_head (s : pystr) c r : lstrip s = c :: r → isspace c = false.
Proof.
  induction s as [|a s IH]; simpl; [discriminate|].
  destruct (isspace a) eqn:Ha; [exact IH|].
  intros [= <- <-]. exact Ha.
Qed.

Lemma rstrip_nil (s : pystr) :
  rstrip s = [] ↔ Forall (λ c, isspace c = true) s.
Proof.
  unfold rstrip. rewrite <- (reverse_involutive s) at 2.
  rewrite Forall_reverse, <- lstrip_nil.
  split; intros H.
  - apply (f_equal reverse) in H. by rewrite reverse_involutive in H.
  - by rewrite H.
Qed.

Lemma strip_nil (s : pystr) :
  strip s = [] ↔ Forall (λ c, isspace c = true) s.
Proof.
  unfold strip. rewrite rstrip_nil. split.
  - intros H. destruct (lstrip s) as [|c r] eqn:E.
    + by apply lstrip_nil.
    + apply lstrip_head in E. inversion H; congruence.
  - intros H. apply lstrip_nil in H. rewrite H. constructor.
Qed.

Lemma strip_nonempty (s : pystr) :
  strip s ≠ [] ↔ ∃ c, c ∈ s ∧ isspace c = false.
Proof.
  rewrite strip_nil, <- Exists_exists.
  split.
  - intros H. apply not_Forall_Exists in H; [|apply _].
    eapply Exists_impl; [exact H|]. simpl. intros c Hc. by destruct (isspace c).
  - intros H HF. apply Exists_exists in H as (c & Hin & Hc).
    rewrite Forall_forall in HF. specialize (HF c Hin). congruence.
Qed.

(** ** The bracket search *)

Lemma upto_last_close_none (s : pystr) :
  93%N ∉ s → upto_last_close s = None.
Proof.
  induction s as [|c s IH]; [reflexivity|].
  intros Hnot. apply not_elem_of_cons in Hnot as [Hc Hs].
  simpl. rewrite (IH Hs).
  by destruct (N.eqb_spec c 93).
Qed.

Lemma upto_last_close_none_inv (s : pystr) :
  upto_last_close s = None → 93%N ∉ s.
Proof.
  induction s as [|c s IH]; simpl; intros E Hin.
  - by apply elem_of_nil in Hin.
  - destruct (upto_last_close s); [discriminate|].
    destruct (N.eqb_spec c 93); [discriminate|].
    apply elem_of_cons in Hin as [Hc|Hs]; [congruence|by apply IH].
Qed.

Lemma upto_last_close_app (mid post : pystr) :
  93%N ∉ post → upto_last_close (mid ++ 93%N :: post) = Some (mid ++ [93%N]).
Proof.
  intros Hpost. induction mid as [|c mid IH]; simpl.
  - by rewrite upto_last_close_none.
  - by rewrite IH.
Qed.

Lemma upto_last_close_some (s m : pystr) :
  upto_last_close s = Some m →
  ∃ mid post, s = mid ++ 93%N :: post ∧ m = mid ++ [93%N] ∧ 93%N ∉ post.
Proof.
  revert m. induction s as [|c s IH]; intros m; simpl; [discriminate|].
  destruct (upto_last_close s) as [m'|] eqn:E.
  - intros [= <-]. destruct (IH m' eq_refl) as (mid & post & -> & -> & Hp).
    by exists (c :: mid), post.
  - destruct (N.eqb_spec c 93) as [->|]; [|discriminate].
    intros [= <-]. exists [], s. split_and!; [done..|].
    by apply upto_last_close_none_inv.
Qed.

Lemma re_search_brackets_span (pre mid post : pystr) :
  91%N ∉ pre → 93%N ∉ post →
  re_search_brackets (pre ++ 91%N :: mid ++ 93%N :: post) = Some (91%N :: mid ++ [93%N]).
Proof.
  intros Hpre Hpost. induction pre as [|c pre IH]; simpl.
  - by rewrite upto_last_close_app.
  - apply not_elem_of_cons in Hpre as [Hc Hpre].
    destruct (N.eqb_spec c 91); [congruence|]. by apply IH.
Qed.

Lemma re_search_brackets_some (s m : pystr) :
  re_search_brackets s = Some m →
  ∃ pre mid post, s = pre ++ 91%N :: mid ++ 93%N :: post ∧
                  m = 91%N :: mid ++ [93%N] ∧ 93%N ∉ post.
Proof.
  induction s as [|c s IH]; simpl; [discriminate|].
  destruct (N.eqb_spec c 91) as [->|].
  - destruct (upto_last_close s) as [m'|] eqn:E.
    + intros [= <-]. apply upto_last_close_some in E as (mid & post & -> & -> & Hp).
      by exists [], mid, post.
    + intros H. destruct (IH H) as (pre & mid & post & -> & -> & Hp).
      by exists (91%N :: pre), mid, post.
  - intros H. destruct (IH H) as (pre & mid & post & -> & -> & Hp).
    by exists (c :: pre), mid, post.
Qed.

(** ** The loop over the decoded array *)

Lemma append_unit_spec (url : pystr) (acc : list StorageUnit) (item : json) :
  append_unit url acc item = acc ++ option_list (unit_of_item url item).
Proof.
  unfold append_unit, unit_of_item.
  destruct item; simpl; try by rewrite app_nil_r.
  destruct (members !! py "size"); simpl; [|by rewrite app_nil_r].
  destruct (members !! py "price"); simpl; [done|by rewrite app_nil_r].
Qed.

Lemma collect_units_from (url : pystr) (data : list json) (acc : list StorageUnit) :
  foldl (append_unit url) acc data = acc ++ omap (unit_of_item url) data.
Proof.
  revert acc. induction data as [|item data IH]; intros acc; simpl.
  - by rewrite app_nil_r.
  - rewrite IH, append_unit_spec, <- app_assoc. f_equal.
    by destruct (unit_of_item url item).
Qed.

Lemma collect_units_omap (url : pystr) (data : list json) :
  collect_units url data = omap (unit_of_item url) data.
Proof. unfold collect_units. by rewrite collect_units_from. Qed.

Lemma unit_of_item_some (url : pystr) (item : json) (u : StorageUnit) :
  unit_of_item url item = Some u →
  ∃ d sz pr, item = JObj d ∧ d !! py "size" = Some sz ∧ d !! py "price" = Some pr ∧
    unit_url u = url ∧ size u = strip (py_str sz) ∧ price u = strip (py_str pr) ∧
    raw_size u = Some (py_str (default sz (d !! py "raw_size"))) ∧
    raw_price u = Some (py_str (default pr (d !! py "raw_price"))).
Proof.
  destruct item as [| | | | | |d]; simpl; try discriminate.
  destruct (d !! py "size") as [sz|] eqn:Hs; simpl; [|discriminate].
  destruct (d !! py "price") as [pr|] eqn:Hp; simpl; [|discriminate].
  intros [= <-]. exists d, sz, pr. by rewrite Hs, Hp.
Qed.

Lemma parse_response_of_list (response url : pystr) (data : list json) :
  json_loads (json_payload response) = Some (JArr data) →
  _parse_ollama_response response url = omap (unit_of_item url) data.
Proof.
  intros H. unfold _parse_ollama_response. rewrite H. apply collect_units_omap.
Qed.

Lemma parse_response_not_list (response url : pystr) :
  (∀ data, json_loads (json_payload response) ≠ Some (JArr data)) →
  _parse_ollama_response response url = [].
Proof.
  intros H. unfold _parse_ollama_response.
  destruct (json_loads (json_payload response)) as [[]|]; try reflexivity.
  by destruct (H items).
Qed.

(** ** Response parsing *)

(** C7. The payload handed to the JSON decoder is the span from the first
    opening bracket to the last closing bracket of the response, newlines
    included; without such a span it is the whole trimmed response; a
    payload that decodes to a list gives the units of its elements; and
    the response [Here you go: [{"size":"5x5","price":"$50/month"}] thanks]
    gives exactly one unit, of size 5x5 and price $50/month. *)
Theorem parse_response_bracket_span :
  (∀ pre mid post : pystr,
     91%N ∉ pre → 93%N ∉ post →
     json_payload (pre ++ 91%N :: mid ++ 93%N :: post) = 91%N :: mid ++ [93%N]) ∧
  (∀ response : pystr,
     (∀ pre mid post, response ≠ pre ++ 91%N :: mid ++ 93%N :: post) →
     json_payload response = strip response) ∧
  (∀ (response url : pystr) (data : list json),
     json_loads (json_payload response) = Some (JArr data) →
     _parse_ollama_response response url = collect_units url data) ∧
  (∀ url : pystr,
     _parse_ollama_response
       (pyq "Here you go: [{'size':'5x5','price':'$50/month'}] thanks") url
     = [ {| unit_url := url; size := py "5x5"; price := py "$50/month";
            raw_size := Some (py "5x5"); raw_price := Some (py "$50/month") |} ]).
Proof.
  split_and!.
  - intros pre mid post Hpre Hpost. unfold json_payload.
    by rewrite re_search_brackets_span.
  - intros response Hnone. unfold json_payload.
    destruct (re_search_brackets response) as [m|] eqn:E; [|reflexivity].
    apply re_search_brackets_some in E as (pre & mid & post & -> & _).
    by destruct (Hnone pre mid post).
  - intros response url data H. unfold _parse_ollama_response. by rewrite H.
  - intros url. vm_compute. reflexivity.
Qed.

(** C8. Going through the decoded array, a unit is built for an element
    exactly when the element is an object with both a [size] and a [price]
    key; the units come in the order of their elements, carry the page URL,
    have the trimmed string forms of the two values as size and price, and
    take [raw_size] and [raw_price] from the keys of that name or, in their
    absence, from the string forms of size and price. *)
Theorem collect_units_accepts_keyed_objects (url : pystr) (data : list json) :
  collect_units url data = omap (unit_of_item url) data ∧
  (∀ item, is_Some (unit_of_item url item) ↔
           ∃ d, item = JObj d ∧ is_Some (d !! py "size") ∧ is_Some (d !! py "price")) ∧
  (∀ d sz pr,
     d !! py "size" = Some sz → d !! py "price" = Some pr →
     unit_of_item url (JObj d) =
       Some {| unit_url := url;
               size := strip (py_str sz);
               price := strip (py_str pr);
               raw_size := Some (py_str (match d !! py "raw_size" with
                                         | Some raw => raw
                                         | None => sz
                                         end));
               raw_price := Some (py_str (match d !! py "raw_price" with
                                          | Some raw => raw
                                          | None => pr
                                          end)) |}) ∧
  (∀ response, json_loads (json_payload response) = Some (JArr data) →
               _parse_ollama_response response url = omap (unit_of_item url) data).
Proof.
  split_and!.
  - apply collect_units_omap.
  - intros item. split.
    + intros [u Hu]. apply unit_of_item_some in Hu as (d & sz & pr & -> & Hs & Hp & _).
      exists d. by rewrite Hs, Hp.
    + intros (d & -> & [sz Hs] & [pr Hp]). simpl. rewrite Hs, Hp. simpl. eauto.
  - intros d sz pr Hs Hp. simpl. rewrite Hs, Hp. simpl.
    by destruct (d !! py "raw_size"), (d !! py "raw_price").
  - intros response H. by apply parse_response_of_list.
Qed.

(** ** HTML preprocessing *)

Lemma length_dots : length (py "...") = 3.
Proof. reflexivity. Qed.

(** C9. The cleaned text never has more than the budget plus three
    characters: when the whitespace-normalized text is longer than the
    budget it is cut to the budget and followed by the three dots, and
    when cleaning raises the raw HTML is cut to the budget. The prompt
    embeds that text, cleaned with the default budget of 8000, as its last
    line. *)
Theorem clean_html_length_bound (html_content : pystr) (max_chars : nat) :
  length (_clean_html_for_llm html_content max_chars) ≤ max_chars + 3 ∧
  (∀ text, bs4_get_text html_content = inr text →
           max_chars < length (normalize_whitespace text) →
           _clean_html_for_llm html_content max_chars
             = take max_chars (normalize_whitespace text) ++ py "..." ∧
           length (_clean_html_for_llm html_content max_chars) = max_chars + 3) ∧
  (∀ e, bs4_get_text html_content = inl e →
        _clean_html_for_llm html_content max_chars = take max_chars html_content ∧
        length (_clean_html_for_llm html_content max_chars) ≤ max_chars) ∧
  (∀ url, _create_extraction_prompt html_content url
          = prompt_head ++ url ++ py ":" ++ [10%N]
              ++ _clean_html_for_llm html_content 8000 ++ [10%N] ∧
          length (_clean_html_for_llm html_content 8000) ≤ 8003).
Proof.
  assert (Hcut : ∀ text, max_chars < length text →
                   length (take max_chars text ++ py "...") = max_chars + 3).
  { intros text Hlt. rewrite length_app, length_take, length_dots. lia. }
  assert (Hbound : ∀ n, length (_clean_html_for_llm html_content n) ≤ n + 3).
  { intros n. unfold _clean_html_for_llm.
    destruct (bs4_get_text html_content) as [e|text].
    - rewrite length_take. lia.
    - destruct (Nat.ltb_spec n (length (normalize_whitespace text))).
      + rewrite length_app, length_take, length_dots. lia.
      + lia. }
  split_and!.
  - apply Hbound.
  - intros text Htext Hlong. unfold _clean_html_for_llm. rewrite Htext.
    destruct (Nat.ltb_spec max_chars (length (normalize_whitespace text))); [|lia].
    split; [reflexivity|]. by apply Hcut.
  - intros e He. unfold _clean_html_for_llm. rewrite He.
    split; [reflexivity|]. rewrite length_take. lia.
  - intros url. split; [reflexivity|]. apply (Hbound 8000).
Qed.

(** ** The per-URL pipeline *)

Ltac run_monad :=
  unfold run, try_except, bind, call, call_logged_on_return,
    returns_or_raises, raise, ret, post_outcome in *; cbn in *.

Lemma py_app_nonempty (a : ascii) (s : string) (rest : pystr) :
  py (String a s) ++ rest ≠ [].
Proof. discriminate. Qed.

Lemma extract_storage_data_returns (self : OllamaClient) (env : OllamaEnv)
    (html_content url : pystr) (tr : list event) :
  ∃ us tr', extract_storage_data self env html_content url tr = (inr us, tr') ∧
    (us = [] ∨
     ∃ body raw, post_result env = PostResponse 200 (BodyJson (JObj body)) ∧
       body !! py "response" = Some (JStr raw) ∧
       us = _parse_ollama_response (strip raw) url).
Proof.
  unfold extract_storage_data, _call_ollama. run_monad.
  destruct (session_result env); [by eauto 6|].
  destruct (post_result env) as [e|status body] eqn:Hpost; simpl; [by eauto 6|].
  destruct (Z.eqb_spec status 200) as [->|]; [|by eauto 6].
  destruct body as [e|[]]; simpl; try (by eauto 6).
  destruct (members !! py "response") as [[]|] eqn:Hresp; simpl; try (by eauto 6).
  destruct (nonempty (strip s)); [|by eauto 6].
  do 2 eexists. split; [reflexivity|]. right. by exists members, s.
Qed.

Lemma failed_invariant (u msg : pystr) :
  msg ≠ [] → result_invariant (failed u msg).
Proof.
  intros Hmsg. unfold result_invariant. simpl. split_and!.
  - split; [discriminate|reflexivity].
  - by intros ? [= <-].
  - reflexivity.
Qed.

Lemma succeeded_invariant (u : pystr) (us : list StorageUnit) :
  result_invariant (succeeded u us).
Proof.
  unfold result_invariant. simpl. split_and!.
  - split; [discriminate|by intros []].
  - discriminate.
  - discriminate.
Qed.

Ltac failed_result :=
  do 2 eexists; split; [reflexivity|];
  split_and!; [done | apply failed_invariant, py_app_nonempty | by left].

Lemma scrape_url_returns (self : StorageScraper) (env : PipelineEnv)
    (u : pystr) (tr : list event) :
  ∃ r tr', _scrape_url self env u tr = (inr r, tr') ∧ url r = u ∧
    result_invariant r ∧
    (units r = [] ∨
     ∃ body raw,
       post_result (ollama_env env) = PostResponse 200 (BodyJson (JObj body)) ∧
       body !! py "response" = Some (JStr raw) ∧
       units r = _parse_ollama_response (strip raw) u).
Proof.
  unfold _scrape_url. run_monad.
  destruct (browser self); [|failed_result].
  destruct (new_page_result (page_env env)); [failed_result|].
  destruct (set_headers_result (page_env env)); [failed_result|].
  destruct (goto_result (page_env env)) as [e|response]; [failed_result|].
  destruct (load_failed response).
  { destruct (close_result (page_env env)); failed_result. }
  destruct (wait_result (page_env env)); [failed_result|].
  destruct (content_result (page_env env)) as [e|html]; [failed_result|].
  destruct (close_result (page_env env)); [failed_result|].
  destruct (extract_storage_data_returns (ollama_client self) (ollama_env env)
              html u ((((((tr ++ [NewPage]) ++
                [SetExtraHttpHeaders (user_agent (config self))]) ++
               [Goto u (timeout_seconds (config self) * 1000)]) ++
              [WaitForTimeout 2000]) ++ [Content]) ++ [ClosePage]))
    as (us & tr' & -> & Hus).
  destruct us as [|unit us].
  - do 2 eexists. split; [reflexivity|].
    split_and!; [done | apply succeeded_invariant | by left].
  - do 2 eexists. split; [reflexivity|].
    split_and!; [done | apply succeeded_invariant |].
    destruct Hus as [Hnil|Hparse]; [discriminate|by right].
Qed.

Lemma parse_response_elem (response url : pystr) (unit : StorageUnit) :
  unit ∈ _parse_ollama_response response url →
  ∃ data item, json_loads (json_payload response) = Some (JArr data) ∧
    item ∈ data ∧ unit_of_item url item = Some unit.
Proof.
  unfold _parse_ollama_response.
  destruct (json_loads (json_payload response)) as [[]|];
    try (by intros ?%elem_of_nil).
  rewrite collect_units_omap. intros (item & Hin & Hitem)%list_elem_of_omap.
  by exists items, item.
Qed.

(** C3, as the code has it. Every unit of a successful result was built
    from an element of the decoded answer that holds both a [size] and a
    [price] key (elements missing a key give no unit); its size and price
    are the trimmed string forms of the two values, and each is non-empty
    exactly when that string form has a character that is not
    whitespace. *)
Theorem units_built_from_keyed_elements (self : StorageScraper)
    (env : PipelineEnv) (u : pystr) (r : ScrapingResult) (tr : list event)
    (unit : StorageUnit) :
  run (_scrape_url self env u) = (inr r, tr) →
  success r = true →
  unit ∈ units r →
  ∃ body raw data d sz pr,
    post_result (ollama_env env) = PostResponse 200 (BodyJson (JObj body)) ∧
    body !! py "response" = Some (JStr raw) ∧
    json_loads (json_payload (strip raw)) = Some (JArr data) ∧
    JObj d ∈ data ∧ d !! py "size" = Some sz ∧ d !! py "price" = Some pr ∧
    size unit = strip (py_str sz) ∧ price unit = strip (py_str pr) ∧
    (size unit ≠ [] ↔ ∃ c, c ∈ py_str sz ∧ isspace c = false) ∧
    (price unit ≠ [] ↔ ∃ c, c ∈ py_str pr ∧ isspace c = false).
Proof.
  intros Hrun _ Hunit.
  destruct (scrape_url_returns self env u []) as (r' & tr' & Hr & _ & _ & Hunits).
  unfold run in Hrun. rewrite Hrun in Hr. injection Hr as <- <-.
  destruct Hunits as [Hnil|(body & raw & Hpost & Hresp & Hparse)].
  { rewrite Hnil in Hunit. by apply elem_of_nil in Hunit. }
  rewrite Hparse in Hunit.
  apply parse_response_elem in Hunit as (data & item & Hdata & Hin & Hitem).
  apply unit_of_item_some in Hitem
    as (d & sz & pr & -> & Hs & Hp & _ & Hsize & Hprice & _).
  exists body, raw, data, d, sz, pr.
  split_and!; try done.
  - rewrite Hsize. apply strip_nonempty.
  - rewrite Hprice. apply strip_nonempty.
Qed.

(** C4. When the page was fetched and the generation call fails (the
    request raises, as on a time-out or a transport failure, the status is
    not 200, or the answer does not decode to a JSON list), extraction
    returns the empty list without raising, and the result of the page is
    successful with no units. *)
Theorem extraction_failure_absorbed (self : StorageScraper) (env : PipelineEnv)
    (u html : pystr) :
  browser self ≠ None →
  fetch_succeeds (page_env env) html →
  extraction_fails (ollama_env env) →
  (∀ tr, ∃ tr', extract_storage_data (ollama_client self) (ollama_env env) html u tr
                = (inr [], tr')) ∧
  (∃ tr, run (_scrape_url self env u) = (inr (succeeded u []), tr)).
Proof.
  intros Hb (Hnew & Hhdr & (status & Hgoto & Hstatus) & Hwait & Hcontent & Hclose) Hfail.
  assert (Hextract : ∀ tr, ∃ tr',
            extract_storage_data (ollama_client self) (ollama_env env) html u tr
            = (inr [], tr')).
  { intros tr. unfold extract_storage_data, _call_ollama. run_monad.
    destruct (session_result (ollama_env env)); [by eauto|].
    destruct Hfail as [e He|st body He Hst|st body text He Hresp Hlist];
      rewrite He; cbn.
    - by eauto.
    - destruct (Z.eqb_spec st 200); [done|by eauto].
    - destruct (Z.eqb_spec st 200); [|by eauto].
      rewrite Hresp. cbn. destruct (nonempty (strip text)); [|by eauto].
      rewrite parse_response_not_list by done. by eauto. }
  split; [exact Hextract|].
  unfold _scrape_url. run_monad.
  destruct (browser self); [|done].
  rewrite Hnew, Hhdr, Hgoto. cbn.
  destruct (Z.leb_spec 400 status); [lia|].
  rewrite Hwait, Hcontent, Hclose. cbn.
  edestruct Hextract as (tr' & ->). by eauto.
Qed.

(** C5, at the failing path. When [page.goto] raises, the pipeline returns
    a failed result and the page it opened is never closed: the trace
    holds the opening of the page and no call of [page.close()]. *)
Theorem goto_raises_page_not_closed (self : StorageScraper) (env : PipelineEnv)
    (u : pystr) (e : exn) :
  browser self ≠ None →
  new_page_result (page_env env) = None →
  set_headers_result (page_env env) = None →
  goto_result (page_env env) = inl e →
  ∃ tr, run (_scrape_url self env u)
        = (inr (failed u (py "Scraping error: " ++ exn_msg e)), tr) ∧
        NewPage ∈ tr ∧ ClosePage ∉ tr.
Proof.
  intros Hb Hnew Hhdr Hgoto.
  unfold _scrape_url. run_monad.
  destruct (browser self); [|done].
  rewrite Hnew, Hhdr, Hgoto. cbn.
  eexists. split; [reflexivity|]. split.
  - apply elem_of_cons. by left.
  - rewrite !elem_of_cons, elem_of_nil. by intros [|[|[|]]].
Qed.


(** ** Gathering the tasks *)

Lemma complete_length {A} (tasks : list A) (slots : list (option A)) (i : nat) :
  length (complete tasks slots i) = length slots.
Proof.
  unfold complete. destruct (tasks !! i); [apply length_insert|reflexivity].
Qed.

Lemma foldl_complete_length {A} (tasks : list A) (completion : list nat)
    (slots : list (option A)) :
  length (foldl (complete tasks) slots completion) = length slots.
Proof.
  revert slots. induction completion as [|j c IH]; intros slots; simpl.
  - reflexivity.
  - by rewrite IH, complete_length.
Qed.

(** A filled slot holds the result of the task of its own position. *)
Lemma foldl_complete_sound {A} (tasks : list A) (completion : list nat)
    (slots : list (option A)) :
  (∀ i x, slots !! i = Some (Some x) → tasks !! i = Some x) →
  ∀ i x, foldl (complete tasks) slots completion !! i = Some (Some x) →
         tasks !! i = Some x.
Proof.
  revert slots. induction completion as [|j c IH]; intros slots Hslots; simpl.
  - exact Hslots.
  - apply IH. intros i x. unfold complete.
    destruct (tasks !! j) as [r|] eqn:Hj; [|apply Hslots].
    destruct (decide (j = i)) as [->|Hne].
    + intros Hi. apply list_lookup_insert_Some in Hi as [(_ & Hx & _)|(? & _)].
      * congruence.
      * done.
    + rewrite list_lookup_insert_ne by done. apply Hslots.
Qed.

Lemma foldl_complete_keeps {A} (tasks : list A) (completion : list nat)
    (slots : list (option A)) (i : nat) (x : A) :
  tasks !! i = Some x → slots !! i = Some (Some x) →
  foldl (complete tasks) slots completion !! i = Some (Some x).
Proof.
  intros Hx. revert slots. induction completion as [|j c IH]; intros slots Hi; simpl.
  - exact Hi.
  - apply IH. unfold complete.
    destruct (tasks !! j) as [r|] eqn:Hj; [|exact Hi].
    destruct (decide (j = i)) as [->|Hne].
    + rewrite list_lookup_insert_eq by (by eapply lookup_lt_Some). congruence.
    + by rewrite list_lookup_insert_ne.
Qed.

Lemma foldl_complete_fills {A} (tasks : list A) (completion : list nat)
    (slots : list (option A)) (i : nat) (x : A) :
  length slots = length tasks → i ∈ completion → tasks !! i = Some x →
  foldl (complete tasks) slots completion !! i = Some (Some x).
Proof.
  intros Hlen Hin Hx. revert slots Hlen.
  induction completion as [|j c IH]; intros slots Hlen; simpl.
  - by apply elem_of_nil in Hin.
  - apply elem_of_cons in Hin as [->|Hin].
    + apply foldl_complete_keeps; [done|]. unfold complete. rewrite Hx.
      apply list_lookup_insert_eq. rewrite Hlen. by eapply lookup_lt_Some.
    + apply IH; [done|]. by rewrite complete_length.
Qed.

(** Whatever the order of completion, what [gather] returns is the list
    of the results of the tasks, in the order of the tasks. *)
Lemma gather_inv {A} (tasks : list A) (completion : list nat) (results : list A) :
  gather tasks completion = Some results → results = tasks.
Proof.
  unfold gather. intros H%mapM_Some_1.
  assert (Hlen : length results = length tasks).
  { rewrite <- (Forall2_length _ _ _ H), foldl_complete_length.
    apply length_replicate. }
  apply list_eq. intros i.
  destruct (results !! i) as [r|] eqn:Hr.
  - destruct (Forall2_lookup_r _ _ _ _ _ H Hr) as (slot & Hslot & Heq).
    simpl in Heq. subst slot. symmetry.
    eapply foldl_complete_sound; [|exact Hslot].
    intros j x Hj. apply lookup_replicate in Hj as [? _]. done.
  - symmetry. apply lookup_ge_None. rewrite <- Hlen. by apply lookup_ge_None.
Qed.

Lemma gather_complete {A} (tasks : list A) (completion : list nat) :
  completion ≡ₚ seq 0 (length tasks) → gather tasks completion = Some tasks.
Proof.
  intros Hperm. unfold gather. apply mapM_Some_2.
  apply Forall2_same_length_lookup_2.
  - rewrite foldl_complete_length. apply length_replicate.
  - intros i slot r Hslot Hr. simpl.
    rewrite (foldl_complete_fills tasks completion _ i r) in Hslot.
    + congruence.
    + apply length_replicate.
    + rewrite Hperm. apply elem_of_seq. split; [lia|].
      simpl. by eapply lookup_lt_Some.
    + done.
Qed.

(** ** The final loop *)

Lemma finalize_from (urls : list pystr) (results : list (exn + ScrapingResult))
    (k : nat) (acc : list ScrapingResult) :
  (∀ i e, results !! i = Some (inl e) → is_Some (urls !! (k + i))) →
  ∃ final,
    foldl (finalize_step urls) (inr acc) (zip (seq k (length results)) results)
      = inr (acc ++ final) ∧
    length final = length results ∧
    ∀ i res, results !! i = Some res →
      ∃ r, final !! i = Some r ∧
           match res with
           | inr r' => r = r'
           | inl e => ∃ u, urls !! (k + i) = Some u ∧ r = failed u (exn_msg e)
           end.
Proof.
  revert k acc. induction results as [|res rest IH]; intros k acc Hurls; simpl.
  - exists []. rewrite app_nil_r. split_and!; [done..|]. intros i res Hi.
    by rewrite lookup_nil in Hi.
  - assert (Hrest : ∀ i e, rest !! i = Some (inl e) → is_Some (urls !! (S k + i))).
    { intros i e Hi. replace (S k + i) with (k + S i) by lia. by eapply Hurls. }
    destruct res as [e|r]; simpl.
    + destruct (Hurls 0 e eq_refl) as [u Hu]. rewrite Nat.add_0_r in Hu.
      rewrite Hu.
      destruct (IH (S k) (acc ++ [failed u (exn_msg e)]) Hrest)
        as (final & -> & Hlen & Hfinal).
      exists (failed u (exn_msg e) :: final). rewrite <- app_assoc.
      split_and!; [done|simpl; by rewrite Hlen|].
      intros [|i] res Hi; simpl in *.
      * injection Hi as <-. eexists. split; [done|]. exists u.
        by rewrite Nat.add_0_r.
      * replace (k + S i) with (S k + i) by lia. by apply Hfinal.
    + destruct (IH (S k) (acc ++ [r]) Hrest) as (final & -> & Hlen & Hfinal).
      exists (r :: final). rewrite <- app_assoc.
      split_and!; [done|simpl; by rewrite Hlen|].
      intros [|i] res Hi; simpl in *.
      * injection Hi as <-. by eexists.
      * replace (k + S i) with (S k + i) by lia. by apply Hfinal.
Qed.

(** ** The orchestrator *)

Lemma scrape_urls_returns (self : StorageScraper) (envs : nat → PipelineEnv)
    (completion : list nat) (urls : list pystr) (b : Browser) :
  browser self = Some b →
  gather (imap (λ i u, (run (_scrape_single_url self (envs i) u)).1) urls) completion
    ≠ None →
  ∃ results,
    scrape_urls self envs completion urls = Returns results ∧
    length results = length urls ∧
    ∀ i u, urls !! i = Some u →
      ∃ r, results !! i = Some r ∧ url r = u ∧ result_invariant r ∧
           (run (_scrape_url self (envs i) u)).1 = inr r.
Proof.
  intros Hb Hgather. unfold scrape_urls. rewrite Hb.
  set (tasks := imap _ urls) in *.
  destruct (gather tasks completion) as [results|] eqn:Hg; [|done].
  apply gather_inv in Hg as ->.
  assert (Htask : ∀ i u, urls !! i = Some u →
            ∃ r, tasks !! i = Some (inr r) ∧ url r = u ∧ result_invariant r ∧
                 (run (_scrape_url self (envs i) u)).1 = inr r).
  { intros i u Hu. unfold tasks. rewrite list_lookup_imap, Hu. simpl.
    unfold _scrape_single_url, run.
    destruct (scrape_url_returns self (envs i) u []) as (r & tr' & -> & Hr & Hinv & _).
    by exists r. }
  assert (Hlen : length tasks = length urls) by apply length_imap.
  destruct (finalize_from urls tasks 0 []) as (final & Hfinal & Hlenf & Hlookup).
  { intros i e Hi. simpl. apply lookup_lt_is_Some. rewrite <- Hlen.
    by eapply lookup_lt_Some. }
  unfold finalize. rewrite Hfinal. simpl. exists final.
  split_and!; [done|congruence|].
  intros i u Hu. destruct (Htask i u Hu) as (r & Hr & Hurl & Hinv & Hrun).
  destruct (Hlookup i _ Hr) as (r' & Hr' & ->). by exists r.
Qed.

(** C1. Called on an initialized scraper, with every pipeline completing
    once in any order, [scrape_urls] returns a list as long as the list of
    URLs whose result at each position is the result of the pipeline of
    the URL at that position and carries that URL. *)
Theorem scrape_urls_preserves_order (self : StorageScraper)
    (envs : nat → PipelineEnv) (completion : list nat) (urls : list pystr) :
  browser self ≠ None →
  completion ≡ₚ seq 0 (length urls) →
  ∃ results,
    scrape_urls self envs completion urls = Returns results ∧
    length results = length urls ∧
    ∀ i u, urls !! i = Some u →
      ∃ r, results !! i = Some r ∧ url r = u ∧
           (run (_scrape_url self (envs i) u)).1 = inr r.
Proof.
  intros Hb Hperm. destruct (browser self) as [b|] eqn:Hbrowser; [|done].
  destruct (scrape_urls_returns self envs completion urls b Hbrowser)
    as (results & Hres & Hlen & Hlookup).
  { rewrite gather_complete; [done|]. by rewrite length_imap. }
  exists results. split_and!; [done..|].
  intros i u Hu. destruct (Hlookup i u Hu) as (r & ? & ? & _ & ?). by exists r.
Qed.

(** C2. In every result of a run the error is present exactly when
    [success] is false, an error that is present is not the empty string,
    and a failed result has no units. *)
Theorem scrape_urls_results_invariant (self : StorageScraper)
    (envs : nat → PipelineEnv) (completion : list nat) (urls : list pystr)
    (results : list ScrapingResult) (r : ScrapingResult) :
  scrape_urls self envs completion urls = Returns results →
  r ∈ results →
  (success r = false ↔ error r ≠ None) ∧
  (∀ msg, error r = Some msg → msg ≠ []) ∧
  (success r = false → units r = []).
Proof.
  intros Hrun Hr.
  destruct (browser self) as [b|] eqn:Hb.
  2:{ unfold scrape_urls in Hrun. by rewrite Hb in Hrun. }
  destruct (scrape_urls_returns self envs completion urls b Hb)
    as (results' & Hres & Hlen & Hlookup).
  { intros Hnone. unfold scrape_urls in Hrun. by rewrite Hb, Hnone in Hrun. }
  rewrite Hrun in Hres. injection Hres as <-.
  apply list_elem_of_lookup in Hr as [i Hi].
  destruct (urls !! i) as [u|] eqn:Hu.
  - destruct (Hlookup i u Hu) as (r' & Hr' & _ & Hinv & _).
    rewrite Hi in Hr'. injection Hr' as <-. exact Hinv.
  - apply lookup_ge_None in Hu. apply lookup_lt_Some in Hi. lia.
Qed.

(** C10. Called before the scraper is initialized (no browser yet),
    [scrape_urls] raises the [RuntimeError] at once, whatever the URLs,
    and returns no list. *)
Theorem scrape_urls_uninitialized (self : StorageScraper)
    (envs : nat → PipelineEnv) (completion : list nat) (urls : list pystr) :
  browser self = None →
  scrape_urls self envs completion urls = Raises not_initialized ∧
  exn_class not_initialized = "RuntimeError"%string ∧
  ∀ results, scrape_urls self envs completion urls ≠ Returns results.
Proof.
  intros Hb. unfold scrape_urls. rewrite Hb. by split_and!.
Qed.

(** ** Further properties of the pipeline *)

Lemma extract_storage_data_extends (self : OllamaClient) (env : OllamaEnv)
    (html_content url : pystr) (tr : list event) :
  ∃ us more, extract_storage_data self env html_content url tr
             = (inr us, tr ++ more).
Proof.
  unfold extract_storage_data, _call_ollama. run_monad.
  destruct (session_result env); [by eauto|].
  rewrite <- app_assoc.
  destruct (post_result env) as [e|status body]; cbn; [by eauto|].
  destruct (Z.eqb_spec status 200); [|by eauto].
  destruct body as [e'|[]]; cbn; try (by eauto).
  destruct (members !! py "response") as [[]|]; cbn; try (by eauto).
  destruct (nonempty (strip s)); by eauto.
Qed.

(** X1. Every unit of a result carries the URL of that result. *)
Theorem units_carry_page_url (self : StorageScraper) (env : PipelineEnv)
    (u : pystr) (r : ScrapingResult) (tr : list event) (unit : StorageUnit) :
  run (_scrape_url self env u) = (inr r, tr) →
  unit ∈ units r →
  unit_url unit = url r.
Proof.
  intros Hrun Hunit.
  destruct (scrape_url_returns self env u []) as (r' & tr' & Hr & Hurl & _ & Hunits).
  unfold run in Hrun. rewrite Hrun in Hr. injection Hr as <- <-.
  destruct Hunits as [Hnil|(body & raw & _ & _ & Hparse)].
  { rewrite Hnil in Hunit. by apply elem_of_nil in Hunit. }
  rewrite Hparse in Hunit.
  apply parse_response_elem in Hunit as (data & item & _ & _ & Hitem).
  apply unit_of_item_some in Hitem as (d & sz & pr & _ & _ & _ & Hu & _).
  congruence.
Qed.

(** X2. A response that is no JSON at all gives no unit, and so does an
    array whose only element lacks the [price] key. *)
Theorem parse_response_tolerant (url : pystr) :
  _parse_ollama_response (py "not json at all") url = [] ∧
  _parse_ollama_response (pyq "[{'size':'5x5'}]") url = [].
Proof. split; vm_compute; reflexivity. Qed.

(** X3. When every browser call returns normally and navigation gives a
    response, whatever its status, the page that was opened is closed: the
    paths next to the [except] branch call [page.close()]. *)
Theorem page_closed_when_calls_return (self : StorageScraper) (env : PipelineEnv)
    (u : pystr) (status : Z) (html : pystr) :
  browser self ≠ None →
  new_page_result (page_env env) = None →
  set_headers_result (page_env env) = None →
  goto_result (page_env env) = inr (Some status) →
  wait_result (page_env env) = None →
  content_result (page_env env) = inr html →
  ∃ r tr, run (_scrape_url self env u) = (inr r, tr) ∧
          NewPage ∈ tr ∧ ClosePage ∈ tr.
Proof.
  intros Hb Hnew Hhdr Hgoto Hwait Hcontent.
  unfold _scrape_url. run_monad.
  destruct (browser self); [|done].
  rewrite Hnew, Hhdr, Hgoto. cbn.
  destruct (400 <=? status)%Z.
  - destruct (close_result (page_env env)); cbn; do 2 eexists;
      (split; [reflexivity|]); set_solver.
  - rewrite Hwait, Hcontent. cbn.
    destruct (close_result (page_env env)); cbn.
    { do 2 eexists. split; [reflexivity|]. set_solver. }
    edestruct (extract_storage_data_extends (ollama_client self) (ollama_env env))
      as (us & more & ->).
    destruct us; do 2 eexists; (split; [reflexivity|]); set_solver.
Qed.

Set Warnings "-clear-no-such-hyp".
Set Default Proof Using "Type".

(** Forgets the interpreter-side functions a statement does not mention,
    so that the solvers cannot pick them up. *)
Ltac unused_externals :=
  try clear pandas_to_csv; try clear home_config_path;
  try clear Config_validate; try clear bs4_get_text; try clear py_repr.

(** ** The command line: collecting the URLs *)

Lemma foldl_dedup_step (l : list pystr) (seen : gset (list N)) (unique : list pystr) :
  (foldl dedup_step (seen, unique) l).2 = unique ++ first_occurrences seen l.
Proof.
  revert seen unique. induction l as [|u l IH]; intros seen unique; simpl.
  - by rewrite app_nil_r.
  - unfold dedup_step at 2. simpl. destruct (decide (u ∈ seen)).
    + apply IH.
    + by rewrite IH, <- app_assoc.
Qed.

Lemma unique_urls_first_occurrences (l : list pystr) :
  unique_urls l = first_occurrences ∅ l.
Proof. unfold unique_urls. by rewrite foldl_dedup_step. Qed.

Lemma first_occurrences_elem (l : list pystr) (seen : gset (list N)) (u : pystr) :
  u ∈ first_occurrences seen l ↔ u ∈ l ∧ u ∉ seen.
Proof.
  unused_externals.
  revert seen. induction l as [|v l IH]; intros seen; simpl.
  - set_solver.
  - destruct (decide (v ∈ seen)).
    + rewrite IH. set_solver.
    + rewrite elem_of_cons, IH. destruct (decide (u = v)); set_solver.
Qed.

Lemma first_occurrences_NoDup (l : list pystr) (seen : gset (list N)) :
  NoDup (first_occurrences seen l).
Proof.
  unused_externals.
  revert seen. induction l as [|v l IH]; intros seen; simpl.
  - constructor.
  - destruct (decide (v ∈ seen)); [apply IH|].
    constructor; [|apply IH]. rewrite first_occurrences_elem. set_solver.
Qed.

Lemma first_occurrences_sublist (l : list pystr) (seen : gset (list N)) :
  sublist (first_occurrences seen l) l.
Proof.
  revert seen. induction l as [|v l IH]; intros seen; simpl.
  - constructor.
  - destruct (decide (v ∈ seen)).
    + by apply sublist_cons.
    + by apply sublist_skip.
Qed.

Lemma first_occurrences_app (l1 l2 : list pystr) (seen : gset (list N)) :
  first_occurrences seen (l1 ++ l2)
  = first_occurrences seen l1 ++ first_occurrences (list_to_set l1 ∪ seen) l2.
Proof.
  unused_externals.
  revert seen. induction l1 as [|v l1 IH]; intros seen; simpl.
  - by rewrite (left_id_L ∅ (∪)).
  - destruct (decide (v ∈ seen)).
    + rewrite IH. do 2 f_equal. set_solver.
    + rewrite IH. simpl. do 3 f_equal. set_solver.
Qed.

Lemma first_occurrences_id (l : list pystr) (seen : gset (list N)) :
  NoDup l → (∀ u, u ∈ l → u ∉ seen) → first_occurrences seen l = l.
Proof.
  unused_externals.
  intros Hnd. revert seen. induction Hnd as [|v l Hv Hnd IH]; intros seen Hseen; simpl.
  - reflexivity.
  - destruct (decide (v ∈ seen)) as [Hin|_].
    + destruct (Hseen v); [by left|done].
    + f_equal. apply IH. intros u Hu. specialize (Hseen u (list_elem_of_further _ _ _ Hu)).
      set_solver.
Qed.

(** X5. The loop of [scrape] that removes repeated URLs keeps every URL
    once, in the order of the first occurrences: its result has no
    repetition, holds exactly the URLs of its input, is a subsequence of
    the input, starts with what it gives for any beginning of the input,
    and is the input itself when the input has no repetition. *)
Theorem unique_urls_keeps_first_occurrences (all_urls more : list pystr) :
  NoDup (unique_urls all_urls) ∧
  (∀ u, u ∈ unique_urls all_urls ↔ u ∈ all_urls) ∧
  sublist (unique_urls all_urls) all_urls ∧
  unique_urls all_urls `prefix_of` unique_urls (all_urls ++ more) ∧
  (NoDup all_urls → unique_urls all_urls = all_urls) ∧
  unique_urls (unique_urls all_urls) = unique_urls all_urls.
Proof.
  unused_externals.
  rewrite !unique_urls_first_occurrences.
  assert (Hnd : NoDup (first_occurrences ∅ all_urls))
    by apply first_occurrences_NoDup.
  assert (Hid : ∀ l, NoDup l → first_occurrences ∅ l = l).
  { intros l Hl. apply first_occurrences_id; [done|]. set_solver. }
  split_and!.
  - exact Hnd.
  - intros u. rewrite first_occurrences_elem. set_solver.
  - apply first_occurrences_sublist.
  - rewrite first_occurrences_app. by eexists.
  - apply Hid.
  - by apply Hid.
Qed.

(** ** Trimming *)

Lemma lstrip_split (s : pystr) :
  ∃ pre, s = pre ++ lstrip s ∧ Forall (λ c, isspace c = true) pre.
Proof.
  induction s as [|c s (pre & Hs & Hpre)]; simpl.
  - by exists [].
  - destruct (isspace c) eqn:Hc.
    + exists (c :: pre). split; [by rewrite Hs at 1|by constructor].
    + by exists [].
Qed.

Lemma rstrip_split (s : pystr) :
  ∃ post, s = rstrip s ++ post ∧ Forall (λ c, isspace c = true) post.
Proof.
  unfold rstrip. destruct (lstrip_split (reverse s)) as (pre & Hs & Hpre).
  exists (reverse pre). split; [|by apply Forall_reverse].
  rewrite <- reverse_app, <- Hs. by rewrite reverse_involutive.
Qed.

Lemma rstrip_last (s : pystr) (c : N) :
  last (rstrip s) = Some c → isspace c = false.
Proof.
  unfold rstrip. rewrite last_reverse. destruct (lstrip (reverse s)) eqn:E; [done|].
  intros [= ->]. by eapply lstrip_head.
Qed.

Lemma strip_split (s : pystr) :
  ∃ pre post, s = pre ++ strip s ++ post ∧
    Forall (λ c, isspace c = true) pre ∧ Forall (λ c, isspace c = true) post.
Proof.
  unfold strip. destruct (lstrip_split s) as (pre & Hs & Hpre).
  destruct (rstrip_split (lstrip s)) as (post & Ht & Hpost).
  exists pre, post. split_and!; [|done..]. by rewrite <- Ht.
Qed.

Lemma strip_ends (s : pystr) :
  (∀ c, head (strip s) = Some c → isspace c = false) ∧
  (∀ c, last (strip s) = Some c → isspace c = false).
Proof.
  split; [|apply rstrip_last].
  intros c Hc. unfold strip in *.
  destruct (rstrip_split (lstrip s)) as (post & Ht & _).
  destruct (rstrip (lstrip s)) as [|c' r]; [done|]. injection Hc as ->.
  eapply lstrip_head. exact Ht.
Qed.

Lemma strip_fixed (t : pystr) :
  (∀ c, head t = Some c → isspace c = false) →
  (∀ c, last t = Some c → isspace c = false) →
  strip t = t.
Proof.
  intros Hhead Hlast.
  assert (Hl : ∀ x : pystr, (∀ c, head x = Some c → isspace c = false) → lstrip x = x).
  { intros [|c x] Hx; [done|]. simpl. by rewrite (Hx c eq_refl). }
  unfold strip, rstrip. rewrite (Hl t Hhead), Hl.
  - apply reverse_involutive.
  - intros c. rewrite head_reverse. apply Hlast.
Qed.

Lemma strip_idemp (s : pystr) : strip (strip s) = strip s.
Proof. destruct (strip_ends s). by apply strip_fixed. Qed.

Lemma lstrip_app (s x : pystr) :
  lstrip (s ++ x)
  = if decide (Forall (λ c, isspace c = true) s) then lstrip x else lstrip s ++ x.
Proof.
  induction s as [|c s IH].
  - destruct (decide (Forall (λ c, isspace c = true) [])) as [_|Hn]; [done|].
    destruct Hn. constructor.
  - change (lstrip ((c :: s) ++ x))
      with (if isspace c then lstrip (s ++ x) else c :: s ++ x).
    change (lstrip (c :: s)) with (if isspace c then lstrip s else c :: s).
    destruct (isspace c) eqn:Hc.
    + rewrite IH. destruct (decide (Forall _ s)) as [Hs|Hs];
        destruct (decide (Forall _ (c :: s))) as [Hcs|Hcs]; try done.
      * destruct Hcs. by constructor.
      * destruct Hs. by inversion Hcs.
    + destruct (decide (Forall _ (c :: s))) as [Hcs|Hcs]; [|done].
      inversion Hcs; congruence.
Qed.

Lemma strip_snoc_space (s : pystr) (c : N) :
  isspace c = true → strip (s ++ [c]) = strip s.
Proof.
  intros Hc. unfold strip. rewrite lstrip_app.
  destruct (decide (Forall _ s)) as [Hs|Hs].
  - simpl. rewrite Hc. apply lstrip_nil in Hs. by rewrite Hs.
  - unfold rstrip. rewrite reverse_snoc. simpl. by rewrite Hc.
Qed.

Lemma strip_Forall (P : N → Prop) (s : pystr) : Forall P s → Forall P (strip s).
Proof.
  destruct (strip_split s) as (pre & post & Hs & _). intros H.
  rewrite Hs in H. by apply Forall_app in H as [_ [? _]%Forall_app].
Qed.

(** ** Reading the URL file *)

Lemma filter_none {A} (P : A → Prop) `{!∀ x, Decision (P x)} (l : list A) :
  Forall (λ x, ¬ P x) l → filter P l = [].
Proof.
  induction 1 as [|x l Hx _ IH]; [done|]. by rewrite filter_cons_False.
Qed.

Lemma file_lines_from_shape (n : nat) (s cur : pystr) :
  length s ≤ n →
  Forall (λ c, c ≠ 10%N ∧ c ≠ 13%N) cur →
  Forall (λ line, ∃ body, (line = body ++ [10%N] ∨ line = body) ∧
                          Forall (λ c, c ≠ 10%N ∧ c ≠ 13%N) body)
    (file_lines_from cur s).
Proof.
  revert s cur. induction n as [|n IH]; intros s cur Hlen Hcur.
  - destruct s; [|simpl in Hlen; lia]. simpl.
    destruct cur; [constructor|]. constructor; [|constructor].
    eexists. split; [by right|]. by apply Forall_reverse.
  - destruct s as [|c r]; simpl.
    + destruct cur; [constructor|]. constructor; [|constructor].
      eexists. split; [by right|]. by apply Forall_reverse.
    + simpl in Hlen.
      assert (Hline : ∃ body, (reverse (10%N :: cur) = body ++ [10%N]
                               ∨ reverse (10%N :: cur) = body)
                              ∧ Forall (λ c, c ≠ 10%N ∧ c ≠ 13%N) body).
      { exists (reverse cur). split; [left; apply reverse_cons|].
        by apply Forall_reverse. }
      destruct (N.eqb_spec c 10).
      { constructor; [done|]. apply IH; [lia|constructor]. }
      destruct (N.eqb_spec c 13).
      { constructor; [done|]. destruct r as [|c' r'].
        - apply IH; [simpl; lia|constructor].
        - destruct (N.eqb_spec c' 10); (apply IH; [simpl in *; lia|constructor]). }
      apply IH; [lia|]. by constructor.
Qed.

Lemma file_line_strip (content line : pystr) :
  line ∈ file_lines content →
  Forall (λ c, c ≠ 10%N ∧ c ≠ 13%N) (strip line).
Proof.
  intros Hin.
  pose proof (file_lines_from_shape (length content) content [] (le_n _)
                (Forall_nil_2 _)) as Hshape.
  rewrite Forall_forall in Hshape.
  destruct (Hshape line Hin) as (body & [->| ->] & Hbody).
  - rewrite strip_snoc_space by done. by apply strip_Forall.
  - by apply strip_Forall.
Qed.

(** X6. When [read_urls_from_file] returns, the list is not empty and
    holds, in the order of the file, the trimmed text of every line that
    is not blank: each URL is non-empty, has no white space at either
    end and holds no line feed or carriage return. *)
Theorem read_urls_from_file_returns (open_file : pystr → exn + pystr)
    (file_path : pystr) (urls : list pystr) :
  read_urls_from_file open_file file_path = inr urls →
  urls ≠ [] ∧
  Forall (λ u, u ≠ [] ∧ strip u = u ∧ (10%N ∉ u) ∧ (13%N ∉ u)) urls ∧
  ∃ content, open_file file_path = inr content ∧
    urls = strip <$> filter (λ line, strip line ≠ []) (file_lines content).
Proof.
  unfold read_urls_from_file.
  destruct (open_file file_path) as [e|content]; simpl.
  { destruct (String.eqb _ _); discriminate. }
  set (kept := filter _ (file_lines content)).
  assert (Hkept : kept = filter (λ line, strip line ≠ []) (file_lines content)).
  { apply list_filter_iff. intros line. by destruct (strip line). }
  destruct (strip <$> kept) as [|u0 us] eqn:Hurls.
  { simpl. discriminate. }
  intros [= <-]. split; [done|]. rewrite <- Hurls. split.
  - apply Forall_fmap, Forall_forall. intros line Hline. simpl.
    rewrite Hkept in Hline. apply list_elem_of_filter in Hline as [Hne Hin].
    pose proof (file_line_strip content line Hin) as Hchars.
    rewrite Forall_forall in Hchars.
    split_and!; [done|apply strip_idemp|..]; intros Hc;
      by destruct (Hchars _ Hc).
  - exists content. by rewrite Hkept.
Qed.

(** X7. The failures of [read_urls_from_file] are all [ClickException]s:
    a missing file gives [File not found: <path>], any other failure of
    reading gives [Error reading file <path>: <cause>], and a file
    without a non-blank line gives
    [Error reading file <path>: No URLs found in <path>], because the
    exception raised for it is caught by the handler of the same [try]. *)
Theorem read_urls_from_file_errors (open_file : pystr → exn + pystr)
    (file_path : pystr) :
  (∀ e, open_file file_path = inl e →
        read_urls_from_file open_file file_path
        = inl (click_exception
                 (if String.eqb (exn_class e) "FileNotFoundError"
                  then py "File not found: " ++ file_path
                  else py "Error reading file " ++ file_path ++ py ": "
                         ++ exn_msg e))) ∧
  (∀ content, open_file file_path = inr content →
        Forall (λ line, strip line = []) (file_lines content) →
        read_urls_from_file open_file file_path
        = inl (click_exception
                 (py "Error reading file " ++ file_path ++ py ": "
                    ++ py "No URLs found in " ++ file_path))) ∧
  (∀ e, read_urls_from_file open_file file_path = inl e →
        exn_class e = "ClickException"%string).
Proof.
  unfold read_urls_from_file. split_and!.
  - intros e ->. by destruct (String.eqb _ _).
  - intros content -> Hblank.
    rewrite filter_none.
    + reflexivity.
    + eapply Forall_impl; [exact Hblank|]. simpl. intros line ->. discriminate.
  - intros e. destruct (open_file file_path) as [e'|content]; simpl.
    + destruct (String.eqb _ _); by intros [= <-].
    + destruct (strip <$> _); simpl; [|discriminate]. by intros [= <-].
Qed.

(** ** Whitespace clean-up of the page text *)

Lemma no_double_space_app (x y : pystr) :
  no_double_space x → no_double_space y →
  (last x = Some 32%N → head y ≠ Some 32%N) →
  no_double_space (x ++ y).
Proof.
  intros Hx Hy Hxy. induction x as [|a x IH]; [done|].
  destruct x as [|b x].
  - simpl in *. destruct y as [|c y]; [done|]. split; [|done].
    intros [-> ->]. by apply Hxy.
  - destruct Hx as [Hab Hx]. split; [done|]. apply IH; [done|].
    intros Hl. apply Hxy. by rewrite last_cons_cons.
Qed.

Lemma no_double_space_app_inv (x y : pystr) :
  no_double_space (x ++ y) → no_double_space x ∧ no_double_space y.
Proof.
  induction x as [|a x IH]; [done|]. intros H.
  destruct x as [|b x].
  - simpl in H. destruct y; [done|]. by destruct H.
  - destruct H as [Hab H]. destruct (IH H) as [Hx Hy]. by repeat split.
Qed.

Lemma strip_no_double_space (s : pystr) :
  no_double_space s → no_double_space (strip s).
Proof.
  destruct (strip_split s) as (pre & post & Hs & _). intros H.
  rewrite Hs in H. apply no_double_space_app_inv in H as [_ H].
  by apply no_double_space_app_inv in H as [H _].
Qed.

Lemma no_double_space_snoc (cur : pystr) (c : N) (s : pystr) :
  no_double_space (reverse cur) →
  (head cur = Some 32%N → head (c :: s) ≠ Some 32%N) →
  no_double_space (reverse (c :: cur)).
Proof.
  intros Hcur Hhead. rewrite reverse_cons.
  apply no_double_space_app; [done..|]. by rewrite last_reverse.
Qed.

Lemma split_two_spaces_from_cons (cur : pystr) (c : N) (r : pystr) :
  split_two_spaces_from cur (c :: r)
  = match r with
    | c' :: r' =>
        if ((c =? 32) && (c' =? 32))%N
        then reverse cur :: split_two_spaces_from [] r'
        else split_two_spaces_from (c :: cur) r
    | [] => split_two_spaces_from (c :: cur) r
    end.
Proof. by destruct r. Qed.

Lemma split_two_spaces_from_nds (n : nat) (s cur : pystr) :
  length s ≤ n →
  no_double_space (reverse cur) →
  (head cur = Some 32%N → head s ≠ Some 32%N) →
  Forall no_double_space (split_two_spaces_from cur s).
Proof.
  revert s cur. induction n as [|n IH]; intros s cur Hlen Hcur Hhead.
  { destruct s; [|simpl in Hlen; lia]. simpl. by repeat constructor. }
  destruct s as [|c r]; [by repeat constructor|].
  rewrite split_two_spaces_from_cons.
  simpl in Hlen. destruct r as [|c' r'].
  - simpl. repeat constructor. by eapply no_double_space_snoc.
  - destruct (N.eqb_spec c 32) as [->|Hc].
    + destruct (N.eqb_spec c' 32) as [->|Hc']; cbn [andb].
      * constructor; [done|]. apply IH; [simpl in Hlen; lia|done..].
      * apply IH; [lia|by eapply no_double_space_snoc|]. simpl. congruence.
    + cbn [andb]. apply IH; [lia|by eapply no_double_space_snoc|].
      simpl. congruence.
Qed.

Lemma split_two_spaces_from_Forall (P : N → Prop) (n : nat) (s cur : pystr) :
  length s ≤ n → Forall P cur → Forall P s →
  Forall (Forall P) (split_two_spaces_from cur s).
Proof.
  revert s cur. induction n as [|n IH]; intros s cur Hlen Hcur Hs.
  { destruct s; [|simpl in Hlen; lia]. simpl. repeat constructor.
    by apply Forall_reverse. }
  destruct s as [|c r].
  { simpl. repeat constructor. by apply Forall_reverse. }
  rewrite split_two_spaces_from_cons.
  simpl in Hlen. apply Forall_cons in Hs as [Hc Hr].
  destruct r as [|c' r'].
  - simpl. repeat constructor. apply Forall_reverse. by constructor.
  - destruct ((c =? 32)%N && (c' =? 32)%N).
    + constructor; [by apply Forall_reverse|].
      apply Forall_cons in Hr as [_ Hr']. apply IH; [simpl in Hlen; lia|done..].
    + apply IH; [lia|by constructor|done].
Qed.

Lemma splitlines_from_cons (cur : pystr) (c : N) (r : pystr) :
  splitlines_from cur (c :: r)
  = if is_linebreak c then
      reverse cur ::
        match r with
        | c' :: r' =>
            if ((c =? 13) && (c' =? 10))%N then splitlines_from [] r'
            else splitlines_from [] r
        | [] => splitlines_from [] r
        end
    else splitlines_from (c :: cur) r.
Proof. by destruct r. Qed.

Lemma splitlines_from_no_linebreak (n : nat) (s cur : pystr) :
  length s ≤ n → no_linebreak cur →
  Forall no_linebreak (splitlines_from cur s).
Proof.
  unfold no_linebreak.
  revert s cur. induction n as [|n IH]; intros s cur Hlen Hcur.
  { destruct s; [|simpl in Hlen; lia]. simpl.
    destruct cur; repeat constructor. by apply Forall_reverse. }
  destruct s as [|c r].
  { simpl. destruct cur; repeat constructor. by apply Forall_reverse. }
  rewrite splitlines_from_cons.
  simpl in Hlen. destruct (is_linebreak c) eqn:Hc.
  - constructor; [by apply Forall_reverse|].
    destruct r as [|c' r']; [apply IH; [simpl; lia|constructor]|].
    destruct ((c =? 13)%N && (c' =? 10)%N);
      (apply IH; [simpl in *; lia|constructor]).
  - apply IH; [lia|by constructor].
Qed.

Lemma strip_fixed_ends (t : pystr) :
  strip t = t →
  (∀ c, head t = Some c → isspace c = false) ∧
  (∀ c, last t = Some c → isspace c = false).
Proof. intros <-. apply strip_ends. Qed.

Lemma compact_nil : compact [].
Proof. split_and!; [exact I|constructor|reflexivity]. Qed.

Lemma join_space_compact (chunks : list pystr) :
  Forall (λ chunk, chunk ≠ [] ∧ compact chunk) chunks →
  compact (join (py " ") chunks) ∧
  (∀ first rest, chunks = first :: rest →
                 head (join (py " ") chunks) = head first).
Proof.
  change (py " ") with [32%N].
  induction 1 as [|p chunks [Hp (Hnds & Hnlb & Hstrip)] Hchunks IH].
  { split; [apply compact_nil|done]. }
  destruct (strip_fixed_ends p Hstrip) as [Hhead Hlast].
  destruct chunks as [|q ps].
  { simpl. split; [by split_and!|]. by intros ? ? [= <- <-]. }
  destruct IH as [(Hnds' & Hnlb' & Hstrip') Hfirst].
  specialize (Hfirst q ps eq_refl).
  apply Forall_cons in Hchunks as [[Hq (_ & _ & Hqstrip)] _].
  destruct (strip_fixed_ends q Hqstrip) as [Hqhead _].
  destruct (strip_fixed_ends _ Hstrip') as [_ Hlast'].
  change (join [32%N] (p :: q :: ps)) with (p ++ [32%N] ++ join [32%N] (q :: ps)).
  set (rest := join [32%N] (q :: ps)) in *.
  assert (Hrest : ∃ b rest', rest = b :: rest' ∧ isspace b = false).
  { destruct q as [|b q']; [done|]. destruct rest as [|b' rest']; [done|].
    simpl in Hfirst. injection Hfirst as ->. exists b, rest'.
    split; [done|]. by apply Hqhead. }
  destruct Hrest as (b & rest' & Hrest & Hb).
  split.
  - split_and!.
    + apply no_double_space_app; [done| |].
      * rewrite Hrest. simpl. rewrite Hrest in Hnds'. split; [|done].
        intros [_ ->]. done.
      * intros Hl. by specialize (Hlast _ Hl).
    + apply Forall_app. split; [done|]. by constructor.
    + apply strip_fixed.
      * intros c. destruct p as [|a p']; [done|]. simpl. intros [= <-].
        by apply Hhead.
      * intros c. rewrite Hrest. rewrite !last_app. simpl.
        rewrite last_cons. intros Hc. apply Hlast'. rewrite Hrest.
        rewrite last_cons. by destruct (last rest').
  - intros first rest0 [= <- <-]. by destruct p.
Qed.

Lemma normalize_whitespace_chunks (text chunk : pystr) :
  chunk ∈ (strip <$> splitlines text) ≫= (λ line, strip <$> split_two_spaces line) →
  compact chunk.
Proof.
  intros (line & Hchunk & Hline)%list_elem_of_bind.
  apply list_elem_of_fmap in Hline as (raw & -> & Hraw).
  apply list_elem_of_fmap in Hchunk as (piece & -> & Hpiece).
  pose proof (splitlines_from_no_linebreak (length text) text [] (le_n _)
                (Forall_nil_2 _)) as Hlines.
  rewrite Forall_forall in Hlines. specialize (Hlines raw Hraw).
  apply (strip_Forall _ raw) in Hlines.
  pose proof (split_two_spaces_from_Forall (λ c, is_linebreak c = false)
                (length (strip raw)) (strip raw) [] (le_n _) (Forall_nil_2 _) Hlines)
    as Hpieces.
  rewrite Forall_forall in Hpieces. specialize (Hpieces piece Hpiece).
  pose proof (split_two_spaces_from_nds (length (strip raw)) (strip raw) []
                (le_n _) I) as Hnds.
  rewrite Forall_forall in Hnds. specialize (Hnds (λ H, ltac:(done)) piece Hpiece).
  split_and!.
  - by apply strip_no_double_space.
  - by apply strip_Forall.
  - apply strip_idemp.
Qed.

(** X8. The whitespace clean-up of [_clean_html_for_llm] gives a compact
    text: it never holds two spaces in a row, holds none of the line
    boundaries (line feed, carriage return and the others of
    [splitlines]) and has no white space at either end. *)
Theorem normalize_whitespace_compact (text : pystr) :
  no_double_space (normalize_whitespace text) ∧
  no_linebreak (normalize_whitespace text) ∧
  strip (normalize_whitespace text) = normalize_whitespace text.
Proof.
  unfold normalize_whitespace. apply join_space_compact.
  apply Forall_forall. intros chunk [Hne Hin]%list_elem_of_filter.
  split; [by destruct chunk|]. by eapply normalize_whitespace_chunks.
Qed.

Lemma splitlines_from_unbroken (s cur : pystr) :
  no_linebreak s →
  splitlines_from cur s
  = match reverse cur ++ s with [] => [] | line => [line] end.
Proof.
  revert cur. induction s as [|c r IH]; intros cur Hs.
  - simpl. rewrite app_nil_r. destruct cur as [|a cur]; [done|].
    rewrite reverse_cons. by destruct (reverse cur).
  - apply Forall_cons in Hs as [Hc Hr].
    rewrite splitlines_from_cons, Hc, (IH _ Hr), reverse_cons.
    by rewrite <- app_assoc.
Qed.

Lemma split_two_spaces_from_unbroken (s cur : pystr) :
  no_double_space s → split_two_spaces_from cur s = [reverse cur ++ s].
Proof.
  revert cur. induction s as [|c r IH]; intros cur Hs.
  - simpl. by rewrite app_nil_r.
  - rewrite split_two_spaces_from_cons. destruct r as [|c' r'].
    + simpl. by rewrite reverse_cons.
    + destruct Hs as [Hcc Hr].
      assert (((c =? 32) && (c' =? 32))%N = false) as ->.
      { destruct (N.eqb_spec c 32), (N.eqb_spec c' 32); try done.
        by destruct Hcc. }
      rewrite (IH _ Hr), reverse_cons. by rewrite <- app_assoc.
Qed.

Lemma normalize_whitespace_fixed (t : pystr) :
  compact t → normalize_whitespace t = t.
Proof.
  intros (Hnds & Hnlb & Hstrip). unfold normalize_whitespace, splitlines.
  rewrite splitlines_from_unbroken by done. rewrite reverse_nil. simpl.
  destruct t as [|c t']; [done|].
  simpl fmap. rewrite Hstrip. simpl. rewrite app_nil_r.
  unfold split_two_spaces. rewrite split_two_spaces_from_unbroken by done.
  rewrite reverse_nil. simpl fmap. rewrite Hstrip. done.
Qed.

(** X9. The whitespace clean-up changes nothing in a text it has already
    cleaned. *)
Theorem normalize_whitespace_idempotent (text : pystr) :
  normalize_whitespace (normalize_whitespace text) = normalize_whitespace text.
Proof. apply normalize_whitespace_fixed, normalize_whitespace_compact. Qed.

(** ** The client of the generation endpoint *)

Lemma lstrip_char_split (ch : N) (s : pystr) :
  ∃ k, s = replicate k ch ++ lstrip_char ch s ∧
       head (lstrip_char ch s) ≠ Some ch.
Proof.
  induction s as [|c s (k & Hs & Hhead)]; simpl.
  - by exists 0.
  - destruct (N.eqb_spec c ch) as [->|Hc].
    + exists (S k). split; [simpl; by rewrite <- Hs|done].
    + exists 0. split; [done|]. simpl. congruence.
Qed.

(** X10. The base URL kept by the client is the configured URL without
    the slashes at its end, however many there are, so the address of a
    request is that URL followed by [/api/generate], with one slash
    between them. *)
Theorem base_url_without_trailing_slash (cfg : Config) :
  (∃ k, ollama_base_url cfg
        = base_url (OllamaClient_init cfg) ++ replicate k 47%N) ∧
  last (base_url (OllamaClient_init cfg)) ≠ Some 47%N ∧
  (∀ raw k, ollama_base_url cfg = raw ++ replicate k 47%N →
            last raw ≠ Some 47%N →
            base_url (OllamaClient_init cfg) = raw).
Proof.
  unfold OllamaClient_init, rstrip_char. simpl.
  destruct (lstrip_char_split 47 (reverse (ollama_base_url cfg)))
    as (k & Hs & Hhead).
  assert (Hurl : ollama_base_url cfg
                 = reverse (lstrip_char 47 (reverse (ollama_base_url cfg)))
                     ++ replicate k 47%N).
  { rewrite <- (reverse_involutive (ollama_base_url cfg)) at 1.
    rewrite Hs at 1. by rewrite reverse_app, reverse_replicate. }
  split_and!.
  - by exists k.
  - by rewrite last_reverse.
  - intros raw k' Hraw Hlast. rewrite Hraw, reverse_app, reverse_replicate.
    clear Hs Hurl Hhead Hraw. induction k' as [|k' IH]; simpl.
    + destruct (reverse raw) as [|c r] eqn:E.
      * by rewrite <- (reverse_involutive raw), E.
      * simpl. destruct (N.eqb_spec c 47) as [->|_].
        -- rewrite <- head_reverse, E in Hlast. done.
        -- by rewrite <- E, reverse_involutive.
    + exact IH.
Qed.

Lemma extract_storage_data_trace (self : OllamaClient) (env : OllamaEnv)
    (html_content url : pystr) (tr : list event) :
  ∃ us more,
    extract_storage_data self env html_content url tr = (inr us, tr ++ more) ∧
    (more = [SessionOpen] ∨
     more = [SessionOpen;
             Post (base_url self ++ py "/api/generate")
               (_create_extraction_prompt html_content url)
               (timeout_seconds (oc_config self))]).
Proof.
  unfold extract_storage_data, _call_ollama. run_monad.
  destruct (session_result env); [by eauto|].
  rewrite <- app_assoc.
  destruct (post_result env) as [e|status body]; cbn; [by eauto 6|].
  destruct (Z.eqb_spec status 200); [|by eauto 6].
  destruct body as [e'|[]]; cbn; try (by eauto 6).
  destruct (members !! py "response") as [[]|]; cbn; try (by eauto 6).
  destruct (nonempty (strip s)); by eauto 6.
Qed.

Lemma count_events_cons (which : event → bool) (ev : event) (tr : list event) :
  count_events which (ev :: tr)
  = (if which ev then 1 else 0) + count_events which tr.
Proof.
  unfold count_events. rewrite filter_cons.
  destruct (which ev); by destruct (decide _).
Qed.

Ltac trace_facts :=
  split_and!;
  [ rewrite ?count_events_cons; cbv [is_goto is_post count_events]; simpl; lia
  | rewrite ?count_events_cons; cbv [is_goto is_post count_events]; simpl; lia
  | let Hin := fresh "Hin" in
    intros ? ? Hin;
    repeat (apply elem_of_cons in Hin as [Hin|Hin];
            [first [discriminate | by injection Hin as -> ->]|]);
    by apply elem_of_nil in Hin
  | let Hin := fresh "Hin" in
    intros ? ? ? Hin;
    repeat (apply elem_of_cons in Hin as [Hin|Hin];
            [first [discriminate | by injection Hin as -> -> ->]|]);
    by apply elem_of_nil in Hin ].

(** X11. A per-URL pipeline never retries: whatever the page and the
    endpoint do and whatever [max_retries] is, it navigates at most once
    and sends at most one request to the endpoint; the navigation goes to
    the URL with the configured time-out in milliseconds, and the
    request goes to the base URL followed by [/api/generate] with the
    configured time-out. *)
Theorem pipeline_never_retries (self : StorageScraper) (env : PipelineEnv)
    (u : pystr) (r : ScrapingResult) (tr : list event) :
  run (_scrape_url self env u) = (inr r, tr) →
  count_events is_goto tr ≤ 1 ∧ count_events is_post tr ≤ 1 ∧
  (∀ target timeout, Goto target timeout ∈ tr →
     target = u ∧ timeout = (timeout_seconds (config self) * 1000)%Z) ∧
  (∀ endpoint prompt timeout, Post endpoint prompt timeout ∈ tr →
     endpoint = base_url (ollama_client self) ++ py "/api/generate" ∧
     timeout = timeout_seconds (oc_config (ollama_client self))).
Proof.
  unfold _scrape_url. run_monad.
  destruct (browser self); [|intros [= <- <-]; trace_facts].
  destruct (new_page_result (page_env env)); [intros [= <- <-]; trace_facts|].
  destruct (set_headers_result (page_env env)); [intros [= <- <-]; trace_facts|].
  destruct (goto_result (page_env env)) as [e|response];
    [intros [= <- <-]; trace_facts|].
  destruct (load_failed response).
  { destruct (close_result (page_env env)); intros [= <- <-]; trace_facts. }
  destruct (wait_result (page_env env)); [intros [= <- <-]; trace_facts|].
  destruct (content_result (page_env env)) as [e|html];
    [intros [= <- <-]; trace_facts|].
  destruct (close_result (page_env env)); [intros [= <- <-]; trace_facts|].
  edestruct (extract_storage_data_trace (ollama_client self) (ollama_env env))
    as (us & more & -> & Hmore).
  destruct Hmore as [->| ->]; destruct us; intros [= <- <-]; trace_facts.
Qed.

(** X12. What [_call_ollama] comes to: it returns [None] exactly when the
    endpoint answers with a status other than 200; it returns a text
    exactly when the answer is 200 with a JSON object whose [response] is
    a string (or is missing, which gives the empty text), and the text is
    trimmed; every exception raised on the way leaves it as the
    [TypeError] of the handler that names [aiohttp.ClientTimeout], so a
    failing request never makes it return [None]. *)
Theorem call_ollama_outcomes (self : OllamaClient) (env : OllamaEnv)
    (prompt : pystr) (tr : list event) :
  ((_call_ollama self env prompt tr).1 = inr None ↔
   ∃ status body, post_result env = PostResponse status body ∧ status ≠ 200%Z) ∧
  (∀ text, (_call_ollama self env prompt tr).1 = inr (Some text) ↔
     ∃ body, post_result env = PostResponse 200 (BodyJson (JObj body)) ∧
       (body !! py "response" = None ∧ text = [] ∨
        ∃ raw, body !! py "response" = Some (JStr raw) ∧ text = strip raw)) ∧
  (∀ e, (_call_ollama self env prompt tr).1 = inl e → e = catching_non_exception) ∧
  (∀ e, post_result env = PostRaises e →
        (_call_ollama self env prompt tr).1 = inl catching_non_exception).
Proof.
  unfold _call_ollama. run_monad.
  destruct (post_result env) as [e|status body]; cbn.
  { split_and!; [split; [done|by intros (? & ? & ? & _)]
                |intros text; split; [done|by intros (? & ? & _)]
                |by intros ? [= <-]|done]. }
  destruct (Z.eqb_spec status 200) as [->|Hstatus].
  2:{ split_and!; [split; [by eauto|done]
                  |intros text; split; [done|intros (? & [= ? _] & _); done]
                  |done..]. }
  destruct body as [e|data]; cbn.
  { split_and!; [split; [done|by intros (? & ? & [= <- _] & ?)]
                |intros text; split; [done|by intros (? & ? & _)]
                |by intros ? [= <-]|done]. }
  destruct data as [| | | | | |body]; cbn;
    try (split_and!; [split; [done|by intros (? & ? & [= <- _] & ?)]
                     |intros text; split; [done|by intros (? & ? & _)]
                     |by intros ? [= <-]|done]).
  destruct (body !! py "response") as [v|] eqn:Hresp; cbn.
  2:{ split_and!; [split; [done|by intros (? & ? & [= <- _] & ?)]
                  | |done..].
      intros text. split.
      - intros [= <-]. exists body. split; [done|]. by left.
      - intros (body' & [= <-] & [[_ ->]|(raw & Hraw & _)]); [done|congruence]. }
  destruct v as [| | | |raw| |]; cbn;
    try (split_and!; [split; [done|by intros (? & ? & [= <- _] & ?)]
                     | |by intros ? [= <-]|done];
         intros text; split; [done|];
         intros (body' & [= <-] & [[? _]|(raw & ? & _)]); congruence).
  split_and!; [split; [done|by intros (? & ? & [= <- _] & ?)]| |done..].
  intros text. split.
  - intros [= <-]. exists body. split; [done|]. right. by exists raw.
  - intros (body' & [= <-] & [[? _]|(raw' & ? & ->)]); congruence.
Qed.

(** ** When parsing gives nothing *)

(** X2. Parsing a response gives no unit exactly when its payload does
    not decode to a JSON list or no element of the list is an object with
    both a [size] and a [price] key. *)
Theorem parse_response_empty_iff (response url : pystr) :
  _parse_ollama_response response url = [] ↔
  ∀ data, json_loads (json_payload response) = Some (JArr data) →
    ∀ d, JObj d ∈ data → d !! py "size" = None ∨ d !! py "price" = None.
Proof.
  split.
  - intros Hnil data Hdata d Hd.
    rewrite (parse_response_of_list _ _ _ Hdata) in Hnil.
    destruct (d !! py "size") as [sz|] eqn:Hs; [|by left].
    destruct (d !! py "price") as [pr|] eqn:Hp; [|by right].
    assert (Hin : ∃ unit, unit ∈ omap (unit_of_item url) data).
    { eexists. apply list_elem_of_omap. exists (JObj d). split; [done|].
      simpl. by rewrite Hs, Hp. }
    destruct Hin as [unit Hin]. rewrite Hnil in Hin.
    by apply elem_of_nil in Hin.
  - intros Hall. unfold _parse_ollama_response.
    destruct (json_loads (json_payload response)) as [[]|]; try reflexivity.
    rewrite collect_units_omap.
    destruct (omap (unit_of_item url) items) as [|unit us] eqn:E; [done|].
    assert (Hin : unit ∈ omap (unit_of_item url) items) by (rewrite E; by left).
    apply list_elem_of_omap in Hin as (item & Hitem & Hu).
    apply unit_of_item_some in Hu as (d & sz & pr & -> & Hs & Hp & _).
    destruct (Hall items eq_refl d Hitem); congruence.
Qed.

(** ** Dumping and loading JSON *)

Lemma hex_val_hex_digit (d : N) : (d < 16)%N → hex_val (hex_digit d) = Some d.
Proof.
  intros Hd. rewrite <- (N2Nat.id d).
  assert (Hk : N.to_nat d < 16) by lia.
  generalize dependent (N.to_nat d). intros k Hk.
  do 16 (destruct k as [|k]; [reflexivity|]). lia.
Qed.

Lemma decode_hex4_hex4 (n : N) (r : pystr) :
  (n < 65536)%N → decode_hex4 (hex4 n ++ r) = Some (n, r).
Proof.
  intros Hn. unfold hex4, decode_hex4. simpl.
  rewrite !hex_val_hex_digit by (by apply N.mod_lt). simpl.
  do 2 f_equal.
  pose proof (N.div_mod n 4096 ltac:(done)).
  pose proof (N.div_mod n 256 ltac:(done)).
  pose proof (N.div_mod n 16 ltac:(done)).
  pose proof (N.mod_lt n 16 ltac:(done)).
  pose proof (N.div_mod (n / 4096) 16 ltac:(done)).
  pose proof (N.div_mod (n / 256) 16 ltac:(done)).
  pose proof (N.div_mod (n / 16) 16 ltac:(done)).
  pose proof (N.mod_lt (n / 4096) 16 ltac:(done)).
  pose proof (N.mod_lt (n / 256) 16 ltac:(done)).
  pose proof (N.mod_lt (n / 16) 16 ltac:(done)).
  assert (n / 4096 / 16 = 0)%N.
  { rewrite N.Div0.div_div. apply N.div_small. simpl. lia. }
  assert (n / 256 / 16 = n / 4096)%N by (by rewrite N.Div0.div_div).
  assert (n / 16 / 16 = n / 256)%N by (by rewrite N.Div0.div_div).
  lia.
Qed.

Lemma scanstring_u_plain (f : nat) (acc r1 r2 : pystr) (u : N) :
  decode_hex4 r1 = Some (u, r2) → is_high_surrogate u = false →
  scanstring (S f) acc (92%N :: 117%N :: r1) = scanstring f (u :: acc) r2.
Proof.
  intros Hdec Hu. cbn [scanstring N.eqb Pos.eqb]. rewrite Hdec. cbn [mbind option_bind].
  rewrite Hu. repeat case_match; reflexivity.
Qed.

Lemma scanstring_u_pair (f : nat) (acc r1 r3 r4 : pystr) (hi lo : N) :
  decode_hex4 r1 = Some (hi, 92%N :: 117%N :: r3) →
  is_high_surrogate hi = true →
  decode_hex4 r3 = Some (lo, r4) → is_low_surrogate lo = true →
  scanstring (S f) acc (92%N :: 117%N :: r1)
  = scanstring f ((65536 + (hi - 55296) * 1024 + (lo - 56320))%N :: acc) r4.
Proof.
  intros Hdec Hhi Hdec' Hlo. cbn [scanstring N.eqb Pos.eqb]. rewrite Hdec.
  cbn [mbind option_bind]. rewrite Hhi, Hdec'. cbn [mbind option_bind].
  by rewrite Hlo.
Qed.

Lemma surrogate_halves (c : N) :
  (65536 ≤ c)%N → (c < 1114112)%N →
  let n := (c - 65536)%N in
  let hi := N.lor 55296 (N.land (N.shiftr n 10) 1023) in
  let lo := N.lor 56320 (N.land n 1023) in
  (hi < 65536)%N ∧ (lo < 65536)%N ∧
  is_high_surrogate hi = true ∧ is_low_surrogate lo = true ∧
  (65536 + (hi - 55296) * 1024 + (lo - 56320))%N = c.
Proof.
  intros Hlow Hhigh n hi lo.
  assert (Hor : ∀ base y, N.land base 1023 = 0%N → (y < 1024)%N →
                  N.lor base y = (base + y)%N).
  { intros base y Hbase Hy.
    assert (Hland : N.land base y = 0%N).
    { rewrite <- (N.mod_small y 1024) by done.
      change 1024%N with (2 ^ 10)%N. rewrite <- N.land_ones.
      change (N.ones 10) with 1023%N.
      by rewrite (N.land_comm y), N.land_assoc, Hbase, N.land_0_l. }
    by rewrite <- N.lxor_lor, <- N.add_nocarry_lxor. }
  assert (Hn : (n < 1048576)%N) by (unfold n; lia).
  assert (Hq : N.land (N.shiftr n 10) 1023 = (n / 1024)%N).
  { rewrite N.shiftr_div_pow2. change (2 ^ 10)%N with 1024%N.
    change 1023%N with (N.ones 10). rewrite N.land_ones.
    apply N.mod_small. change (2 ^ 10)%N with 1024%N.
    apply N.Div0.div_lt_upper_bound. lia. }
  assert (Hr : N.land n 1023 = (n mod 1024)%N).
  { change 1023%N with (N.ones 10). by rewrite N.land_ones. }
  pose proof (N.div_mod n 1024 ltac:(done)) as Hdm.
  pose proof (N.mod_lt n 1024 ltac:(done)) as Hml.
  assert (Hql : (n / 1024 < 1024)%N) by (apply N.Div0.div_lt_upper_bound; lia).
  assert (Hhi : hi = (55296 + n / 1024)%N).
  { unfold hi. rewrite Hq. by apply Hor. }
  assert (Hlo : lo = (56320 + n mod 1024)%N).
  { unfold lo. rewrite Hr. by apply Hor. }
  unfold is_high_surrogate, is_low_surrogate. rewrite Hhi, Hlo.
  split_and!; try lia.
  all: apply andb_true_iff; split; apply N.leb_le; lia.
Qed.

Lemma scanstring_step (ensure_ascii : bool) (c : N) (acc r : pystr) (f : nat) :
  (ensure_ascii = true → is_scalar c) →
  scanstring (S f) acc (escape_char ensure_ascii c ++ r)
  = scanstring f (c :: acc) r.
Proof.
  intros Hvalid. unfold escape_char.
  destruct (N.eqb_spec c 34) as [->|H34]; [reflexivity|].
  destruct (N.eqb_spec c 92) as [->|H92]; [reflexivity|].
  destruct (N.eqb_spec c 10) as [->|H10]; [reflexivity|].
  destruct (N.eqb_spec c 13) as [->|H13]; [reflexivity|].
  destruct (N.eqb_spec c 9) as [->|H9]; [reflexivity|].
  destruct (N.eqb_spec c 8) as [->|H8]; [reflexivity|].
  destruct (N.eqb_spec c 12) as [->|H12]; [reflexivity|].
  assert (Hplain : (c < 55296)%N →
            scanstring (S f) acc (([92; 117]%N ++ hex4 c) ++ r)
            = scanstring f (c :: acc) r).
  { intros Hc. apply scanstring_u_plain.
    - apply decode_hex4_hex4. lia.
    - unfold is_high_surrogate. apply andb_false_iff. left. apply N.leb_gt. lia. }
  destruct (N.ltb_spec c 32) as [Hctl|Hctl]; [apply Hplain; lia|].
  destruct ensure_ascii; simpl andb.
  - destruct (N.ltb_spec 126 c) as [Hhigh|Hlow].
    + destruct (N.ltb_spec c 65536) as [Hbmp|Hastral].
      * destruct (Hvalid eq_refl) as [Hc|[Hc Hc']]; [by apply Hplain|].
        apply scanstring_u_plain.
        -- apply decode_hex4_hex4. lia.
        -- unfold is_high_surrogate. apply andb_false_iff. right.
           apply N.leb_gt. lia.
      * destruct (Hvalid eq_refl) as [Hc|[Hc Hc']]; [lia|].
        destruct (surrogate_halves c Hastral Hc') as (Hhi & Hlo & Hhs & Hls & Hc'').
        cbv zeta in *.
        rewrite <- Hc'' at 3.
        rewrite <- !app_assoc.
        eapply scanstring_u_pair; [|done| |done].
        -- by apply decode_hex4_hex4.
        -- by apply decode_hex4_hex4.
    + cbn [app scanstring].
      rewrite (proj2 (N.eqb_neq c 34)), (proj2 (N.eqb_neq c 92)) by done.
      by rewrite (proj2 (N.leb_gt c 31)) by lia.
  - cbn [app scanstring].
    rewrite (proj2 (N.eqb_neq c 34)), (proj2 (N.eqb_neq c 92)) by done.
    by rewrite (proj2 (N.leb_gt c 31)) by lia.
Qed.

Lemma scanstring_escaped (ensure_ascii : bool) (s acc rest : pystr) (f : nat) :
  (ensure_ascii = true → Forall is_scalar s) →
  length s < f →
  scanstring f acc ((s ≫= escape_char ensure_ascii) ++ 34%N :: rest)
  = Some (reverse acc ++ s, rest).
Proof.
  revert acc f. induction s as [|c s IH]; intros acc f Hvalid Hf.
  - destruct f; [simpl in Hf; lia|]. simpl. by rewrite app_nil_r.
  - destruct f as [|f]; [simpl in Hf; lia|]. simpl in Hf.
    change ((c :: s) ≫= escape_char ensure_ascii)
      with (escape_char ensure_ascii c ++ (s ≫= escape_char ensure_ascii)).
    rewrite <- app_assoc, scanstring_step.
    + rewrite IH; [|intros Hea; by eapply Forall_cons_1, Hvalid|lia].
      by rewrite reverse_cons, <- app_assoc.
    + intros Hea. by eapply Forall_cons_1, Hvalid.
Qed.

Lemma pyval_ind' (P : pyval → Prop) :
  P PNone → (∀ b, P (PBool b)) → (∀ z, P (PInt z)) → (∀ s, P (PStr s)) →
  (∀ items, Forall P items → P (PList items)) →
  (∀ members, Forall (λ member : pystr * pyval, P member.2) members →
              P (PDict members)) →
  ∀ v, P v.
Proof.
  intros Hnone Hbool Hint Hstr Hlist Hdict.
  fix IH 1. intros [|b|z|s|items|members].
  - exact Hnone.
  - apply Hbool.
  - apply Hint.
  - apply Hstr.
  - apply Hlist. induction items as [|x items IHitems]; constructor.
    + apply IH.
    + exact IHitems.
  - apply Hdict. induction members as [|[k x] members IHm]; constructor.
    + apply IH.
    + exact IHm.
Qed.

Lemma skip_ws_newline_indent (level : nat) (s : pystr) :
  skip_ws (newline_indent level ++ s) = skip_ws s.
Proof.
  unfold newline_indent. simpl.
  induction (level + (level + 0)) as [|n IH]; [done|]. exact IH.
Qed.

Lemma length_escaped (ensure_ascii : bool) (s : pystr) :
  length s ≤ length (s ≫= escape_char ensure_ascii).
Proof.
  induction s as [|c s IH]; [done|].
  change ((c :: s) ≫= escape_char ensure_ascii)
    with (escape_char ensure_ascii c ++ (s ≫= escape_char ensure_ascii)).
  rewrite length_app. simpl.
  assert (1 ≤ length (escape_char ensure_ascii c)); [|lia].
  unfold escape_char. repeat case_match; simpl; lia.
Qed.

Lemma scan_once_string (ensure_ascii : bool) (s rest : pystr) (f : nat) :
  (ensure_ascii = true → Forall is_scalar s) →
  scan_once (S f) (encode_basestring ensure_ascii s ++ rest)
  = Some (JStr s, rest).
Proof.
  intros Hs. unfold encode_basestring. rewrite <- !app_assoc.
  cbn [app scan_once N.eqb Pos.eqb].
  rewrite scanstring_escaped; [done|done|].
  rewrite length_app. pose proof (length_escaped ensure_ascii s). lia.
Qed.

Lemma py_String (c : ascii) (s : string) : py (String c s) = N_of_ascii c :: py s.
Proof. reflexivity. Qed.

Lemma uint_digits_Forall (d : Decimal.uint) :
  Forall (λ c, is_digit c = true) (py (NilEmpty.string_of_uint d)).
Proof. induction d; simpl NilEmpty.string_of_uint; rewrite ?py_String; by constructor. Qed.

Lemma take_digits_app (ds rest : pystr) :
  Forall (λ c, is_digit c = true) ds →
  (∀ c, head rest = Some c → is_digit c = false) →
  take_digits (ds ++ rest) = (ds, rest).
Proof.
  intros Hds Hrest. induction Hds as [|c ds Hc _ IH]; simpl.
  - destruct rest as [|c r]; [done|]. simpl. by rewrite (Hrest c).
  - by rewrite Hc, IH.
Qed.

Lemma digits_value_acc (d : Decimal.uint) (acc : positive) :
  foldl (λ acc d, (acc * 10 + (Z.of_N d - 48))%Z) (Z.pos acc)
    (py (NilEmpty.string_of_uint d))
  = Z.pos (Pos.of_uint_acc d acc).
Proof.
  revert acc. induction d; intros acc; simpl NilEmpty.string_of_uint;
    rewrite ?py_String; [done|..]; cbn [foldl Pos.of_uint_acc];
    rewrite <- IHd; f_equal;
    match goal with |- context [N_of_ascii ?a] =>
      let v := eval vm_compute in (N_of_ascii a) in change (N_of_ascii a) with v
    end; lia.
Qed.

Lemma digits_value_of_uint (d : Decimal.uint) :
  digits_value (py (NilEmpty.string_of_uint d)) = Z.of_N (Pos.of_uint d).
Proof.
  unfold digits_value.
  induction d; simpl NilEmpty.string_of_uint; rewrite ?py_String; [done|..];
    cbn [foldl Pos.of_uint]; [exact IHd|..]; apply (digits_value_acc d).
Qed.

Lemma nzhead_not_D0 (u v : Decimal.uint) : Decimal.nzhead u ≠ Decimal.D0 v.
Proof. induction u; simpl; congruence. Qed.

Lemma to_uint_head (p : positive) :
  ∃ c ds, py (NilEmpty.string_of_uint (Pos.to_uint p)) = c :: ds ∧
          ((49 <=? c) && (c <=? 57))%N = true ∧
          Forall (λ c, is_digit c = true) ds ∧
          digits_value (c :: ds) = Z.pos p.
Proof.
  pose proof (DecimalPos.Unsigned.to_of (Pos.to_uint p)) as Hnorm.
  rewrite DecimalPos.Unsigned.of_to in Hnorm. simpl N.to_uint in Hnorm.
  pose proof (digits_value_of_uint (Pos.to_uint p)) as Hval.
  rewrite DecimalPos.Unsigned.of_to in Hval.
  pose proof (uint_digits_Forall (Pos.to_uint p)) as Hall.
  pose proof (Unsigned.to_uint_nonnil p) as Hnil.
  pose proof (Unsigned.to_uint_nonzero p) as Hzero.
  destruct (Pos.to_uint p) as [|u|u|u|u|u|u|u|u|u|u]; [done|..];
    simpl NilEmpty.string_of_uint in *; rewrite ?py_String in *.
  { exfalso. unfold Decimal.unorm in Hnorm. simpl Decimal.nzhead in Hnorm.
    pose proof (nzhead_not_D0 u u) as Hnz.
    destruct (Decimal.nzhead u); congruence. }
  all: eexists _, _; split; [reflexivity|]; split; [reflexivity|];
       split; [by eapply Forall_cons_1|exact Hval].
Qed.

Lemma value_end_cases (rest : pystr) :
  value_end rest →
  rest = [] ∨ (∃ r, rest = [44%N] ∨ rest = [10%N] ∨
                   ∃ d, rest = 44%N :: d :: r ∨ rest = 10%N :: d :: r).
Proof.
  intros Hend. destruct rest as [|c [|d r]]; [by left|..]; right.
  - exists []. destruct (Hend c eq_refl) as [->| ->]; auto.
  - exists r. destruct (Hend c eq_refl) as [->| ->]; eauto.
Qed.

Lemma value_end_no_digit (rest : pystr) :
  value_end rest → ∀ c, head rest = Some c → is_digit c = false.
Proof. intros Hend c Hc. by destruct (Hend c Hc) as [->| ->]. Qed.

Lemma match_number_unsigned (c : N) (ds rest : pystr) :
  ((49 <=? c) && (c <=? 57))%N = true →
  Forall (λ c, is_digit c = true) ds → value_end rest →
  match_number ((c :: ds) ++ rest) = Some (JInt (digits_value (c :: ds)), rest).
Proof.
  intros Hc Hds Hend. unfold match_number. cbn [app].
  assert (Hminus : (c =? 45)%N = false).
  { apply N.eqb_neq. apply andb_true_iff in Hc as [Hc _].
    apply N.leb_le in Hc. lia. }
  rewrite Hminus, Hc, (take_digits_app ds rest Hds (value_end_no_digit _ Hend)).
  cbn [mbind option_bind].
  destruct (value_end_cases rest Hend) as [->|[r [->|[->|[d [->| ->]]]]]];
    reflexivity.
Qed.

Lemma match_number_negative (c : N) (ds rest : pystr) :
  ((49 <=? c) && (c <=? 57))%N = true →
  Forall (λ c, is_digit c = true) ds → value_end rest →
  match_number ((45%N :: c :: ds) ++ rest)
  = Some (JInt (- digits_value (c :: ds)), rest).
Proof.
  intros Hc Hds Hend. unfold match_number. cbn [app N.eqb Pos.eqb].
  rewrite Hc, (take_digits_app ds rest Hds (value_end_no_digit _ Hend)).
  cbn [mbind option_bind].
  destruct (value_end_cases rest Hend) as [->|[r [->|[->|[d [->| ->]]]]]];
    reflexivity.
Qed.

Lemma digit_cases (c : N) :
  is_digit c = true → c ∈ [48; 49; 50; 51; 52; 53; 54; 55; 56; 57]%N.
Proof.
  unused_externals.
  intros Hc. unfold is_digit in Hc. apply andb_true_iff in Hc as [Hlo Hhi].
  apply N.leb_le in Hlo, Hhi.
  assert (Hk : ∃ k, k < 10 ∧ c = (48 + N.of_nat k)%N).
  { exists (N.to_nat (c - 48)). lia. }
  destruct Hk as (k & Hk & ->).
  do 10 (destruct k as [|k]; [set_solver|]). lia.
Qed.

Lemma scan_once_number (f : nat) (c : N) (r : pystr) :
  is_digit c = true ∨ (c = 45%N ∧ ∃ d r', r = d :: r' ∧ is_digit d = true) →
  scan_once (S f) (c :: r) = match_number (c :: r).
Proof.
  intros [Hc|[-> (d & r' & -> & Hd)]].
  - apply digit_cases in Hc.
    repeat (apply elem_of_cons in Hc as [->|Hc]; [reflexivity|]).
    by apply elem_of_nil in Hc.
  - apply digit_cases in Hd.
    repeat (apply elem_of_cons in Hd as [->|Hd]; [reflexivity|]).
    by apply elem_of_nil in Hd.
Qed.

Lemma py_str_int_shape (z : Z) :
  z = 0%Z ∧ py_str_int z = [48%N] ∨
  ∃ c ds, ((49 <=? c) && (c <=? 57))%N = true ∧
          Forall (λ c, is_digit c = true) ds ∧
          (py_str_int z = c :: ds ∧ digits_value (c :: ds) = z ∨
           py_str_int z = 45%N :: c :: ds ∧ (- digits_value (c :: ds))%Z = z).
Proof.
  destruct z as [|p|p]; [by left|right..];
    destruct (to_uint_head p) as (c & ds & Heq & Hc & Hds & Hval);
    exists c, ds; split_and!; try done.
  - left. split; [|done]. unfold py_str_int. simpl Z.to_int.
    unfold NilZero.string_of_int, NilZero.string_of_uint.
    pose proof (Unsigned.to_uint_nonnil p).
    destruct (Pos.to_uint p); done.
  - right. split; [|by rewrite Hval]. unfold py_str_int. simpl Z.to_int.
    unfold NilZero.string_of_int, NilZero.string_of_uint.
    pose proof (Unsigned.to_uint_nonnil p).
    rewrite py_String. f_equal.
    destruct (Pos.to_uint p); done.
Qed.

Lemma scan_once_int (f : nat) (z : Z) (rest : pystr) :
  value_end rest →
  scan_once (S f) (py_str_int z ++ rest) = Some (JInt z, rest).
Proof.
  intros Hend.
  destruct (py_str_int_shape z) as [[-> ->]|(c & ds & Hc & Hds & [[-> Hz]|[-> Hz]])].
  - cbn [app]. rewrite scan_once_number by (by left).
    unfold match_number. cbn [N.eqb Pos.eqb andb N.leb N.compare Pos.compare Pos.compare_cont mbind option_bind].
    destruct (value_end_cases rest Hend) as [->|[r [->|[->|[d [->| ->]]]]]];
      reflexivity.
  - cbn [app]. rewrite scan_once_number.
    + by rewrite <- Hz, <- match_number_unsigned.
    + left. unfold is_digit. apply andb_true_iff in Hc as [Hlo Hhi].
      apply N.leb_le in Hlo. apply andb_true_iff. split; [apply N.leb_le; lia|done].
  - cbn [app]. rewrite scan_once_number.
    + by rewrite <- Hz, <- match_number_negative.
    + right. split; [done|]. exists c, (ds ++ rest). split; [done|].
      unfold is_digit. apply andb_true_iff in Hc as [Hlo Hhi].
      apply N.leb_le in Hlo. apply andb_true_iff. split; [apply N.leb_le; lia|done].
Qed.

Lemma value_start_app (s rest : pystr) : value_start s → value_start (s ++ rest).
Proof. intros (c & r & -> & H). by exists c, (r ++ rest). Qed.

Lemma skip_ws_value_start (s : pystr) : value_start s → skip_ws s = s.
Proof. intros (c & r & -> & Hc & _). simpl. by rewrite Hc. Qed.

Lemma json_dumps_start (ensure_ascii : bool) (level : nat) (v : pyval) :
  value_start (json_dumps ensure_ascii level v).
Proof.
  destruct v as [|[]|z|s|[|x items]|[|member members]];
    try (eexists _, _; split; [reflexivity|]; by split_and!).
  cbn [json_dumps].
  destruct (py_str_int_shape z) as [[-> ->]|(c & ds & Hc & Hds & [[-> Hz]|[-> Hz]])].
  - eexists _, _; split; [reflexivity|]; by split_and!.
  - apply andb_true_iff in Hc as [Hlo Hhi]. apply N.leb_le in Hlo, Hhi.
    eexists _, _; split; [reflexivity|].
    split_and!; [|lia..]. unfold is_json_ws.
    rewrite !orb_false_iff. split_and!; apply N.eqb_neq; lia.
  - eexists _, _; split; [reflexivity|]; by split_and!.
Qed.

Lemma join_cons_cons (sep a b : pystr) (l : list pystr) :
  join sep (a :: b :: l) = a ++ sep ++ join sep (b :: l).
Proof. reflexivity. Qed.

Lemma join_start (sep p : pystr) (ps : list pystr) :
  value_start p → value_start (join sep (p :: ps)).
Proof.
  intros Hp. destruct ps as [|q ps]; [done|].
  rewrite join_cons_cons. by apply value_start_app.
Qed.

Lemma parse_items_S (f : nat) (acc : list json) (s : pystr) :
  parse_items (S f) acc s
  = '(v, r) ← scan_once f s;
    match skip_ws r with
    | c :: r' =>
        if (c =? 93)%N then Some (JArr (reverse (v :: acc)), r')
        else if (c =? 44)%N then parse_items f (v :: acc) (skip_ws r')
        else None
    | [] => None
    end.
Proof. reflexivity. Qed.

Lemma parse_members_S (f : nat) (acc : gmap (list N) json) (r : pystr) :
  parse_members (S f) acc (34%N :: r)
  = '(k, r1) ← scanstring (S (length r)) [] r;
    match skip_ws r1 with
    | colon :: r2 =>
        if (colon =? 58)%N then
          '(v, r3) ← scan_once f (skip_ws r2);
          match skip_ws r3 with
          | c :: r4 =>
              if (c =? 125)%N then Some (JObj (<[k := v]> acc), r4)
              else if (c =? 44)%N
              then parse_members f (<[k := v]> acc) (skip_ws r4)
              else None
          | [] => None
          end
        else None
    | [] => None
    end.
Proof. reflexivity. Qed.

Lemma scan_once_array (f : nat) (r : pystr) :
  scan_once (S f) (91%N :: r)
  = match skip_ws r with
    | c' :: r' =>
        if (c' =? 93)%N then Some (JArr [], r')
        else parse_items f [] (c' :: r')
    | [] => None
    end.
Proof. reflexivity. Qed.

Lemma scan_once_object (f : nat) (r : pystr) :
  scan_once (S f) (123%N :: r)
  = match skip_ws r with
    | c' :: r' =>
        if (c' =? 125)%N then Some (JObj ∅, r')
        else parse_members f ∅ (c' :: r')
    | [] => None
    end.
Proof. reflexivity. Qed.

Lemma sum_list_fmap_cons {A} (g : A → nat) (x : A) (l : list A) :
  sum_list (g <$> x :: l) = g x + sum_list (g <$> l).
Proof. reflexivity. Qed.

Lemma value_end_newline (level : nat) (s : pystr) :
  value_end (newline_indent level ++ s).
Proof. intros c [= <-]. by right. Qed.

Lemma value_end_comma (s : pystr) : value_end (44%N :: s).
Proof. intros c [= <-]. by left. Qed.

Lemma parse_items_dumps (ensure_ascii : bool) (inner level : nat)
    (rest : pystr) (items : list pyval) :
  items ≠ [] → Forall (dumps_scanned ensure_ascii) items →
  ∀ acc f,
    sum_list ((λ x, S (pyval_size x)) <$> items) ≤ f →
    (ensure_ascii = true → scalar_strings (PList items)) →
    parse_items f acc
      (join (44%N :: newline_indent inner)
         (json_dumps ensure_ascii inner <$> items)
       ++ newline_indent level ++ 93%N :: rest)
    = Some (JArr (reverse acc ++ (to_json <$> items)), rest).
Proof.
  induction items as [|x items IH]; [done|]. intros _ Hall acc f Hsize Hsc.
  apply Forall_cons_1 in Hall as [Hx Hall].
  destruct f as [|f]; [simpl in Hsize; lia|].
  rewrite parse_items_S. destruct items as [|y more].
  - cbn [fmap list_fmap join]. simpl in Hsize.
    rewrite Hx; [|lia|apply value_end_newline|intros Hea; apply (Hsc Hea)].
    cbn [mbind option_bind]. rewrite skip_ws_newline_indent.
    change (skip_ws (93%N :: rest)) with (93%N :: rest).
    cbn [N.eqb Pos.eqb]. by rewrite reverse_cons.
  - rewrite !fmap_cons, join_cons_cons, <- !app_assoc.
    rewrite sum_list_fmap_cons in Hsize.
    rewrite Hx; [|lia|apply value_end_comma|intros Hea; apply (Hsc Hea)].
    cbn [mbind option_bind app].
    match goal with |- context [skip_ws (44%N :: ?r)] =>
      change (skip_ws (44%N :: r)) with (44%N :: r) end.
    cbn [N.eqb Pos.eqb].
    rewrite skip_ws_newline_indent, skip_ws_value_start.
    + rewrite <- fmap_cons, IH; [|done|done|lia|intros Hea; apply (Hsc Hea)].
      by rewrite reverse_cons, <- app_assoc.
    + apply value_start_app, join_start, json_dumps_start.
Qed.

Lemma member_text_start (ensure_ascii : bool) (inner : nat)
    (member : pystr * pyval) :
  value_start (member_text ensure_ascii inner member).
Proof. eexists _, _; split; [reflexivity|]; by split_and!. Qed.

Lemma parse_members_dumps (ensure_ascii : bool) (inner level : nat)
    (rest : pystr) (members : list (pystr * pyval)) :
  members ≠ [] →
  Forall (λ member, dumps_scanned ensure_ascii member.2) members →
  ∀ acc f,
    sum_list ((λ member : pystr * pyval, S (pyval_size member.2)) <$> members) ≤ f →
    (ensure_ascii = true → scalar_strings (PDict members)) →
    parse_members f acc
      (join (44%N :: newline_indent inner)
         (member_text ensure_ascii inner <$> members)
       ++ newline_indent level ++ 125%N :: rest)
    = Some (JObj (foldl (λ acc (member : pystr * pyval),
                           <[member.1 := to_json member.2]> acc) acc members),
            rest).
Proof.
  induction members as [|[k x] members IH]; [done|].
  intros _ Hall acc f Hsize Hsc.
  apply Forall_cons_1 in Hall as [Hx Hall]. simpl in Hx.
  destruct f as [|f]; [simpl in Hsize; lia|].
  rewrite sum_list_fmap_cons in Hsize. cbn [snd] in Hsize.
  assert (Hkey : ∀ tail,
    parse_members (S f) acc (member_text ensure_ascii inner (k, x) ++ tail)
    = '(v, r3) ← scan_once f (json_dumps ensure_ascii inner x ++ tail);
      match skip_ws r3 with
      | c :: r4 =>
          if (c =? 125)%N then Some (JObj (<[k := v]> acc), r4)
          else if (c =? 44)%N
          then parse_members f (<[k := v]> acc) (skip_ws r4)
          else None
      | [] => None
      end).
  { intros tail. unfold member_text, encode_basestring. cbn [fst snd].
    rewrite <- !app_assoc. cbn [app]. rewrite parse_members_S.
    rewrite scanstring_escaped;
      [|intros Hea; apply (Hsc Hea)
       |rewrite length_app; pose proof (length_escaped ensure_ascii k); lia].
    cbn [mbind option_bind reverse app].
    change (py ": ") with [58; 32]%N. cbn [app].
    match goal with |- context [skip_ws (58%N :: ?r)] =>
      change (skip_ws (58%N :: r)) with (58%N :: r) end.
    cbn [N.eqb Pos.eqb].
    match goal with |- context [skip_ws (32%N :: ?r)] =>
      change (skip_ws (32%N :: r)) with (skip_ws r) end.
    rewrite skip_ws_value_start; [done|].
    apply value_start_app, json_dumps_start. }
  destruct members as [|member more].
  - cbn [fmap list_fmap join]. rewrite Hkey.
    rewrite Hx; [|simpl in Hsize; lia|apply value_end_newline
                 |intros Hea; apply (Hsc Hea)].
    cbn [mbind option_bind]. rewrite skip_ws_newline_indent.
    change (skip_ws (125%N :: rest)) with (125%N :: rest).
    by cbn [N.eqb Pos.eqb].
  - rewrite !fmap_cons, join_cons_cons, <- !app_assoc, Hkey.
    rewrite Hx; [|lia|apply value_end_comma|intros Hea; apply (Hsc Hea)].
    cbn [mbind option_bind app].
    match goal with |- context [skip_ws (44%N :: ?r)] =>
      change (skip_ws (44%N :: r)) with (44%N :: r) end.
    cbn [N.eqb Pos.eqb].
    rewrite skip_ws_newline_indent, skip_ws_value_start.
    + rewrite <- fmap_cons, IH; [done|done|done|lia|intros Hea; apply (Hsc Hea)].
    + apply value_start_app, join_start, member_text_start.
Qed.

Lemma scan_once_dumps (ensure_ascii : bool) (v : pyval) :
  dumps_scanned ensure_ascii v.
Proof.
  induction v as [|b|z|s|items IH|members IH] using pyval_ind';
    intros level rest f Hsize Hend Hsc;
    (destruct f as [|f]; [simpl in Hsize; lia|]).
  - reflexivity.
  - by destruct b.
  - by apply scan_once_int.
  - by apply scan_once_string.
  - destruct items as [|x items]; [reflexivity|].
    cbn [json_dumps]. rewrite <- !app_assoc. cbn [app].
    rewrite scan_once_array, skip_ws_newline_indent.
    pose proof (value_start_app _ (newline_indent level ++ 93%N :: rest)
      (join_start (44%N :: newline_indent (S level)) _
         (json_dumps ensure_ascii (S level) <$> items)
         (json_dumps_start ensure_ascii (S level) x))) as Hstart.
    rewrite <- fmap_cons in Hstart.
    rewrite skip_ws_value_start by done.
    destruct Hstart as (c & r & Heq & _ & Hc & _). rewrite Heq.
    rewrite (proj2 (N.eqb_neq c 93) Hc), <- Heq.
    rewrite parse_items_dumps; [done|done|done| |done].
    simpl in Hsize. simpl. lia.
  - destruct members as [|member members]; [reflexivity|].
    cbn [json_dumps]. rewrite <- !app_assoc. cbn [app].
    rewrite scan_once_object, skip_ws_newline_indent.
    pose proof (value_start_app _ (newline_indent level ++ 125%N :: rest)
      (join_start (44%N :: newline_indent (S level)) _
         (member_text ensure_ascii (S level) <$> members)
         (member_text_start ensure_ascii (S level) member))) as Hstart.
    rewrite <- fmap_cons in Hstart.
    change (λ member0 : pystr * pyval,
              encode_basestring ensure_ascii member0.1 ++ py ": "
                ++ json_dumps ensure_ascii (S level) member0.2)
      with (member_text ensure_ascii (S level)).
    rewrite skip_ws_value_start by done.
    destruct Hstart as (c & r & Heq & _ & _ & Hc & _). rewrite Heq.
    rewrite (proj2 (N.eqb_neq c 125) Hc), <- Heq.
    rewrite parse_members_dumps; [done|done|done| |done].
    simpl in Hsize. simpl. lia.
Qed.

Lemma json_loads_scan (s : pystr) :
  json_loads s
  = '(v, r) ← scan_once (2 * length s + 2) (skip_ws s);
    match skip_ws r with
    | [] => Some v
    | _ => None
    end.
Proof.
  unfold json_loads. destruct s as [|c r]; [done|].
  repeat case_match; reflexivity.
Qed.

Lemma length_newline_indent (level : nat) :
  length (newline_indent level) = S (2 * level).
Proof. unfold newline_indent. cbn [length]. by rewrite length_replicate. Qed.

Lemma py_str_int_nonempty (z : Z) : 1 ≤ length (py_str_int z).
Proof.
  destruct (py_str_int_shape z) as [[_ ->]|(c & ds & _ & _ & [[-> _]|[-> _]])];
    simpl; lia.
Qed.

Lemma sizes_le_join (sep : pystr) (texts : list pystr) (sizes : list nat) :
  texts ≠ [] → 1 ≤ length sep →
  Forall2 (λ size text, size ≤ length text) sizes texts →
  sum_list (S <$> sizes) ≤ length (join sep texts) + 1.
Proof.
  intros Hne Hsep Hall. induction Hall as [|n t sizes texts Hn Hall IH]; [done|].
  destruct Hall as [|n' t' sizes texts Hn' Hall].
  - simpl. lia.
  - rewrite join_cons_cons, !length_app, sum_list_fmap_cons.
    specialize (IH ltac:(done)). lia.
Qed.

Lemma pyval_size_le_length (ensure_ascii : bool) (v : pyval) :
  ∀ level, pyval_size v ≤ length (json_dumps ensure_ascii level v).
Proof.
  induction v as [|b|z|s|items IH|members IH] using pyval_ind'; intros level.
  - vm_compute. lia.
  - destruct b; vm_compute; lia.
  - apply py_str_int_nonempty.
  - unfold json_dumps, encode_basestring. rewrite !length_app. simpl. lia.
  - destruct items as [|x items]; [vm_compute; lia|].
    cbn [json_dumps pyval_size]. rewrite !length_app, !length_newline_indent.
    cbn [length].
    pose proof (sizes_le_join (44%N :: newline_indent (S level))
      (json_dumps ensure_ascii (S level) <$> x :: items)
      (pyval_size <$> x :: items) ltac:(by rewrite fmap_cons)
      ltac:(simpl; lia)) as Hjoin.
    rewrite <- list_fmap_compose in Hjoin.
    etrans; [apply le_n_S, Hjoin|lia].
    apply Forall2_fmap, Forall_Forall2_diag.
    eapply Forall_impl; [exact IH|]. intros y Hy. apply Hy.
  - destruct members as [|member members]; [vm_compute; lia|].
    cbn [json_dumps pyval_size]. rewrite !length_app, !length_newline_indent.
    cbn [length].
    pose proof (sizes_le_join (44%N :: newline_indent (S level))
      (member_text ensure_ascii (S level) <$> member :: members)
      ((λ member : pystr * pyval, pyval_size member.2) <$> member :: members)
      ltac:(by rewrite fmap_cons) ltac:(simpl; lia)) as Hjoin.
    rewrite <- list_fmap_compose in Hjoin.
    etrans; [apply le_n_S, Hjoin|unfold member_text; lia].
    apply Forall2_fmap, Forall_Forall2_diag.
    eapply Forall_impl; [exact IH|]. intros [k y] Hy. unfold member_text.
    rewrite !length_app. specialize (Hy (S level)). simpl in *. lia.
Qed.

Theorem json_loads_dumps (ensure_ascii : bool) (v : pyval) :
  (ensure_ascii = true → scalar_strings v) →
  json_loads (json_dumps ensure_ascii 0 v) = Some (to_json v).
Proof.
  intros Hsc.
  rewrite json_loads_scan.
  rewrite skip_ws_value_start by apply json_dumps_start.
  rewrite <- (app_nil_r (json_dumps ensure_ascii 0 v)) at 2.
  rewrite scan_once_dumps; [done| |done|done].
  pose proof (pyval_size_le_length ensure_ascii v 0). lia.
Qed.

(** ** Files and configuration *)

Lemma hex_digit_no_cr (d : N) : hex_digit d ≠ 13%N.
Proof. unfold hex_digit. case_match; lia. Qed.

Lemma escape_char_no_cr (ensure_ascii : bool) (c : N) :
  Forall (λ ch, ch ≠ 13%N) (escape_char ensure_ascii c).
Proof.
  unfold escape_char, hex4.
  repeat (case_match; [repeat constructor; done|]).
  destruct (N.eqb_spec c 13) as [->|Hc]; [done|].
  repeat case_match; repeat constructor; try done; apply hex_digit_no_cr.
Qed.

Lemma Forall_join (P : N → Prop) (sep : pystr) (parts : list pystr) :
  Forall P sep → Forall (Forall P) parts → Forall P (join sep parts).
Proof.
  intros Hsep Hparts. induction Hparts as [|p ps Hp Hps IH]; [constructor|].
  destruct ps as [|q ps]; [done|].
  rewrite join_cons_cons. by rewrite !Forall_app.
Qed.

Lemma newline_indent_no_cr (level : nat) :
  Forall (λ ch, ch ≠ 13%N) (newline_indent level).
Proof.
  unfold newline_indent. constructor; [done|].
  apply Forall_replicate. done.
Qed.

Lemma encode_basestring_no_cr (ensure_ascii : bool) (s : pystr) :
  Forall (λ ch, ch ≠ 13%N) (encode_basestring ensure_ascii s).
Proof.
  unfold encode_basestring. rewrite !Forall_app. split_and!.
  - by repeat constructor.
  - induction s as [|c s IH]; [constructor|].
    change ((c :: s) ≫= escape_char ensure_ascii)
      with (escape_char ensure_ascii c ++ (s ≫= escape_char ensure_ascii)).
    apply Forall_app. split; [apply escape_char_no_cr|exact IH].
  - by repeat constructor.
Qed.

Lemma py_str_int_no_cr (z : Z) : Forall (λ ch, ch ≠ 13%N) (py_str_int z).
Proof.
  assert (Hdigits : ∀ ds, Forall (λ c, is_digit c = true) ds →
                          Forall (λ ch, ch ≠ 13%N) ds).
  { intros ds Hds. eapply Forall_impl; [exact Hds|]. by intros c Hc ->. }
  destruct (py_str_int_shape z) as [[_ ->]|(c & ds & Hc & Hds & [[-> _]|[-> _]])].
  - by repeat constructor.
  - constructor; [by intros ->|by apply Hdigits].
  - constructor; [done|]. constructor; [by intros ->|by apply Hdigits].
Qed.

Lemma json_dumps_no_cr (ensure_ascii : bool) (v : pyval) :
  ∀ level, Forall (λ ch, ch ≠ 13%N) (json_dumps ensure_ascii level v).
Proof.
  induction v as [|b|z|s|items IH|members IH] using pyval_ind'; intros level.
  - by repeat constructor.
  - by destruct b; repeat constructor.
  - apply py_str_int_no_cr.
  - apply encode_basestring_no_cr.
  - destruct items as [|x items]; [by repeat constructor|].
    cbn [json_dumps]. rewrite !Forall_app. split_and!.
    + by repeat constructor.
    + apply newline_indent_no_cr.
    + apply Forall_join.
      * constructor; [done|apply newline_indent_no_cr].
      * apply Forall_fmap. eapply Forall_impl; [exact IH|]. intros y Hy. apply Hy.
    + apply newline_indent_no_cr.
    + by repeat constructor.
  - destruct members as [|member members]; [by repeat constructor|].
    cbn [json_dumps]. rewrite !Forall_app. split_and!.
    + by repeat constructor.
    + apply newline_indent_no_cr.
    + apply Forall_join.
      * constructor; [done|apply newline_indent_no_cr].
      * apply Forall_fmap. eapply Forall_impl; [exact IH|]. intros [k y] Hy.
        unfold compose. cbn [fst snd] in *. rewrite !Forall_app. split_and!.
        -- apply encode_basestring_no_cr.
        -- by repeat constructor.
        -- apply Hy.
    + apply newline_indent_no_cr.
    + by repeat constructor.
Qed.

Lemma universal_newlines_no_cr (s : pystr) :
  Forall (λ ch, ch ≠ 13%N) s → universal_newlines s = s.
Proof.
  induction 1 as [|c s Hc _ IH]; [done|]. cbn [universal_newlines].
  rewrite (proj2 (N.eqb_neq c 13) Hc). by rewrite IH.
Qed.

Ltac key_ne :=
  let H := fresh in intros H; vm_compute in H; discriminate H.

Lemma result_dict_members (r : ScrapingResult) :
  ∃ d, to_json (result_dict r) = JObj d ∧
       d !! py "url" = Some (JStr (url r)) ∧
       d !! py "success" = Some (JBool (success r)) ∧
       d !! py "error" = Some (to_json (optional_str (error r))) ∧
       d !! py "units" = Some (JArr (to_json <$> (unit_dict <$> units r))).
Proof.
  eexists. split; [reflexivity|]. cbn [foldl fst snd].
  split_and!.
  - rewrite !lookup_insert_ne by key_ne. apply lookup_insert_eq.
  - rewrite !lookup_insert_ne by key_ne. apply lookup_insert_eq.
  - rewrite !lookup_insert_ne by key_ne. apply lookup_insert_eq.
  - apply lookup_insert_eq.
Qed.

(** The file [export_to_json] writes is read back by [json.loads] as a
    list with one object for each result, in the order of the results,
    holding its URL, its success flag, its error and the dictionaries of
    its units. *)
Theorem export_to_json_loads_back (results : list ScrapingResult)
    (output_path : pystr) (disk : Disk) :
  write_failure disk output_path (json_dumps false 0 (json_data results)) = None →
  ∃ disk' text items,
    export_to_json results output_path disk = (None, disk') ∧
    files disk' !! output_path = Some text ∧
    json_loads text = Some (JArr items) ∧
    length items = length results ∧
    ∀ i r, results !! i = Some r →
      ∃ d, items !! i = Some (JObj d) ∧
           d !! py "url" = Some (JStr (url r)) ∧
           d !! py "success" = Some (JBool (success r)) ∧
           d !! py "error" = Some (to_json (optional_str (error r))) ∧
           d !! py "units" = Some (JArr (to_json <$> (unit_dict <$> units r))).
Proof.
  intros Hwrite. unfold export_to_json, write_text. rewrite Hwrite.
  eexists _, _, (to_json <$> (result_dict <$> results)). split_and!.
  - reflexivity.
  - cbn [files set_file]. apply lookup_insert_eq.
  - by rewrite json_loads_dumps.
  - by rewrite !length_fmap.
  - intros i r Hr. destruct (result_dict_members r) as (d & Hd & Hlookups).
    exists d. split; [|exact Hlookups].
    by rewrite !list_lookup_fmap, Hr, <- Hd.
Qed.

Ltac scalar_literal :=
  match goal with
  | |- Forall is_scalar ?t =>
      let v := eval vm_compute in t in
      change t with v; repeat (constructor; [by left|]); constructor
  end.

Lemma scalar_strings_model_dump (c : Config) :
  scalar_config c → scalar_strings (PDict (model_dump c)).
Proof.
  intros (Hmodel & Hbase & Hagent). cbn [scalar_strings model_dump foldr fst snd].
  split_and!; try done; scalar_literal.
Qed.

Lemma write_text_ok (disk : Disk) (path text : pystr) :
  write_failure disk path text = None →
  write_text disk path text = (None, set_file disk path text).
Proof. intros Hwrite. unfold write_text. by rewrite Hwrite. Qed.

Lemma read_text_set_file (disk : Disk) (path text : pystr) :
  read_error disk path = None → Forall (λ ch, ch ≠ 13%N) text →
  read_text (set_file disk path text) path = inr text.
Proof.
  intros Hread Htext. unfold read_text, open_for_reading. cbn [files set_file read_error].
  rewrite lookup_insert_eq, Hread. by rewrite universal_newlines_no_cr.
Qed.

Lemma load_attempt_saved (path : pystr) (c : Config) (disk : Disk) :
  accepts_own_dump → scalar_config c → read_error disk path = None →
  load_attempt path (set_file disk path (json_dumps true 0 (PDict (model_dump c))))
  = Some c.
Proof.
  intros Hvalidate Hscalar Hread. unfold load_attempt.
  rewrite read_text_set_file by (done || apply json_dumps_no_cr).
  rewrite json_loads_dumps by (intros _; by apply scalar_strings_model_dump).
  by rewrite Hvalidate.
Qed.

Lemma load_config_saved (path : pystr) (c : Config) (disk : Disk) :
  accepts_own_dump → scalar_config c →
  write_failure disk path (json_dumps true 0 (PDict (model_dump c))) = None →
  read_error disk path = None →
  _load_config path (_save_config path c disk) = (c, _save_config path c disk).
Proof.
  intros Hvalidate Hscalar Hwrite Hread.
  unfold _load_config, _save_config.
  rewrite write_text_ok by done. cbn [snd].
  unfold path_exists at 1. cbn [files set_file]. rewrite lookup_insert_eq.
  by rewrite load_attempt_saved.
Qed.

(** A configuration that was saved is the one a new manager loads from
    the same path, and loading it leaves the file as it is. *)
Theorem config_saved_then_loaded (path : pystr) (c : Config) (disk : Disk) :
  accepts_own_dump → scalar_config c →
  write_failure disk path (json_dumps true 0 (PDict (model_dump c))) = None →
  read_error disk path = None →
  ConfigManager_init (Some path) (_save_config path c disk)
  = ({| config_path := path; manager_config := c |}, _save_config path c disk).
Proof.
  intros Hvalidate Hscalar Hwrite Hread.
  unfold ConfigManager_init. by rewrite load_config_saved.
Qed.

Lemma scalar_default_config : scalar_config default_config.
Proof. unfold scalar_config. split_and!; scalar_literal. Qed.

(** Creating the manager a second time gives the same manager and
    changes nothing on the disk, whatever the file held at first. *)
Theorem ConfigManager_init_idempotent (given_path : option pystr)
    (disk disk' : Disk) (manager : ConfigManager) :
  accepts_own_dump →
  (∀ text, write_failure disk (default home_config_path given_path) text = None) →
  read_error disk (default home_config_path given_path) = None →
  ConfigManager_init given_path disk = (manager, disk') →
  ConfigManager_init given_path disk' = (manager, disk').
Proof.
  intros Hvalidate Hwrite Hread. unfold ConfigManager_init.
  set (path := match given_path with Some p => p | None => home_config_path end).
  change (default home_config_path given_path) with path in *.
  unfold _load_config at 1.
  destruct (if path_exists disk path then load_attempt path disk else None)
    as [c|] eqn:Hloaded.
  - intros [= <- <-]. unfold _load_config. by rewrite Hloaded.
  - intros [= <- <-].
    by rewrite load_config_saved by (done || apply scalar_default_config).
Qed.

(** A configuration file that does not hold a JSON object is replaced:
    the manager takes the defaults and writes them over the file. *)
Theorem config_file_without_object_replaced (path text : pystr) (disk : Disk) :
  files disk !! path = Some text →
  (∀ members, json_loads (universal_newlines text) ≠ Some (JObj members)) →
  write_failure disk path
    (json_dumps true 0 (PDict (model_dump default_config))) = None →
  ∃ disk',
    ConfigManager_init (Some path) disk
    = ({| config_path := path; manager_config := default_config |}, disk') ∧
    files disk' !! path
    = Some (json_dumps true 0 (PDict (model_dump default_config))).
Proof.
  intros Hfile Hjson Hwrite.
  unfold ConfigManager_init, _load_config, _save_config, path_exists.
  rewrite Hfile.
  assert (Hattempt : load_attempt path disk = None).
  { unfold load_attempt, read_text, open_for_reading. rewrite Hfile.
    destruct (read_error disk path); [done|].
    destruct (json_loads (universal_newlines text)) as [data|] eqn:Hdata; [|done].
    destruct data; try done. by destruct (Hjson members). }
  rewrite Hattempt, write_text_ok by done. cbn [snd].
  eexists. split; [reflexivity|]. cbn [files set_file]. apply lookup_insert_eq.
Qed.

Lemma dict_update_options (opts : ConfigOptions) (c : Config) :
  dict_update (model_dump c) (config_updates opts)
  = model_dump (apply_options opts c).
Proof.
  destruct opts as [[[|m0 m]|] [[|b0 b]|] [t|] show];
    unfold config_updates, apply_options;
    cbn [opt_model opt_base_url opt_timeout nonempty];
    try destruct (t =? 0)%Z; reflexivity.
Qed.

Lemma write_text_oracles (disk : Disk) (path text : pystr) :
  read_error (write_text disk path text).2 = read_error disk ∧
  write_failure (write_text disk path text).2 = write_failure disk.
Proof.
  unfold write_text.
  by destruct (write_failure disk path text) as [[e [partial|]]|].
Qed.

Lemma load_config_oracles (path : pystr) (disk : Disk) :
  read_error (_load_config path disk).2 = read_error disk ∧
  write_failure (_load_config path disk).2 = write_failure disk.
Proof.
  unfold _load_config, _save_config.
  destruct (if path_exists disk path then load_attempt path disk else None);
    [done|apply write_text_oracles].
Qed.

Lemma ConfigManager_init_oracles (given_path : option pystr) (disk : Disk) :
  read_error (ConfigManager_init given_path disk).2 = read_error disk ∧
  write_failure (ConfigManager_init given_path disk).2 = write_failure disk.
Proof.
  unfold ConfigManager_init.
  destruct given_path as [p|].
  - pose proof (load_config_oracles p disk).
    by destruct (_load_config p disk).
  - pose proof (load_config_oracles home_config_path disk).
    by destruct (_load_config home_config_path disk).
Qed.

Lemma ConfigManager_init_path (given_path : option pystr) (disk : Disk) :
  config_path (ConfigManager_init given_path disk).1
  = default home_config_path given_path.
Proof.
  unfold ConfigManager_init.
  destruct given_path as [p|]; cbn [default];
    by destruct (_load_config _ disk).
Qed.

(** The [config] command without [--show] and with an option that
    counts: the options that are empty or zero are passed over and the
    others replace their field; the command saves the configuration so
    obtained and prints its message of success, also when the file could
    not be written. When the file can be written and read, it is the
    configuration the next manager loads. *)
Theorem config_command_sets_options (opts : ConfigOptions) (disk : Disk) :
  let current := manager_config (ConfigManager_init None disk).1 in
  let wanted := apply_options opts current in
  let dumped := json_dumps true 0 (PDict (model_dump wanted)) in
  accepts_own_dump →
  opt_show opts = false → config_updates opts ≠ [] →
  ∃ disk',
    config_command opts disk
    = (inr [py "Configuration updated successfully!"], disk') ∧
    disk' = _save_config home_config_path wanted (ConfigManager_init None disk).2 ∧
    (∀ e, write_failure disk home_config_path dumped = Some (e, None) →
          disk' = (ConfigManager_init None disk).2) ∧
    (scalar_config wanted →
     write_failure disk home_config_path dumped = None →
     read_error disk home_config_path = None →
     ConfigManager_init None disk'
     = ({| config_path := home_config_path; manager_config := wanted |}, disk')).
Proof.
  intros current wanted dumped Hvalidate Hshow Hupdates.
  pose proof (ConfigManager_init_oracles None disk) as [Hr Hw].
  pose proof (ConfigManager_init_path None disk) as Hpath.
  unfold config_command. subst dumped wanted current.
  destruct (ConfigManager_init None disk) as [manager disk1].
  cbn [fst snd default] in *. rewrite Hshow.
  destruct (config_updates opts) as [|update updates] eqn:Hopts; [done|].
  rewrite <- Hopts. unfold update_config.
  rewrite dict_update_options, Hvalidate, Hpath.
  eexists. split; [reflexivity|]. split; [reflexivity|]. split.
  - intros e Hfail. unfold _save_config, write_text. by rewrite Hw, Hfail.
  - intros Hscalar Hwrite Hread. unfold ConfigManager_init.
    by rewrite load_config_saved by (done || by rewrite ?Hw, ?Hr).
Qed.

(** ** Exports and commands *)

Lemma run_results_invariant (self : StorageScraper) (envs : nat → PipelineEnv)
    (completion : list nat) (urls : list pystr) (results : list ScrapingResult) :
  scrape_urls self envs completion urls = Returns results →
  length results = length urls ∧
  url <$> results = urls ∧
  Forall result_invariant results.
Proof.
  intros Hrun.
  destruct (browser self) as [b|] eqn:Hb.
  2:{ unfold scrape_urls in Hrun. by rewrite Hb in Hrun. }
  destruct (scrape_urls_returns self envs completion urls b Hb)
    as (results' & Hres & Hlen & Hlookup).
  { intros Hnone. unfold scrape_urls in Hrun. by rewrite Hb, Hnone in Hrun. }
  rewrite Hrun in Hres. injection Hres as <-.
  split_and!; [done| |].
  - apply list_eq. intros i. rewrite list_lookup_fmap.
    destruct (urls !! i) as [u|] eqn:Hu.
    + destruct (Hlookup i u Hu) as (r & -> & <- & _). done.
    + apply lookup_ge_None in Hu.
      rewrite (proj2 (lookup_ge_None results i)); [done|lia].
  - apply Forall_lookup. intros i r Hi.
    destruct (urls !! i) as [u|] eqn:Hu.
    + destruct (Hlookup i u Hu) as (r' & Hr' & _ & Hinv & _).
      rewrite Hi in Hr'. by injection Hr' as <-.
    + apply lookup_ge_None in Hu. apply lookup_lt_Some in Hi. lia.
Qed.

Lemma all_units_from (results : list ScrapingResult) (acc : list StorageUnit) :
  foldl (λ acc result, if success result then acc ++ units result else acc)
    acc results
  = acc ++ (results ≫= λ r, if success r then units r else []).
Proof.
  revert acc. induction results as [|r results IH]; intros acc; simpl.
  - by rewrite app_nil_r.
  - rewrite IH. destruct (success r); [by rewrite app_assoc|done].
Qed.

Lemma all_units_of_run (results : list ScrapingResult) :
  Forall result_invariant results → all_units results = results ≫= units.
Proof.
  intros Hinv. unfold all_units. rewrite all_units_from. cbn [app].
  induction Hinv as [|r results Hr _ IH]; [done|].
  rewrite !bind_cons, IH. f_equal.
  destruct (success r) eqn:Hs; [done|].
  destruct Hr as (_ & _ & Hunits). by rewrite Hunits.
Qed.

(** The CSV export of the results of a run leaves no unit out: when no
    result has a unit the file holds the header row alone, and otherwise
    pandas is given one row for every unit of every result, in order. *)
Theorem export_to_csv_of_run (self : StorageScraper) (envs : nat → PipelineEnv)
    (completion : list nat) (urls : list pystr) (results : list ScrapingResult)
    (output_path : pystr) (disk : Disk) :
  scrape_urls self envs completion urls = Returns results →
  (results ≫= units = [] →
   export_to_csv results output_path disk
   = write_text disk output_path csv_header) ∧
  (results ≫= units ≠ [] →
   export_to_csv results output_path disk
   = pandas_to_csv (unit_dict <$> (results ≫= units)) output_path disk).
Proof.
  intros Hrun. apply run_results_invariant in Hrun as (_ & _ & Hinv).
  unfold export_to_csv. rewrite (all_units_of_run results Hinv).
  by destruct (results ≫= units).
Qed.

Lemma filter_success_lengths (results : list ScrapingResult) :
  length (filter (λ r, success r = true) results)
  + length (filter (λ r, success r = false) results) = length results.
Proof.
  induction results as [|r results IH]; [done|].
  rewrite !filter_cons.
  destruct (decide (success r = true)) as [Ht|Ht],
           (decide (success r = false)) as [Hf|Hf]; simpl; try lia.
  - congruence.
  - by destruct (success r).
Qed.

Lemma total_units_of_run (results : list ScrapingResult) :
  Forall result_invariant results →
  sum_list ((λ r, length (units r)) <$> filter (λ r, success r = true) results)
  = length (results ≫= units).
Proof.
  induction 1 as [|r results Hr _ IH]; [done|].
  rewrite filter_cons, bind_cons, length_app, <- IH.
  destruct (decide (success r = true)) as [Hs|Hs]; [done|].
  destruct Hr as (_ & _ & Hunits).
  rewrite Hunits; [done|]. by destruct (success r).
Qed.

(** The summary [run_scraper] logs is that of the results of the run:
    the URLs that did not succeed are those whose result is a failure,
    and the units counted are all the units of all the results. *)
Theorem run_scraper_summary (env : RunEnv) (urls : list pystr)
    (output_file export_format : pystr) (disk disk' : Disk) (s : Summary) :
  run_scraper env urls output_file export_format disk = (Returns s, disk') →
  ∃ results,
    scrape_urls
      (aenter (StorageScraper_init (manager_config (ConfigManager_init None disk).1)))
      (pipelines env) (completion env) urls = Returns results ∧
    urls_processed s = length urls ∧
    successful s = length (filter (λ r, success r = true) results) ∧
    failed_urls s
    = Z.of_nat (length (filter (λ r, success r = false) results)) ∧
    total_units s = length (results ≫= units).
Proof.
  unfold run_scraper, get_config.
  destruct (ConfigManager_init None disk) as [manager disk1]. cbn [fst].
  destruct (launch_error env); [done|].
  destruct (scrape_urls _ _ _ urls) as [results| |] eqn:Hrun;
    [|by destruct (stop_error env)|done].
  destruct (stop_error env); [done|].
  destruct (export results output_file export_format disk1) as [[e|] disk2];
    [done|].
  intros [= <- <-]. exists results.
  apply run_results_invariant in Hrun as (Hlen & _ & Hinv).
  split_and!; try done.
  - cbn [failed_urls summary]. pose proof (filter_success_lengths results). lia.
  - cbn [total_units summary]. by apply total_units_of_run.
Qed.


(** [run_scraper] with a browser that starts and an export format other
    than [csv] and [json]: the format is found out only after the scrape.
    Once every pipeline has completed the call raises, the exception of
    [__aexit__] if closing the browser raises and the one of the format
    otherwise; a run that does not complete never reports the format; and
    nothing is exported. The [scrape] command never calls it so: with
    such a format it leaves with status 2. *)
Theorem run_scraper_unsupported_format (env : RunEnv) (urls : list pystr)
    (output_file export_format : pystr) (disk : Disk) :
  let cfg := manager_config (ConfigManager_init None disk).1 in
  let ran := run_scraper env urls output_file export_format disk in
  lower_ascii export_format ≠ py "csv" →
  lower_ascii export_format ≠ py "json" →
  launch_error env = None →
  ran.2 = (ConfigManager_init None disk).2 ∧
  (completion env ≡ₚ seq 0 (length urls) →
   ran.1 = Raises match stop_error env with
                  | Some e => e
                  | None =>
                      click_exception
                        (py "Unsupported export format: " ++ export_format)
                  end) ∧
  (scrape_urls (aenter (StorageScraper_init cfg)) (pipelines env)
     (completion env) urls = Hangs →
   ran.1 = Hangs) ∧
  (∀ opts, opt_export_format opts = export_format →
           scrape env opts disk = (SysExit 2, disk)).
Proof.
  intros cfg ran Hcsv Hjson Hlaunch. subst cfg ran.
  assert (Hexport : ∀ results d,
            export results output_file export_format d
            = (Some (click_exception
                       (py "Unsupported export format: " ++ export_format)), d)).
  { intros results d. unfold export. by rewrite !decide_False. }
  unfold run_scraper, get_config.
  destruct (ConfigManager_init None disk) as [manager disk1]. cbn [fst snd].
  rewrite Hlaunch.
  set (scraper := aenter (StorageScraper_init (manager_config manager))).
  split_and!.
  - destruct (scrape_urls scraper (pipelines env) (completion env) urls),
             (stop_error env); by rewrite ?Hexport.
  - intros Hperm.
    destruct (scrape_urls_returns scraper (pipelines env) (completion env)
                urls Chromium eq_refl) as (results & -> & _).
    + rewrite gather_complete; [done|]. by rewrite length_imap.
    + destruct (stop_error env); by rewrite ?Hexport.
  - by intros ->.
  - intros opts Hformat. unfold scrape. rewrite Hformat.
    rewrite decide_False; [done|].
    rewrite !elem_of_cons, elem_of_nil. by intros [->|[->|[]]].
Qed.

End Pipeline.

(** * Closed instances

    The theorems above at concrete scrapers, environments and responses. *)

Lemma scrape_urls_preserves_order_witness :
  ∃ results,
    scrape_urls repr_placeholder bs4_text_identity sample_scraper sample_envs
      [1; 0] [py "https://a.example/units"; py "https://b.example/units"]
      = Returns results ∧
    length results = 2 ∧
    ∀ i u, [py "https://a.example/units"; py "https://b.example/units"] !! i = Some u →
      ∃ r, results !! i = Some r ∧ url r = u ∧
           (run (_scrape_url repr_placeholder bs4_text_identity sample_scraper
                   (sample_envs i) u)).1 = inr r.
Proof.
  apply (scrape_urls_preserves_order repr_placeholder bs4_text_identity
           sample_scraper sample_envs [1; 0]
           [py "https://a.example/units"; py "https://b.example/units"]).
  - discriminate.
  - simpl. apply perm_swap.
Defined.

Lemma scrape_urls_results_invariant_witness :
  (success (failed (py "https://b.example/units") (py "Failed to load page: HTTP 404"))
     = false ↔
   error (failed (py "https://b.example/units") (py "Failed to load page: HTTP 404"))
     ≠ None) ∧
  (∀ msg,
     error (failed (py "https://b.example/units") (py "Failed to load page: HTTP 404"))
       = Some msg → msg ≠ []) ∧
  (success (failed (py "https://b.example/units") (py "Failed to load page: HTTP 404"))
     = false →
   units (failed (py "https://b.example/units") (py "Failed to load page: HTTP 404"))
     = []).
Proof.
  eapply (scrape_urls_results_invariant repr_placeholder bs4_text_identity
            sample_scraper sample_envs [1; 0]
            [py "https://a.example/units"; py "https://b.example/units"]).
  - vm_compute. reflexivity.
  - apply list_elem_of_further, list_elem_of_here.
Defined.

(** C3, the counterexample: the answer [[{"size":"","price":"$50"}]] gives
    a successful result holding a unit whose size is the empty string. *)
Lemma unit_with_empty_size :
  ∃ r tr unit,
    run (_scrape_url repr_placeholder bs4_text_identity sample_scraper
           {| page_env := page_loads 200 (py "<html><body>$50</body></html>");
              ollama_env := endpoint_answers (pyq "[{'size':'','price':'$50'}]") |}
           (py "https://a.example/units")) = (inr r, tr) ∧
    success r = true ∧ unit ∈ units r ∧ size unit = [].
Proof.
  do 3 eexists. split; [vm_compute; reflexivity|].
  split; [reflexivity|]. split; [apply list_elem_of_here|reflexivity].
Qed.

Lemma units_built_from_keyed_elements_witness :
  ∃ body raw data d sz pr,
    post_result (ollama_env (sample_envs 0))
      = PostResponse 200 (BodyJson (JObj body)) ∧
    body !! py "response" = Some (JStr raw) ∧
    json_loads (json_payload (strip raw)) = Some (JArr data) ∧
    JObj d ∈ data ∧ d !! py "size" = Some sz ∧ d !! py "price" = Some pr ∧
    py "5x5" = strip (py_str repr_placeholder sz) ∧
    py "$50/month" = strip (py_str repr_placeholder pr) ∧
    (py "5x5" ≠ [] ↔ ∃ c, c ∈ py_str repr_placeholder sz ∧ isspace c = false) ∧
    (py "$50/month" ≠ [] ↔ ∃ c, c ∈ py_str repr_placeholder pr ∧ isspace c = false).
Proof.
  eapply (units_built_from_keyed_elements repr_placeholder bs4_text_identity
            sample_scraper (sample_envs 0) (py "https://a.example/units") _ _
            {| unit_url := py "https://a.example/units";
               size := py "5x5"; price := py "$50/month";
               raw_size := Some (py "5x5"); raw_price := Some (py "$50/month") |}).
  - vm_compute. reflexivity.
  - reflexivity.
  - apply list_elem_of_here.
Defined.

Lemma extraction_failure_absorbed_witness :
  (∀ tr, ∃ tr',
     extract_storage_data repr_placeholder bs4_text_identity
       (ollama_client sample_scraper) endpoint_times_out
       (py "<html><body>5x5 $50/month</body></html>")
       (py "https://a.example/units") tr = (inr [], tr')) ∧
  (∃ tr,
     run (_scrape_url repr_placeholder bs4_text_identity sample_scraper
            {| page_env := page_loads 200 (py "<html><body>5x5 $50/month</body></html>");
               ollama_env := endpoint_times_out |}
            (py "https://a.example/units"))
     = (inr (succeeded (py "https://a.example/units") []), tr)).
Proof.
  apply (extraction_failure_absorbed repr_placeholder bs4_text_identity
           sample_scraper
           {| page_env := page_loads 200 (py "<html><body>5x5 $50/month</body></html>");
              ollama_env := endpoint_times_out |}
           (py "https://a.example/units")
           (py "<html><body>5x5 $50/month</body></html>")).
  - discriminate.
  - unfold fetch_succeeds. simpl. split_and!; try reflexivity.
    exists 200%Z. split; [reflexivity|lia].
  - apply (request_raises _ (Exn "TimeoutError" [])). reflexivity.
Defined.

Lemma goto_raises_page_not_closed_witness :
  ∃ tr,
    run (_scrape_url repr_placeholder bs4_text_identity sample_scraper
           {| page_env := page_times_out;
              ollama_env := endpoint_answers (pyq "[{'size':'5x5','price':'$50/month'}]") |}
           (py "https://a.example/units"))
    = (inr (failed (py "https://a.example/units")
              (py "Scraping error: " ++ py "Timeout 3600000ms exceeded.")), tr) ∧
    NewPage ∈ tr ∧ ClosePage ∉ tr.
Proof.
  apply (goto_raises_page_not_closed repr_placeholder bs4_text_identity
           sample_scraper
           {| page_env := page_times_out;
              ollama_env := endpoint_answers (pyq "[{'size':'5x5','price':'$50/month'}]") |}
           (py "https://a.example/units")
           (Exn "TimeoutError" (py "Timeout 3600000ms exceeded."))).
  - discriminate.
  - reflexivity.
  - reflexivity.
  - reflexivity.
Defined.



Lemma scrape_urls_uninitialized_witness :
  scrape_urls repr_placeholder bs4_text_identity (StorageScraper_init default_config)
    sample_envs [0] [py "https://a.example/units"] = Raises not_initialized ∧
  exn_class not_initialized = "RuntimeError"%string ∧
  ∀ results,
    scrape_urls repr_placeholder bs4_text_identity (StorageScraper_init default_config)
      sample_envs [0] [py "https://a.example/units"] ≠ Returns results.
Proof.
  apply (scrape_urls_uninitialized repr_placeholder bs4_text_identity
           (StorageScraper_init default_config) sample_envs [0]
           [py "https://a.example/units"]).
  reflexivity.
Defined.

Lemma parse_response_bracket_span_witness :
  json_payload (py "Here you go: " ++ 91%N :: py "1, 2" ++ 93%N :: py " thanks")
  = 91%N :: py "1, 2" ++ [93%N].
Proof.
  apply (proj1 (parse_response_bracket_span repr_placeholder)).
  - apply (bool_decide_unpack _). vm_compute. exact I.
  - apply (bool_decide_unpack _). vm_compute. exact I.
Defined.

Lemma collect_units_accepts_keyed_objects_witness :
  unit_of_item repr_placeholder (py "https://a.example/units")
    (JObj (<[py "size" := JInt 5]> {[ py "price" := JStr (py " $50 ") ]}))
  = Some {| unit_url := py "https://a.example/units";
            size := py "5"; price := py "$50";
            raw_size := Some (py "5"); raw_price := Some (py " $50 ") |}.
Proof.
  pose proof (proj1 (proj2 (proj2
           (collect_units_accepts_keyed_objects repr_placeholder
              (py "https://a.example/units") [])))
           (<[py "size" := JInt 5]> {[ py "price" := JStr (py " $50 ") ]})
           (JInt 5) (JStr (py " $50 ")) eq_refl eq_refl) as H.
  vm_compute in H. vm_compute. exact H.
Defined.

Lemma clean_html_length_bound_witness :
  (_clean_html_for_llm bs4_text_identity (py "5x5   $50  per month") 5
     = take 5 (normalize_whitespace (py "5x5   $50  per month")) ++ py "..." ∧
   length (_clean_html_for_llm bs4_text_identity (py "5x5   $50  per month") 5)
     = 5 + 3) ∧
  (_clean_html_for_llm bs4_text_failing (py "<p>5x5 $50</p>") 5
     = take 5 (py "<p>5x5 $50</p>") ∧
   length (_clean_html_for_llm bs4_text_failing (py "<p>5x5 $50</p>") 5) ≤ 5).
Proof.
  split.
  - apply (proj1 (proj2 (clean_html_length_bound bs4_text_identity
                           (py "5x5   $50  per month") 5))).
    + reflexivity.
    + vm_compute. lia.
  - apply (proj1 (proj2 (proj2 (clean_html_length_bound bs4_text_failing
                                   (py "<p>5x5 $50</p>") 5)))
             (Exn "ParserRejectedMarkup" (py "rejected"))).
    reflexivity.
Defined.

Lemma units_carry_page_url_witness :
  unit_url {| unit_url := py "https://a.example/units";
              size := py "5x5"; price := py "$50/month";
              raw_size := Some (py "5x5"); raw_price := Some (py "$50/month") |}
  = url (succeeded (py "https://a.example/units")
           [ {| unit_url := py "https://a.example/units";
                size := py "5x5"; price := py "$50/month";
                raw_size := Some (py "5x5");
                raw_price := Some (py "$50/month") |} ]).
Proof.
  eapply (units_carry_page_url repr_placeholder bs4_text_identity
            sample_scraper (sample_envs 0) (py "https://a.example/units")).
  - vm_compute. reflexivity.
  - apply list_elem_of_here.
Defined.

Lemma page_closed_when_calls_return_witness :
  ∃ r tr,
    run (_scrape_url repr_placeholder bs4_text_identity sample_scraper
           (sample_envs 0) (py "https://a.example/units")) = (inr r, tr) ∧
    NewPage ∈ tr ∧ ClosePage ∈ tr.
Proof.
  apply (page_closed_when_calls_return repr_placeholder bs4_text_identity
           sample_scraper (sample_envs 0) (py "https://a.example/units") 200
           (py "<html><body>5x5 $50/month</body></html>")).
  - discriminate.
  - reflexivity.
  - reflexivity.
  - reflexivity.
  - reflexivity.
  - reflexivity.
Defined.

Lemma read_urls_from_file_returns_witness :
  [py "https://a.example/units"; py "https://b.example/units"] ≠ [] ∧
  Forall (λ u, u ≠ [] ∧ strip u = u ∧ (10%N ∉ u) ∧ (13%N ∉ u))
    [py "https://a.example/units"; py "https://b.example/units"] ∧
  ∃ content, sample_files (py "urls.txt") = inr content ∧
    [py "https://a.example/units"; py "https://b.example/units"]
    = strip <$> filter (λ line, strip line ≠ []) (file_lines content).
Proof.
  apply (read_urls_from_file_returns sample_files (py "urls.txt")).
  vm_compute. reflexivity.
Defined.

Lemma pipeline_never_retries_witness :
  ∃ r tr,
    run (_scrape_url repr_placeholder bs4_text_identity sample_scraper
           (sample_envs 0) (py "https://a.example/units")) = (inr r, tr) ∧
    count_events is_goto tr ≤ 1 ∧ count_events is_post tr ≤ 1 ∧
    (∀ target timeout, Goto target timeout ∈ tr →
       target = py "https://a.example/units" ∧
       timeout = (timeout_seconds (config sample_scraper) * 1000)%Z) ∧
    (∀ endpoint prompt timeout, Post endpoint prompt timeout ∈ tr →
       endpoint = base_url (ollama_client sample_scraper) ++ py "/api/generate" ∧
       timeout = timeout_seconds (oc_config (ollama_client sample_scraper))).
Proof.
  do 2 eexists. split; [vm_compute; reflexivity|].
  eapply (pipeline_never_retries repr_placeholder bs4_text_identity
            sample_scraper (sample_envs 0) (py "https://a.example/units")).
  vm_compute. reflexivity.
Defined.

(** ** Files and commands *)

Ltac distinct_keys :=
  let H := fresh in intros H; vm_compute in H; discriminate H.

Lemma strict_validate_accepts : accepts_own_dump strict_validate.
Proof.
  intros [m b r t u]. unfold Config_from, strict_validate.
  cbn [to_json model_dump foldl fst snd ollama_model ollama_base_url
       max_retries timeout_seconds user_agent].
  repeat (rewrite lookup_insert_eq || rewrite lookup_insert_ne by distinct_keys).
  reflexivity.
Qed.

Ltac scalar_text :=
  match goal with
  | |- Forall is_scalar ?t =>
      let v := eval vm_compute in t in
      change t with v; repeat (constructor; [left; reflexivity|]); constructor
  end.

Lemma export_to_json_loads_back_witness :
  ∃ disk' text items,
    export_to_json sample_results (py "out.json") empty_disk = (None, disk') ∧
    files disk' !! py "out.json" = Some text ∧
    json_loads text = Some (JArr items) ∧
    length items = length sample_results ∧
    ∀ i r, sample_results !! i = Some r →
      ∃ d, items !! i = Some (JObj d) ∧
           d !! py "url" = Some (JStr (url r)) ∧
           d !! py "success" = Some (JBool (success r)) ∧
           d !! py "error" = Some (to_json (optional_str (error r))) ∧
           d !! py "units" = Some (JArr (to_json <$> (unit_dict <$> units r))).
Proof. apply export_to_json_loads_back. reflexivity. Defined.

Lemma config_saved_then_loaded_witness :
  ConfigManager_init repr_placeholder strict_validate sample_home
    (Some (py "settings.json"))
    (_save_config (py "settings.json") sample_config empty_disk)
  = ({| config_path := py "settings.json"; manager_config := sample_config |},
     _save_config (py "settings.json") sample_config empty_disk).
Proof.
  apply config_saved_then_loaded.
  - apply strict_validate_accepts.
  - unfold scalar_config. split_and!; scalar_text.
  - reflexivity.
  - reflexivity.
Defined.

Lemma config_file_without_object_replaced_witness :
  ∃ disk',
    ConfigManager_init repr_placeholder strict_validate sample_home
      (Some sample_home) disk_with_list
    = ({| config_path := sample_home; manager_config := default_config |}, disk') ∧
    files disk' !! sample_home
    = Some (json_dumps true 0 (PDict (model_dump default_config))).
Proof.
  apply (config_file_without_object_replaced repr_placeholder strict_validate
           sample_home sample_home (py "[1, 2]") disk_with_list).
  - apply lookup_insert_eq.
  - intros members Hloads. vm_compute in Hloads. discriminate Hloads.
  - reflexivity.
Defined.

Lemma config_command_sets_options_witness :
  ∃ disk',
    config_command repr_placeholder strict_validate sample_home
      sample_config_options empty_disk
    = (inr [py "Configuration updated successfully!"], disk') ∧
    ConfigManager_init repr_placeholder strict_validate sample_home None disk'
    = ({| config_path := sample_home;
          manager_config :=
            {| ollama_model := py "llama3";
               ollama_base_url := ollama_base_url default_config;
               max_retries := max_retries default_config;
               timeout_seconds := timeout_seconds default_config;
               user_agent := user_agent default_config |} |}, disk').
Proof.
  destruct (config_command_sets_options repr_placeholder strict_validate
              sample_home sample_config_options empty_disk)
    as (disk' & Hcommand & _ & _ & Hloaded).
  - apply strict_validate_accepts.
  - reflexivity.
  - discriminate.
  - exists disk'. split; [exact Hcommand|]. apply Hloaded.
    + unfold scalar_config. split_and!; scalar_text.
    + reflexivity.
    + reflexivity.
Defined.

Lemma export_to_csv_of_run_witness :
  ∃ results,
    scrape_urls repr_placeholder bs4_text_identity sample_scraper sample_envs
      [1; 0] [py "https://a.example/units"; py "https://b.example/units"]
    = Returns results ∧
    (results ≫= units = [] →
     export_to_csv rows_as_text results (py "out.csv") empty_disk
     = write_text empty_disk (py "out.csv") csv_header) ∧
    (results ≫= units ≠ [] →
     export_to_csv rows_as_text results (py "out.csv") empty_disk
     = rows_as_text (unit_dict <$> (results ≫= units)) (py "out.csv") empty_disk).
Proof.
  eexists. split; [vm_compute; reflexivity|].
  eapply (export_to_csv_of_run repr_placeholder bs4_text_identity rows_as_text
            sample_scraper sample_envs [1; 0]
            [py "https://a.example/units"; py "https://b.example/units"]).
  vm_compute. reflexivity.
Defined.

Lemma run_scraper_summary_witness :
  ∃ s disk',
    run_scraper repr_placeholder bs4_text_identity strict_validate sample_home
      rows_as_text sample_run
      [py "https://a.example/units"; py "https://b.example/units"]
      (py "out.json") (py "json") empty_disk = (Returns s, disk') ∧
    ∃ results,
      scrape_urls repr_placeholder bs4_text_identity
        (aenter (StorageScraper_init
                   (manager_config
                      (ConfigManager_init repr_placeholder strict_validate
                         sample_home None empty_disk).1)))
        (pipelines sample_run) (completion sample_run)
        [py "https://a.example/units"; py "https://b.example/units"]
      = Returns results ∧
      urls_processed s = 2 ∧
      successful s = length (filter (λ r, success r = true) results) ∧
      failed_urls s
      = Z.of_nat (length (filter (λ r, success r = false) results)) ∧
      total_units s = length (results ≫= units).
Proof.
  do 2 eexists. split; [vm_compute; reflexivity|].
  eapply (run_scraper_summary repr_placeholder bs4_text_identity strict_validate
            sample_home rows_as_text sample_run
            [py "https://a.example/units"; py "https://b.example/units"]
            (py "out.json") (py "json") empty_disk).
  vm_compute. reflexivity.
Defined.


Lemma ConfigManager_init_idempotent_witness :
  ConfigManager_init repr_placeholder strict_validate sample_home
    (Some sample_home) (_save_config sample_home default_config disk_with_list)
  = ({| config_path := sample_home; manager_config := default_config |},
     _save_config sample_home default_config disk_with_list).
Proof.
  apply (ConfigManager_init_idempotent repr_placeholder strict_validate
           sample_home (Some sample_home) disk_with_list).
  - apply strict_validate_accepts.
  - reflexivity.
  - reflexivity.
  - vm_compute. reflexivity.
Defined.

Lemma run_scraper_unsupported_format_witness :
  (run_scraper repr_placeholder bs4_text_identity strict_validate sample_home
     rows_as_text sample_run
     [py "https://a.example/units"; py "https://b.example/units"]
     (py "out.xml") (py "xml") empty_disk).2
  = (ConfigManager_init repr_placeholder strict_validate sample_home None
       empty_disk).2 ∧
  (completion sample_run ≡ₚ seq 0 2 →
   (run_scraper repr_placeholder bs4_text_identity strict_validate sample_home
      rows_as_text sample_run
      [py "https://a.example/units"; py "https://b.example/units"]
      (py "out.xml") (py "xml") empty_disk).1
   = Raises (click_exception (py "Unsupported export format: " ++ py "xml"))) ∧
  (scrape_urls repr_placeholder bs4_text_identity
     (aenter (StorageScraper_init
                (manager_config
                   (ConfigManager_init repr_placeholder strict_validate
                      sample_home None empty_disk).1)))
     (pipelines sample_run) (completion sample_run)
     [py "https://a.example/units"; py "https://b.example/units"] = Hangs →
   (run_scraper repr_placeholder bs4_text_identity strict_validate sample_home
      rows_as_text sample_run
      [py "https://a.example/units"; py "https://b.example/units"]
      (py "out.xml") (py "xml") empty_disk).1 = Hangs) ∧
  (∀ opts, opt_export_format opts = py "xml" →
           scrape repr_placeholder bs4_text_identity strict_validate
             sample_home rows_as_text sample_run opts empty_disk
           = (SysExit 2, empty_disk)).
Proof.
  apply (run_scraper_unsupported_format repr_placeholder bs4_text_identity
           strict_validate sample_home rows_as_text sample_run
           [py "https://a.example/units"; py "https://b.example/units"]
           (py "out.xml") (py "xml") empty_disk).
  - distinct_keys.
  - distinct_keys.
  - reflexivity.
Defined.
